(** * Whisper chat: the session / directory / router core, embedded in Rocq

    A shallow embedding of the TypeScript sources of whisper-chat
    (utils/buffer.ts, chat/message.ts, chat/state.ts, network/pubsub.ts,
    chat/session.ts, chat/commands.ts) together with the properties of the
    specification that concern them.

    Conventions.
    - A JavaScript string is the list of its UTF-16 code units ([jsstring]).
    - A JavaScript number that holds a count, a length or a millisecond
      clock reading is an integer ([Z]).
    - A [Map] is an association list kept in insertion order ([JsMap]).
    - Objects that the program shares and mutates (the chat directory, the
      sessions, the overlay) live in one [World]; methods are computations
      in the monad [M] of world transformers that may throw.
    - What the platform decides (the clock, fresh identifiers, whether a
      publish succeeds, Unicode case mapping, SHA-256) is an input: the
      record [Env] and the class [JsPlatform]. *)

From Stdlib Require Import String Ascii DecimalString.
From Stdlib Require Import ZArith NArith List Bool Lia.
From Stdlib Require DecimalFacts DecimalN.
Import ListNotations.
Local Open Scope Z_scope.

Set Implicit Arguments.

(* ================================================================== *)
(** * JavaScript strings *)
(* ================================================================== *)

(** A string is its sequence of UTF-16 code units (each below 65536). *)
Definition jsstring := list N.

(** The code units of a literal whose characters are all below 256. *)
Definition js (s : string) : jsstring :=
  map N_of_ascii (list_ascii_of_string s).

(** [a === b] on strings. *)
Fixpoint jseqb (a b : jsstring) : bool :=
  match a, b with
  | [], [] => true
  | x :: a', y :: b' => N.eqb x y && jseqb a' b'
  | _, _ => false
  end.

(** Truthiness of a string: every string but the empty one. *)
Definition truthy (s : jsstring) : bool :=
  match s with [] => false | _ => true end.

(** [s.length] *)
Definition jslength (s : jsstring) : Z := Z.of_nat (length s).

(** [s.startsWith(p)] *)
Fixpoint startsWith (p s : jsstring) : bool :=
  match p, s with
  | [], _ => true
  | x :: p', y :: s' => N.eqb x y && startsWith p' s'
  | _ :: _, [] => false
  end.

(** [s.includes(p)] *)
Fixpoint includes (p s : jsstring) : bool :=
  startsWith p s ||
  match s with
  | [] => false
  | _ :: s' => includes p s'
  end.

(** [parts.join(sep)] *)
Fixpoint join (sep : jsstring) (parts : list jsstring) : jsstring :=
  match parts with
  | [] => []
  | [p] => p
  | p :: rest => p ++ sep ++ join sep rest
  end.

(** [s.padEnd(n)] with the default filler, a space. *)
Definition padEnd (n : nat) (s : jsstring) : jsstring :=
  s ++ repeat 32%N (n - length s).

(** White space and line terminators: what [trim] removes and what the
    regular expression class [\s] matches. *)
Definition isWhiteSpace (c : N) : bool :=
  ((9 <=? c) && (c <=? 13) || (c =? 32) || (c =? 160) || (c =? 5760)
   || (8192 <=? c) && (c <=? 8202) || (c =? 8232) || (c =? 8233)
   || (c =? 8239) || (c =? 8287) || (c =? 12288) || (c =? 65279))%N.

Fixpoint trimStart (s : jsstring) : jsstring :=
  match s with
  | c :: s' => if isWhiteSpace c then trimStart s' else s
  | [] => []
  end.

(** [s.trim()] *)
Definition trim (s : jsstring) : jsstring :=
  rev (trimStart (rev (trimStart s))).

(** [s.split(/\s+/)]: the pieces between maximal runs of white space.
    [cur] is the piece being read (reversed), [inRun] tells that the
    previous unit was white space. *)
Fixpoint splitWs (cur : jsstring) (inRun : bool) (s : jsstring) : list jsstring :=
  match s with
  | [] => [rev cur]
  | c :: s' =>
      if isWhiteSpace c
      then if inRun then splitWs cur true s'
           else rev cur :: splitWs [] true s'
      else splitWs (c :: cur) false s'
  end.

Definition split_ws (s : jsstring) : list jsstring := splitWs [] false s.

(** [String(n)] for an integer (plain decimal notation, which JavaScript
    uses for every integer below 10^21 in absolute value). *)
Definition Number_toString (n : Z) : jsstring :=
  js (NilZero.string_of_int (Z.to_int n)).

(** The double quote, for use inside literals. *)
Definition dquote : jsstring := [34%N].

(* ================================================================== *)
(** * Map: an association list in insertion order *)
(* ================================================================== *)

Module JsMap.
Definition t (V : Type) := list (jsstring * V).

Definition empty {V} : t V := [].

Fixpoint get {V} (k : jsstring) (m : t V) : option V :=
  match m with
  | [] => None
  | (k', v) :: m' => if jseqb k' k then Some v else get k m'
  end.

Definition has {V} (k : jsstring) (m : t V) : bool :=
  match get k m with Some _ => true | None => false end.

(** [m.set(k, v)]: an existing key keeps its place. *)
Fixpoint set {V} (k : jsstring) (v : V) (m : t V) : t V :=
  match m with
  | [] => [(k, v)]
  | (k', v') :: m' =>
      if jseqb k' k then (k', v) :: m' else (k', v') :: set k v m'
  end.

Fixpoint delete {V} (k : jsstring) (m : t V) : t V :=
  match m with
  | [] => []
  | (k', v') :: m' =>
      if jseqb k' k then m' else (k', v') :: delete k m'
  end.

Definition keys {V} (m : t V) : list jsstring := map fst m.
Definition values {V} (m : t V) : list V := map snd m.
Definition size {V} (m : t V) : Z := Z.of_nat (length m).
End JsMap.

(* ================================================================== *)
(** * The environment: what the platform answers *)
(* ================================================================== *)

(** A thrown value: an [Error] with its message, or anything else, given
    by what [String(err)] makes of it. *)
Inductive JsError :=
| ErrorObject (message : jsstring)
| Thrown (text : jsstring).

(** The successive answers of [Date.now()], of [uuidv4()] and of the
    overlay's [publish] ([None]: the publish went through), each with the
    number of answers already given. *)
Record Env := {
  clock : nat -> Z;
  clockTick : nat;
  uuids : nat -> jsstring;
  uuidTick : nat;
  publishOutcome : nat -> option JsError;
  publishTick : nat
}.

Definition Date_now (e : Env) : Z * Env :=
  (clock e (clockTick e),
   {| clock := clock e; clockTick := S (clockTick e);
      uuids := uuids e; uuidTick := uuidTick e;
      publishOutcome := publishOutcome e; publishTick := publishTick e |}).

Definition uuidv4 (e : Env) : jsstring * Env :=
  (uuids e (uuidTick e),
   {| clock := clock e; clockTick := clockTick e;
      uuids := uuids e; uuidTick := S (uuidTick e);
      publishOutcome := publishOutcome e; publishTick := publishTick e |}).

Definition nextPublishOutcome (e : Env) : option JsError * Env :=
  (publishOutcome e (publishTick e),
   {| clock := clock e; clockTick := clockTick e;
      uuids := uuids e; uuidTick := uuidTick e;
      publishOutcome := publishOutcome e; publishTick := S (publishTick e) |}).

(** What the program takes from the platform's libraries. *)
Class JsPlatform := {
  toLowerCase : jsstring -> jsstring;   (* String.prototype.toLowerCase *)
  toUpperCase : jsstring -> jsstring;   (* String.prototype.toUpperCase *)
  sha256 : list N -> list N             (* @noble/hashes sha256, on bytes *)
}.

(* ================================================================== *)
(** * utils/buffer.ts *)
(* ================================================================== *)

Record BoundedBuffer (T : Type) := {
  items : list T;
  maxSize : Z
}.

Module BoundedBuffer.
Section Buffer.
Variable T : Type.

Definition new (maxSize : Z) : BoundedBuffer T :=
  {| items := []; maxSize := maxSize |}.

(** [Array.prototype.shift] drops the first element. *)
Definition shift (l : list T) : list T := tl l.

Definition push (item : T) (b : BoundedBuffer T) : BoundedBuffer T :=
  let items1 := items b ++ [item] in
  if Z.of_nat (length items1) >? maxSize b
  then {| items := shift items1; maxSize := maxSize b |}
  else {| items := items1; maxSize := maxSize b |}.

Definition getAll (b : BoundedBuffer T) : list T := items b.

(** [items.slice(start)] for [start = max(0, length - count)]. *)
Definition getLast (count : Z) (b : BoundedBuffer T) : list T :=
  let start := Z.max 0 (Z.of_nat (length (items b)) - count) in
  skipn (Z.to_nat start) (items b).

Definition clear (b : BoundedBuffer T) : BoundedBuffer T :=
  {| items := []; maxSize := maxSize b |}.

Definition length (b : BoundedBuffer T) : Z := Z.of_nat (List.length (items b)).
Definition capacity (b : BoundedBuffer T) : Z := maxSize b.
End Buffer.
End BoundedBuffer.

Record RateLimiter := {
  timestamps : list Z;
  maxRequests : Z;
  windowMs : Z
}.

Module RateLimiter.
Definition new (maxRequestsPerSecond : Z) : RateLimiter :=
  {| timestamps := []; maxRequests := maxRequestsPerSecond; windowMs := 1000 |}.

(** Reads the clock, forgets the timestamps that left the window and
    answers whether one more request fits. *)
Definition canProceed (rl : RateLimiter) (e : Env) : bool * RateLimiter * Env :=
  let (now, e1) := Date_now e in
  let windowStart := now - windowMs rl in
  let rl1 := {| timestamps := filter (fun t => t >? windowStart) (timestamps rl);
                maxRequests := maxRequests rl; windowMs := windowMs rl |} in
  (Z.of_nat (length (timestamps rl1)) <? maxRequests rl1, rl1, e1).

Definition record (rl : RateLimiter) (e : Env) : bool * RateLimiter * Env :=
  let '(ok, rl1, e1) := canProceed rl e in
  if negb ok then (false, rl1, e1)
  else
    let (now, e2) := Date_now e1 in
    (true,
     {| timestamps := timestamps rl1 ++ [now];
        maxRequests := maxRequests rl1; windowMs := windowMs rl1 |},
     e2).

Definition reset (rl : RateLimiter) : RateLimiter :=
  {| timestamps := []; maxRequests := maxRequests rl; windowMs := windowMs rl |}.
End RateLimiter.

(* ================================================================== *)
(** * chat/message.ts: the message record *)
(* ================================================================== *)

Module MessageType.
Inductive t := text | join | leave | nick | action.

Definition eqb (a b : t) : bool :=
  match a, b with
  | text, text | join, join | leave, leave | nick, nick | action, action => true
  | _, _ => false
  end.

(** The string that stands for the type at run time. *)
Definition name (ty : t) : jsstring :=
  match ty with
  | text => js "text"
  | join => js "join"
  | leave => js "leave"
  | nick => js "nick"
  | action => js "action"
  end.

Definition ofName (s : jsstring) : option t :=
  if jseqb s (js "text") then Some text
  else if jseqb s (js "join") then Some join
  else if jseqb s (js "leave") then Some leave
  else if jseqb s (js "nick") then Some nick
  else if jseqb s (js "action") then Some action
  else None.
End MessageType.

Module ChatMessage.
Record t := {
  id : jsstring;
  timestamp : Z;
  room : jsstring;
  nick : jsstring;
  fingerprint : jsstring;
  type : MessageType.t;
  content : jsstring;
  oldNick : option jsstring
}.
End ChatMessage.

(** The object literal evaluates [uuidv4()] and then [Date.now()]. *)
Definition createMessage (type : MessageType.t) (room nick fingerprint content : jsstring)
    (oldNick : option jsstring) (e : Env) : ChatMessage.t * Env :=
  let (id, e1) := uuidv4 e in
  let (timestamp, e2) := Date_now e1 in
  ({| ChatMessage.id := id;
      ChatMessage.timestamp := timestamp;
      ChatMessage.room := room;
      ChatMessage.nick := nick;
      ChatMessage.fingerprint := fingerprint;
      ChatMessage.type := type;
      ChatMessage.content := content;
      ChatMessage.oldNick := oldNick |}, e2).

Definition createTextMessage (room nick fingerprint content : jsstring) :=
  createMessage MessageType.text room nick fingerprint content None.

Definition createJoinMessage (room nick fingerprint : jsstring) :=
  createMessage MessageType.join room nick fingerprint
    (nick ++ js " has joined the room") None.

Definition createLeaveMessage (room nick fingerprint : jsstring) :=
  createMessage MessageType.leave room nick fingerprint
    (nick ++ js " has left the room") None.

Definition createNickChangeMessage (room oldNick newNick fingerprint : jsstring) :=
  createMessage MessageType.nick room newNick fingerprint
    (oldNick ++ js " is now known as " ++ newNick) (Some oldNick).

Definition createActionMessage (room nick fingerprint action : jsstring) :=
  createMessage MessageType.action room nick fingerprint action None.

(* ================================================================== *)
(** * The platform's text codecs: TextEncoder, TextDecoder, JSON *)
(* ================================================================== *)

(** ** UTF-16 to UTF-8 and back (WHATWG Encoding) *)

Definition isHighSurrogate (c : N) : bool := ((55296 <=? c) && (c <=? 56319))%N.
Definition isLowSurrogate (c : N) : bool := ((56320 <=? c) && (c <=? 57343))%N.

(** The scalar values of a string; a surrogate that has no partner
    becomes U+FFFD. *)
Fixpoint toScalarValues (s : jsstring) : list N :=
  match s with
  | [] => []
  | c :: rest =>
      if isHighSurrogate c then
        match rest with
        | d :: rest' =>
            if isLowSurrogate d
            then (65536 + (c - 55296) * 1024 + (d - 56320))%N :: toScalarValues rest'
            else 65533%N :: toScalarValues rest
        | [] => [65533%N]
        end
      else if isLowSurrogate c then 65533%N :: toScalarValues rest
      else c :: toScalarValues rest
  end.

Definition utf8Bytes (cp : N) : list N :=
  (if cp <? 128 then [cp]
   else if cp <? 2048 then [192 + cp / 64; 128 + cp mod 64]
   else if cp <? 65536 then [224 + cp / 4096; 128 + (cp / 64) mod 64; 128 + cp mod 64]
   else [240 + cp / 262144; 128 + (cp / 4096) mod 64;
         128 + (cp / 64) mod 64; 128 + cp mod 64])%N.

(** [new TextEncoder().encode(s)] *)
Definition TextEncoder_encode (s : jsstring) : list N :=
  flat_map utf8Bytes (toScalarValues s).

(** The UTF-8 decoder: [cp] is the code point being assembled,
    [remaining] the number of continuation bytes still expected, [lo] and
    [hi] the bounds of the next continuation byte.  A byte that cannot
    continue a sequence yields U+FFFD and is then read as the start of a
    new sequence. *)
Fixpoint utf8Decode (cp : N) (remaining : nat) (lo hi : N) (bytes : list N) : list N :=
  match bytes with
  | [] => match remaining with O => [] | S _ => [65533%N] end
  | b :: rest =>
      let start :=
        (if b <=? 127 then b :: utf8Decode 0 0 128 191 rest
         else if (194 <=? b) && (b <=? 223) then utf8Decode (b mod 32) 1 128 191 rest
         else if (224 <=? b) && (b <=? 239) then
           utf8Decode (b mod 16) 2 (if b =? 224 then 160 else 128)
                      (if b =? 237 then 159 else 191) rest
         else if (240 <=? b) && (b <=? 244) then
           utf8Decode (b mod 8) 3 (if b =? 240 then 144 else 128)
                      (if b =? 244 then 143 else 191) rest
         else 65533 :: utf8Decode 0 0 128 191 rest)%N in
      match remaining with
      | O => start
      | S r =>
          if ((b <? lo) || (hi <? b))%N then 65533%N :: start
          else
            let cp' := (cp * 64 + b mod 64)%N in
            match r with
            | O => cp' :: utf8Decode 0 0 128 191 rest
            | S _ => utf8Decode cp' r 128 191 rest
            end
      end
  end.

(** A leading byte order mark is not part of the text. *)
Definition stripBOM (cps : list N) : list N :=
  match cps with
  | c :: rest => if (c =? 65279)%N then rest else cps
  | [] => []
  end.

Definition utf16Units (cp : N) : list N :=
  (if cp <? 65536 then [cp]
   else [55296 + (cp - 65536) / 1024; 56320 + (cp - 65536) mod 1024])%N.

(** [new TextDecoder().decode(data)] *)
Definition TextDecoder_decode (data : list N) : jsstring :=
  flat_map utf16Units (stripBOM (utf8Decode 0 0 128 191 data)).

(** ** JSON values *)

(** Numbers are kept as exact decimals [mantissa * 10 ^ exponent], in the
    form where a negative exponent goes with a mantissa that 10 does not
    divide and no exponent is positive; they are not rounded to binary64.
    An object is the list of its properties in creation order. *)
#[warnings="-register-all"]
Inductive JsValue :=
| JUndefined
| JNull
| JBool (b : bool)
| JNumber (mantissa exponent : Z)
| JString (s : jsstring)
| JArray (elements : list JsValue)
| JObject (properties : list (jsstring * JsValue)).

Definition JInteger (n : Z) : JsValue := JNumber n 0.

Fixpoint stripTenths (fuel : nat) (m e : Z) : Z * Z :=
  match fuel with
  | O => (m, e)
  | S f => if (e <? 0) && (m mod 10 =? 0) then stripTenths f (m / 10) (e + 1) else (m, e)
  end.

Definition mkNumber (m e : Z) : JsValue :=
  if m =? 0 then JNumber 0 0
  else if 0 <=? e then JNumber (m * 10 ^ e) 0
  else let (m', e') := stripTenths (Z.to_nat (- e)) m e in JNumber m' e'.

(** ** JSON.stringify *)

Definition hexDigit (d : N) : N := (if d <? 10 then 48 + d else 87 + d)%N.

(** The six units of a [\uXXXX] escape. *)
Definition unicodeEscape (c : N) : jsstring :=
  [92; 117; hexDigit (c / 4096); hexDigit ((c / 256) mod 16);
   hexDigit ((c / 16) mod 16); hexDigit (c mod 16)]%N.

Definition escapeUnit (c : N) : jsstring :=
  (if c =? 8 then [92; 98]
   else if c =? 9 then [92; 116]
   else if c =? 10 then [92; 110]
   else if c =? 12 then [92; 102]
   else if c =? 13 then [92; 114]
   else if c =? 34 then [92; 34]
   else if c =? 92 then [92; 92]
   else if c <? 32 then unicodeEscape c
   else [c])%N.

(** The body of a quoted string: control characters, the quote and the
    backslash are escaped, and so is every surrogate that has no partner. *)
Fixpoint quoteBody (s : jsstring) : jsstring :=
  match s with
  | [] => []
  | c :: rest =>
      if isHighSurrogate c then
        match rest with
        | d :: rest' =>
            if isLowSurrogate d then c :: d :: quoteBody rest'
            else unicodeEscape c ++ quoteBody rest
        | [] => unicodeEscape c
        end
      else if isLowSurrogate c then unicodeEscape c ++ quoteBody rest
      else escapeUnit c ++ quoteBody rest
  end.

Definition QuoteJSONString (s : jsstring) : jsstring :=
  dquote ++ quoteBody s ++ dquote.

Definition digitsOf (n : N) : jsstring :=
  js (NilEmpty.string_of_uint (N.to_uint n)).

Fixpoint dropZeros (s : jsstring) : jsstring :=
  match s with
  | c :: s' => if (c =? 48)%N then dropZeros s' else s
  | [] => []
  end.

(** [Number::toString] of a positive number given by its decimal digits
    [ds] (a nonzero integer) and exponent [e]: with [k] significant digits
    and the decimal point after the [n]-th of them. *)
Definition positiveToString (ds : jsstring) (e : Z) : jsstring :=
  let s := rev (dropZeros (rev ds)) in
  let k := jslength s in
  let n := jslength ds + e in
  if (k <=? n) && (n <=? 21) then s ++ repeat 48%N (Z.to_nat (n - k))
  else if (0 <? n) && (n <=? 21) then
    firstn (Z.to_nat n) s ++ js "." ++ skipn (Z.to_nat n) s
  else if (-6 <? n) && (n <=? 0) then
    js "0." ++ repeat 48%N (Z.to_nat (- n)) ++ s
  else
    let ex := (if n - 1 <? 0 then js "-" else js "+") ++ digitsOf (Z.to_N (Z.abs (n - 1))) in
    match s with
    | [d] => [d] ++ js "e" ++ ex
    | d :: more => [d] ++ js "." ++ more ++ js "e" ++ ex
    | [] => []
    end.

Definition JsNumber_toString (m e : Z) : jsstring :=
  if m =? 0 then js "0"
  else (if m <? 0 then js "-" else []) ++ positiveToString (digitsOf (Z.to_N (Z.abs m))) e.

(** [JSON.stringify(v)] without replacer or indentation; [None] stands for
    the result [undefined].  A property whose value is [undefined] is left
    out, an array element that is [undefined] is written [null]. *)
Fixpoint JSON_stringify (v : JsValue) : option jsstring :=
  match v with
  | JUndefined => None
  | JNull => Some (js "null")
  | JBool true => Some (js "true")
  | JBool false => Some (js "false")
  | JNumber m e => Some (JsNumber_toString m e)
  | JString s => Some (QuoteJSONString s)
  | JArray elements =>
      let parts :=
        (fix each (l : list JsValue) : list jsstring :=
           match l with
           | [] => []
           | x :: l' =>
               match JSON_stringify x with
               | Some t => t
               | None => js "null"
               end :: each l'
           end) elements in
      Some (js "[" ++ join (js ",") parts ++ js "]")
  | JObject properties =>
      let parts :=
        (fix each (l : list (jsstring * JsValue)) : list jsstring :=
           match l with
           | [] => []
           | (k, x) :: l' =>
               match JSON_stringify x with
               | Some t => (QuoteJSONString k ++ js ":" ++ t) :: each l'
               | None => each l'
               end
           end) properties in
      Some (js "{" ++ join (js ",") parts ++ js "}")
  end.

(** ** JSON.parse *)

Definition isJsonWhiteSpace (c : N) : bool :=
  ((c =? 9) || (c =? 10) || (c =? 13) || (c =? 32))%N.

Fixpoint skipWs (s : jsstring) : jsstring :=
  match s with
  | c :: s' => if isJsonWhiteSpace c then skipWs s' else s
  | [] => []
  end.

Definition isDigit (c : N) : bool := ((48 <=? c) && (c <=? 57))%N.

(** The longest run of digits in front of [s], read as a number from the
    start value [acc], the number of digits read, and what follows them. *)
Fixpoint readDigits (acc : N) (count : nat) (s : jsstring) : N * nat * jsstring :=
  match s with
  | c :: s' =>
      if isDigit c then readDigits (acc * 10 + (c - 48))%N (S count) s'
      else (acc, count, s)
  | [] => (acc, count, [])
  end.

Definition hexValue (c : N) : option N :=
  (if (48 <=? c) && (c <=? 57) then Some (c - 48)
   else if (97 <=? c) && (c <=? 102) then Some (c - 87)
   else if (65 <=? c) && (c <=? 70) then Some (c - 55)
   else None)%N.

Definition hex4 (a b c d : N) : option N :=
  match hexValue a, hexValue b, hexValue c, hexValue d with
  | Some x, Some y, Some z, Some w => Some (((x * 16 + y) * 16 + z) * 16 + w)%N
  | _, _, _, _ => None
  end.

Definition simpleEscape (c : N) : option N :=
  (if c =? 34 then Some 34
   else if c =? 92 then Some 92
   else if c =? 47 then Some 47
   else if c =? 98 then Some 8
   else if c =? 102 then Some 12
   else if c =? 110 then Some 10
   else if c =? 114 then Some 13
   else if c =? 116 then Some 9
   else None)%N.

(** A string after its opening quote: its value and what follows the
    closing quote. *)
Fixpoint parseStringBody (s : jsstring) : option (jsstring * jsstring) :=
  match s with
  | [] => None
  | c :: s1 =>
      if (c =? 34)%N then Some ([], s1)
      else if (c =? 92)%N then
        match s1 with
        | [] => None
        | e :: s2 =>
            if (e =? 117)%N then
              match s2 with
              | h1 :: h2 :: h3 :: h4 :: s3 =>
                  match hex4 h1 h2 h3 h4 with
                  | Some u =>
                      match parseStringBody s3 with
                      | Some (v, r) => Some (u :: v, r)
                      | None => None
                      end
                  | None => None
                  end
              | _ => None
              end
            else
              match simpleEscape e with
              | Some u =>
                  match parseStringBody s2 with
                  | Some (v, r) => Some (u :: v, r)
                  | None => None
                  end
              | None => None
              end
        end
      else if (c <? 32)%N then None
      else
        match parseStringBody s1 with
        | Some (v, r) => Some (c :: v, r)
        | None => None
        end
  end.

(** The digits of an unsigned number: an integer part without a leading
    zero, then an optional fraction and an optional exponent. *)
Definition parseUnsigned (s : jsstring) : option (Z * Z * jsstring) :=
  match s with
  | [] => None
  | c :: s1 =>
      if negb (isDigit c) then None
      else
        let '(int, _, s2) :=
          if (c =? 48)%N then (0%N, 1%nat, s1) else readDigits 0 0 s in
        let afterFraction :=
          match s2 with
          | d :: s3 =>
              if (d =? 46)%N then
                match readDigits int 0 s3 with
                | (_, O, _) => None
                | (m, n, s4) => Some (m, n, s4)
                end
              else Some (int, O, s2)
          | [] => Some (int, O, s2)
          end in
        match afterFraction with
        | None => None
        | Some (m, n, s4) =>
            let frac := Z.of_nat n in
            match s4 with
            | x :: s5 =>
                if ((x =? 101) || (x =? 69))%N then
                  let '(negative, s6) :=
                    match s5 with
                    | g :: s5' =>
                        if (g =? 45)%N then (true, s5')
                        else if (g =? 43)%N then (false, s5')
                        else (false, s5)
                    | [] => (false, s5)
                    end in
                  match readDigits 0 0 s6 with
                  | (_, O, _) => None
                  | (ex, _, s7) =>
                      Some (Z.of_N m,
                            (if negative then - Z.of_N ex else Z.of_N ex) - frac, s7)
                  end
                else Some (Z.of_N m, - frac, s4)
            | [] => Some (Z.of_N m, - frac, s4)
            end
        end
  end.

Definition parseNumber (s : jsstring) : option (JsValue * jsstring) :=
  match s with
  | c :: s1 =>
      if (c =? 45)%N then
        match parseUnsigned s1 with
        | Some (m, e, r) => Some (mkNumber (- m) e, r)
        | None => None
        end
      else
        match parseUnsigned s with
        | Some (m, e, r) => Some (mkNumber m e, r)
        | None => None
        end
  | [] => None
  end.

(** A value at the front of [s] and what follows it.  [fuel] bounds the
    number of nested calls; each call is made after at least one more unit
    has been read, so the length of the text, plus one, is always enough. *)
Fixpoint parseValue (fuel : nat) (s : jsstring) {struct fuel}
  : option (JsValue * jsstring) :=
  match fuel with
  | O => None
  | S f =>
      match s with
      | [] => None
      | c :: s1 =>
          if (c =? 123)%N then
            match skipWs s1 with
            | d :: s2 => if (d =? 125)%N then Some (JObject [], s2)
                         else parseMembers f [] (d :: s2)
            | [] => None
            end
          else if (c =? 91)%N then
            match skipWs s1 with
            | d :: s2 => if (d =? 93)%N then Some (JArray [], s2)
                         else parseElements f [] (d :: s2)
            | [] => None
            end
          else if (c =? 34)%N then
            match parseStringBody s1 with
            | Some (v, r) => Some (JString v, r)
            | None => None
            end
          else if startsWith (js "null") s then Some (JNull, skipn 4 s)
          else if startsWith (js "true") s then Some (JBool true, skipn 4 s)
          else if startsWith (js "false") s then Some (JBool false, skipn 5 s)
          else parseNumber s
      end
  end

(** The members of an object from the start of a member on; [acc] holds
    the properties read so far.  A repeated key gets the later value. *)
with parseMembers (fuel : nat) (acc : list (jsstring * JsValue)) (s : jsstring)
  {struct fuel} : option (JsValue * jsstring) :=
  match fuel with
  | O => None
  | S f =>
      match s with
      | q :: s1 =>
          if negb (q =? 34)%N then None
          else
            match parseStringBody s1 with
            | None => None
            | Some (k, s2) =>
                match skipWs s2 with
                | colon :: s3 =>
                    if negb (colon =? 58)%N then None
                    else
                      match parseValue f (skipWs s3) with
                      | None => None
                      | Some (v, s4) =>
                          let acc' := JsMap.set k v acc in
                          match skipWs s4 with
                          | d :: s5 =>
                              if (d =? 44)%N then parseMembers f acc' (skipWs s5)
                              else if (d =? 125)%N then Some (JObject acc', s5)
                              else None
                          | [] => None
                          end
                      end
                | [] => None
                end
            end
      | [] => None
      end
  end

(** The elements of an array from the start of an element on. *)
with parseElements (fuel : nat) (acc : list JsValue) (s : jsstring)
  {struct fuel} : option (JsValue * jsstring) :=
  match fuel with
  | O => None
  | S f =>
      match parseValue f s with
      | None => None
      | Some (v, s1) =>
          match skipWs s1 with
          | d :: s2 =>
              if (d =? 44)%N then parseElements f (acc ++ [v]) (skipWs s2)
              else if (d =? 93)%N then Some (JArray (acc ++ [v]), s2)
              else None
          | [] => None
          end
      end
  end.

(** [JSON.parse(text)]: the value, or the [SyntaxError] thrown. *)
Definition JSON_parse (text : jsstring) : JsError + JsValue :=
  match parseValue (S (length text)) (skipWs text) with
  | Some (v, rest) =>
      match skipWs rest with
      | [] => inr v
      | _ :: _ => inl (ErrorObject (js "Unexpected non-whitespace character after JSON"))
      end
  | None => inl (ErrorObject (js "Unexpected token in JSON"))
  end.

(* ================================================================== *)
(** * chat/message.ts: encoding and size *)
(* ================================================================== *)

(** The object that [createMessage] builds: all eight properties, in the
    order of the literal; [oldNick] holds [undefined] when there is none. *)
Definition messageObject (m : ChatMessage.t) : JsValue :=
  JObject
    [ (js "id", JString (ChatMessage.id m));
      (js "timestamp", JInteger (ChatMessage.timestamp m));
      (js "room", JString (ChatMessage.room m));
      (js "nick", JString (ChatMessage.nick m));
      (js "fingerprint", JString (ChatMessage.fingerprint m));
      (js "type", JString (MessageType.name (ChatMessage.type m)));
      (js "content", JString (ChatMessage.content m));
      (js "oldNick",
       match ChatMessage.oldNick m with
       | Some o => JString o
       | None => JUndefined
       end) ].

Definition encodeMessage (message : ChatMessage.t) : list N :=
  match JSON_stringify (messageObject message) with
  | Some text => TextEncoder_encode text
  | None => TextEncoder_encode []
  end.

(** The result has the static type [ChatMessage] but is whatever value
    the text denotes: nothing is checked. *)
Definition decodeMessage (data : list N) : JsError + JsValue :=
  JSON_parse (TextDecoder_decode data).

Definition isMessageSizeValid (content : jsstring) (maxSize : Z) : bool :=
  Z.of_nat (length (TextEncoder_encode content)) <=? maxSize.

(** Reading a value through the [ChatMessage] interface: the property
    [o.p], which is [undefined] when [o] has no such property. *)
Definition getProperty (p : jsstring) (o : JsValue) : JsValue :=
  match o with
  | JObject properties =>
      match JsMap.get p properties with
      | Some v => v
      | None => JUndefined
      end
  | _ => JUndefined
  end.

(** The message that a value is, when its properties have the types that
    the interface declares. *)
Definition asChatMessage (o : JsValue) : option ChatMessage.t :=
  match getProperty (js "id") o, getProperty (js "timestamp") o,
        getProperty (js "room") o, getProperty (js "nick") o,
        getProperty (js "fingerprint") o, getProperty (js "type") o,
        getProperty (js "content") o with
  | JString i, JNumber t 0, JString r, JString n, JString f, JString ty, JString c =>
      match MessageType.ofName ty, getProperty (js "oldNick") o with
      | Some ty', JUndefined =>
          Some {| ChatMessage.id := i; ChatMessage.timestamp := t;
                  ChatMessage.room := r; ChatMessage.nick := n;
                  ChatMessage.fingerprint := f; ChatMessage.type := ty';
                  ChatMessage.content := c; ChatMessage.oldNick := None |}
      | Some ty', JString old =>
          Some {| ChatMessage.id := i; ChatMessage.timestamp := t;
                  ChatMessage.room := r; ChatMessage.nick := n;
                  ChatMessage.fingerprint := f; ChatMessage.type := ty';
                  ChatMessage.content := c; ChatMessage.oldNick := Some old |}
      | _, _ => None
      end
  | _, _, _, _, _, _, _ => None
  end.

(* ================================================================== *)
(** * The shared objects and the monad of methods *)
(* ================================================================== *)

Module UserInfo.
Record t := {
  sessionId : jsstring;
  nick : jsstring;
  fingerprint : jsstring;
  room : jsstring;
  joinedAt : Z
}.
End UserInfo.

(** config.ts, the chat settings (the server settings play no part). *)
Record Config := {
  defaultRoom : jsstring;
  maxMessageSize : Z;
  maxMessagesInMemory : Z;
  rateLimit : Z;
  maxNickLength : Z;
  maxRoomNameLength : Z
}.

(** The five events of [ChatStateEvents], and an event with its arguments. *)
Inductive EventName :=
| ev_message | ev_user_join | ev_user_leave | ev_user_nick | ev_user_room.

Inductive ChatStateEvent :=
| EvMessage (message : ChatMessage.t)
| EvUserJoin (user : UserInfo.t)
| EvUserLeave (user : UserInfo.t)
| EvUserNick (user : UserInfo.t) (oldNick : jsstring)
| EvUserRoom (user : UserInfo.t) (oldRoom : jsstring).

Definition eventName (ev : ChatStateEvent) : EventName :=
  match ev with
  | EvMessage _ => ev_message
  | EvUserJoin _ => ev_user_join
  | EvUserLeave _ => ev_user_leave
  | EvUserNick _ _ => ev_user_nick
  | EvUserRoom _ _ => ev_user_room
  end.

Definition EventName_eqb (a b : EventName) : bool :=
  match a, b with
  | ev_message, ev_message | ev_user_join, ev_user_join
  | ev_user_leave, ev_user_leave | ev_user_nick, ev_user_nick
  | ev_user_room, ev_user_room => true
  | _, _ => false
  end.

(** A listener registered on the directory: one of the five closures of
    [UserSession.setupStateListeners], known by its event and by the
    session that made it (an index into the sessions of the world).  The
    terminal interface, which is not part of this development, registers
    one more listener per session on the same directory. *)
Record Listener := {
  event : EventName;
  owner : nat
}.

(** chat/state.ts: the directory, with the listeners of the [EventEmitter]
    that it extends, in registration order. *)
Record ChatState := {
  users : JsMap.t UserInfo.t;
  roomMessages : JsMap.t (BoundedBuffer ChatMessage.t);
  maxMessagesPerRoom : Z;
  listeners : list Listener
}.

(** The only handler ever subscribed is the closure
    [(msg) => this.handlePubsubMessage(msg)] of a session. *)
Inductive MessageHandler :=
| SessionHandler (session : nat).

(** network/pubsub.ts: one wrapper per session around the shared overlay. *)
Record ChatPubSub := {
  subscriptions : JsMap.t MessageHandler
}.

Record EphemeralIdentity := {
  publicKeyBytes : list N
}.

(** chat/session.ts.  The fields [p2pNode] and [chatState] refer to the
    overlay and the directory that all sessions share; the world holds one
    of each.  The callbacks are the user interface of the session. *)
Record UserSession := {
  id : jsstring;
  config : Config;
  identity : EphemeralIdentity;
  fingerprint : jsstring;
  pubsub : ChatPubSub;
  rateLimiter : RateLimiter;
  _nick : jsstring;
  _room : jsstring;
  _isConnected : bool
}.

(** A call of one of the [SessionCallbacks]. *)
Inductive UiEvent :=
| onMessage (message : ChatMessage.t)
| onSystemMessage (message : jsstring)
| onUserListUpdate (users : list UserInfo.t)
| onRoomChange (room : jsstring)
| onDisconnect
| onClearMessages.

(** A call made to the overlay's pub/sub service. *)
Inductive OverlayCall :=
| addEventListener (session : nat)
| removeEventListener (session : nat)
| subscribe (topic : jsstring)
| unsubscribe (topic : jsstring)
| publish (topic : jsstring) (data : list N).

(** Everything that methods can read or change: the directory, the
    sessions (a session is known by its index), the callbacks invoked so
    far with the session they belong to, the calls made to the overlay,
    and the platform's answers. *)
Record World := {
  chatState : ChatState;
  sessions : list UserSession;
  ui : list (nat * UiEvent);
  overlay : list OverlayCall;
  env : Env
}.

(** How a computation ends. *)
Inductive Completion (A : Type) :=
| Normal (a : A)
| Throw (e : JsError).
Arguments Normal {A} a.
Arguments Throw {A} e.

Definition M (A : Type) := World -> Completion A * World.

Definition ret {A} (a : A) : M A := fun w => (Normal a, w).

Definition bind {A B} (m : M A) (k : A -> M B) : M B :=
  fun w =>
    match m w with
    | (Normal a, w1) => k a w1
    | (Throw e, w1) => (Throw e, w1)
    end.

Definition throw {A} (e : JsError) : M A := fun w => (Throw e, w).

(** [try { body } catch (err) { handler }]: what [body] did before it threw
    stays done. *)
Definition try_catch {A} (body : M A) (handler : JsError -> M A) : M A :=
  fun w =>
    match body w with
    | (Normal a, w1) => (Normal a, w1)
    | (Throw e, w1) => handler e w1
    end.

Declare Scope m_scope.
Delimit Scope m_scope with M.
Notation "x <- m ;; k" := (bind m (fun x => k))
  (at level 61, m at next level, right associativity) : m_scope.
Notation "m ;; k" := (bind m (fun _ => k))
  (at level 61, right associativity) : m_scope.
Local Open Scope m_scope.

Fixpoint forEach {A} (l : list A) (f : A -> M unit) : M unit :=
  match l with
  | [] => ret tt
  | x :: l' => f x ;; forEach l' f
  end.

Definition when (b : bool) (m : M unit) : M unit :=
  if b then m else ret tt.

(** The world after a computation, and its result. *)
Definition exec {A} (m : M A) (w : World) : World := snd (m w).
Definition result {A} (m : M A) (w : World) : Completion A := fst (m w).

(** ** Access to the parts of the world *)

Definition getChatState : M ChatState := fun w => (Normal (chatState w), w).

Definition setChatState (d : ChatState) : M unit :=
  fun w => (Normal tt,
            {| chatState := d; sessions := sessions w; ui := ui w;
               overlay := overlay w; env := env w |}).

Fixpoint updateAt {A} (n : nat) (x : A) (l : list A) : list A :=
  match l, n with
  | [], _ => []
  | _ :: l', O => x :: l'
  | y :: l', S n' => y :: updateAt n' x l'
  end.

(** Reading a session that does not exist is a [TypeError]; the methods
    below are only ever given sessions that [UserSession.new] returned. *)
Definition getSession (h : nat) : M UserSession :=
  fun w =>
    match nth_error (sessions w) h with
    | Some s => (Normal s, w)
    | None => (Throw (ErrorObject (js "Cannot read properties of undefined")), w)
    end.

Definition setSession (h : nat) (s : UserSession) : M unit :=
  fun w => (Normal tt,
            {| chatState := chatState w; sessions := updateAt h s (sessions w);
               ui := ui w; overlay := overlay w; env := env w |}).

Definition allocSession (s : UserSession) : M unit :=
  fun w => (Normal tt,
            {| chatState := chatState w; sessions := sessions w ++ [s];
               ui := ui w; overlay := overlay w; env := env w |}).

Definition nextSession : M nat := fun w => (Normal (length (sessions w)), w).

(** [this.callbacks.<ev>] of session [h]. *)
Definition callback (h : nat) (ev : UiEvent) : M unit :=
  fun w => (Normal tt,
            {| chatState := chatState w; sessions := sessions w;
               ui := ui w ++ [(h, ev)]; overlay := overlay w; env := env w |}).

Definition overlayCall (c : OverlayCall) : M unit :=
  fun w => (Normal tt,
            {| chatState := chatState w; sessions := sessions w; ui := ui w;
               overlay := overlay w ++ [c]; env := env w |}).

Definition askEnv {A} (f : Env -> A * Env) : M A :=
  fun w =>
    let (a, e) := f (env w) in
    (Normal a,
     {| chatState := chatState w; sessions := sessions w; ui := ui w;
        overlay := overlay w; env := e |}).

(** ** Field updates *)

Definition with_users (us : JsMap.t UserInfo.t) (d : ChatState) : ChatState :=
  {| users := us; roomMessages := roomMessages d;
     maxMessagesPerRoom := maxMessagesPerRoom d; listeners := listeners d |}.

Definition with_roomMessages (rm : JsMap.t (BoundedBuffer ChatMessage.t))
    (d : ChatState) : ChatState :=
  {| users := users d; roomMessages := rm;
     maxMessagesPerRoom := maxMessagesPerRoom d; listeners := listeners d |}.

Definition with_listeners (ls : list Listener) (d : ChatState) : ChatState :=
  {| users := users d; roomMessages := roomMessages d;
     maxMessagesPerRoom := maxMessagesPerRoom d; listeners := ls |}.

Definition with_nick (n : jsstring) (s : UserSession) : UserSession :=
  {| id := id s; config := config s; identity := identity s;
     fingerprint := fingerprint s; pubsub := pubsub s;
     rateLimiter := rateLimiter s; _nick := n; _room := _room s;
     _isConnected := _isConnected s |}.

Definition with_room (r : jsstring) (s : UserSession) : UserSession :=
  {| id := id s; config := config s; identity := identity s;
     fingerprint := fingerprint s; pubsub := pubsub s;
     rateLimiter := rateLimiter s; _nick := _nick s; _room := r;
     _isConnected := _isConnected s |}.

Definition with_isConnected (b : bool) (s : UserSession) : UserSession :=
  {| id := id s; config := config s; identity := identity s;
     fingerprint := fingerprint s; pubsub := pubsub s;
     rateLimiter := rateLimiter s; _nick := _nick s; _room := _room s;
     _isConnected := b |}.

Definition with_rateLimiter (rl : RateLimiter) (s : UserSession) : UserSession :=
  {| id := id s; config := config s; identity := identity s;
     fingerprint := fingerprint s; pubsub := pubsub s;
     rateLimiter := rl; _nick := _nick s; _room := _room s;
     _isConnected := _isConnected s |}.

Definition with_pubsub (p : ChatPubSub) (s : UserSession) : UserSession :=
  {| id := id s; config := config s; identity := identity s;
     fingerprint := fingerprint s; pubsub := p;
     rateLimiter := rateLimiter s; _nick := _nick s; _room := _room s;
     _isConnected := _isConnected s |}.

Definition modifySession (h : nat) (f : UserSession -> UserSession) : M unit :=
  s <- getSession h ;; setSession h (f s).

Definition modifyChatState (f : ChatState -> ChatState) : M unit :=
  d <- getChatState ;; setChatState (f d).

(* ================================================================== *)
(** * chat/state.ts: the chat directory *)
(* ================================================================== *)

Module ChatState.

Definition new (maxMessagesPerRoom : Z) : ChatState :=
  {| users := JsMap.empty; roomMessages := JsMap.empty;
     maxMessagesPerRoom := maxMessagesPerRoom; listeners := [] |}.

(** *** Readers *)

Definition getUser (sessionId : jsstring) (d : ChatState) : option UserInfo.t :=
  JsMap.get sessionId (users d).

Definition getUserByFingerprint (fingerprint : jsstring) (d : ChatState)
  : option UserInfo.t :=
  find (fun user => jseqb (UserInfo.fingerprint user) fingerprint)
       (JsMap.values (users d)).

Definition getUsersInRoom (room : jsstring) (d : ChatState) : list UserInfo.t :=
  filter (fun user => jseqb (UserInfo.room user) room) (JsMap.values (users d)).

(** [rooms.add(r)] on a [Set], which keeps the first occurrence. *)
Definition setAdd (r : jsstring) (rooms : list jsstring) : list jsstring :=
  if existsb (jseqb r) rooms then rooms else rooms ++ [r].

Definition getKnownRooms (d : ChatState) : list jsstring :=
  let rooms := fold_left (fun rooms user => setAdd (UserInfo.room user) rooms)
                         (JsMap.values (users d)) [] in
  fold_left (fun rooms room => setAdd room rooms) (JsMap.keys (roomMessages d)) rooms.

Definition getUserCount (d : ChatState) : Z := JsMap.size (users d).

(** [count ? buffer.getLast(count) : buffer.getAll()]: a count of zero
    counts as no count. *)
Definition getRecentMessages (room : jsstring) (count : option Z) (d : ChatState)
  : list ChatMessage.t :=
  match JsMap.get room (roomMessages d) with
  | None => []
  | Some buffer =>
      match count with
      | Some c => if c =? 0 then BoundedBuffer.getAll buffer
                  else BoundedBuffer.getLast c buffer
      | None => BoundedBuffer.getAll buffer
      end
  end.

Section Platform.
Context `{JsPlatform}.

(** The loop over [users.values()], which returns at the first user
    that holds the nick in the room and is not the excluded one.  The
    test [excludeSessionId && ...] excludes nobody when the argument
    is absent or the empty string. *)
Fixpoint isNickTakenIn (us : list UserInfo.t) (nick room : jsstring)
    (excludeSessionId : option jsstring) : bool :=
  match us with
  | [] => false
  | user :: rest =>
      if jseqb (UserInfo.room user) room
         && jseqb (toLowerCase (UserInfo.nick user)) (toLowerCase nick)
      then
        if match excludeSessionId with
           | Some s => truthy s && jseqb (UserInfo.sessionId user) s
           | None => false
           end
        then isNickTakenIn rest nick room excludeSessionId
        else true
      else isNickTakenIn rest nick room excludeSessionId
  end.

Definition isNickTaken (nick room : jsstring) (excludeSessionId : option jsstring)
    (d : ChatState) : bool :=
  isNickTakenIn (JsMap.values (users d)) nick room excludeSessionId.
End Platform.

(** *** Methods that emit *)

Section Emitter.
(** What calling a registered listener does; the listeners are
    closures of the sessions, given in [UserSession.stateListener]. *)
Variable call : Listener -> ChatStateEvent -> M unit.

(** [this.on(name, listener)] *)
Definition on (name : EventName) (owner : nat) : M unit :=
  modifyChatState (fun d =>
    with_listeners (listeners d ++ [{| event := name; owner := owner |}]) d).

(** [this.removeAllListeners()]: every listener of every event. *)
Definition removeAllListeners : M unit :=
  modifyChatState (with_listeners []).

(** [this.emit(...)]: the listeners registered for the event at this
    moment are called in registration order. *)
Definition emit (ev : ChatStateEvent) : M unit :=
  d <- getChatState ;;
  forEach (filter (fun l => EventName_eqb (event l) (eventName ev)) (listeners d))
          (fun l => call l ev).

Definition addUser (sessionId nick fingerprint room : jsstring) : M UserInfo.t :=
  now <- askEnv Date_now ;;
  let user := {| UserInfo.sessionId := sessionId; UserInfo.nick := nick;
                 UserInfo.fingerprint := fingerprint; UserInfo.room := room;
                 UserInfo.joinedAt := now |} in
  modifyChatState (fun d => with_users (JsMap.set sessionId user (users d)) d) ;;
  emit (EvUserJoin user) ;;
  ret user.

Definition removeUser (sessionId : jsstring) : M (option UserInfo.t) :=
  d <- getChatState ;;
  match JsMap.get sessionId (users d) with
  | Some user =>
      setChatState (with_users (JsMap.delete sessionId (users d)) d) ;;
      emit (EvUserLeave user) ;;
      ret (Some user)
  | None => ret None
  end.

Definition setNick (sessionId newNick : jsstring) : M bool :=
  d <- getChatState ;;
  match JsMap.get sessionId (users d) with
  | None => ret false
  | Some user =>
      let oldNick := UserInfo.nick user in
      let user' := {| UserInfo.sessionId := UserInfo.sessionId user;
                      UserInfo.nick := newNick;
                      UserInfo.fingerprint := UserInfo.fingerprint user;
                      UserInfo.room := UserInfo.room user;
                      UserInfo.joinedAt := UserInfo.joinedAt user |} in
      setChatState (with_users (JsMap.set sessionId user' (users d)) d) ;;
      emit (EvUserNick user' oldNick) ;;
      ret true
  end.

Definition setRoom (sessionId newRoom : jsstring) : M bool :=
  d <- getChatState ;;
  match JsMap.get sessionId (users d) with
  | None => ret false
  | Some user =>
      let oldRoom := UserInfo.room user in
      let user' := {| UserInfo.sessionId := UserInfo.sessionId user;
                      UserInfo.nick := UserInfo.nick user;
                      UserInfo.fingerprint := UserInfo.fingerprint user;
                      UserInfo.room := newRoom;
                      UserInfo.joinedAt := UserInfo.joinedAt user |} in
      setChatState (with_users (JsMap.set sessionId user' (users d)) d) ;;
      emit (EvUserRoom user' oldRoom) ;;
      ret true
  end.

Definition addMessage (message : ChatMessage.t) : M unit :=
  d <- getChatState ;;
  let buffer :=
    match JsMap.get (ChatMessage.room message) (roomMessages d) with
    | Some buffer => buffer
    | None => BoundedBuffer.new ChatMessage.t (maxMessagesPerRoom d)
    end in
  setChatState
    (with_roomMessages
       (JsMap.set (ChatMessage.room message) (BoundedBuffer.push message buffer)
                  (roomMessages d)) d) ;;
  emit (EvMessage message).
End Emitter.
End ChatState.

(* ================================================================== *)
(** * network/pubsub.ts: the room router *)
(* ================================================================== *)

Module ChatPubSub.

Definition TOPIC_PREFIX : jsstring := js "/whisper/room/".

Definition getTopic (roomName : jsstring) : jsstring := TOPIC_PREFIX ++ roomName.

Definition getRoomFromTopic (topic : jsstring) : option jsstring :=
  if startsWith TOPIC_PREFIX topic then Some (skipn (length TOPIC_PREFIX) topic)
  else None.

(** [err instanceof Error ? err.message : String(err)] *)
Definition errorMessage (err : JsError) : jsstring :=
  match err with
  | ErrorObject message => message
  | Thrown text => text
  end.

(** The wrapper of session [h] is the field [pubsub] of that session. *)
Definition getSubscriptions (h : nat) : M (JsMap.t MessageHandler) :=
  s <- getSession h ;; ret (subscriptions (pubsub s)).

Definition setSubscriptions (h : nat) (subs : JsMap.t MessageHandler) : M unit :=
  modifySession h (with_pubsub {| subscriptions := subs |}).

(** The constructor registers the wrapper's listener on the overlay. *)
Definition new (h : nat) : M ChatPubSub :=
  overlayCall (addEventListener h) ;;
  ret {| subscriptions := JsMap.empty |}.

Definition joinRoom (h : nat) (roomName : jsstring) (onMessage : MessageHandler)
  : M unit :=
  let topic := getTopic roomName in
  subs <- getSubscriptions h ;;
  if JsMap.has roomName subs then ret tt
  else
    setSubscriptions h (JsMap.set roomName onMessage subs) ;;
    overlayCall (subscribe topic).

Definition leaveRoom (h : nat) (roomName : jsstring) : M unit :=
  let topic := getTopic roomName in
  subs <- getSubscriptions h ;;
  setSubscriptions h (JsMap.delete roomName subs) ;;
  overlayCall (unsubscribe topic).

(** The overlay's [publish]: the call is made, and the platform tells
    whether it throws. *)
Definition overlayPublish (topic : jsstring) (data : list N) : M unit :=
  overlayCall (publish topic data) ;;
  outcome <- askEnv nextPublishOutcome ;;
  match outcome with
  | None => ret tt
  | Some err => throw err
  end.

Definition sendMessage (h : nat) (roomName : jsstring) (message : ChatMessage.t)
  : M unit :=
  let topic := getTopic roomName in
  let data :=
    match JSON_stringify (messageObject message) with
    | Some text => TextEncoder_encode text
    | None => TextEncoder_encode []
    end in
  try_catch
    (overlayPublish topic data)
    (fun err =>
       let errorMessage := errorMessage err in
       if includes (js "NoPeersSubscribedToTopic") errorMessage
       then ret tt
       else throw err).

Definition getSubscribedRooms (h : nat) : M (list jsstring) :=
  subs <- getSubscriptions h ;; ret (JsMap.keys subs).

Definition destroy (h : nat) : M unit :=
  overlayCall (removeEventListener h) ;;
  subs <- getSubscriptions h ;;
  forEach (JsMap.keys subs) (fun roomName => overlayCall (unsubscribe (getTopic roomName))) ;;
  setSubscriptions h JsMap.empty.
End ChatPubSub.

(* ================================================================== *)
(** * crypto/fingerprint.ts *)
(* ================================================================== *)

Definition bytesToHex (bytes : list N) : jsstring :=
  flat_map (fun b => [hexDigit (b / 16); hexDigit (b mod 16)]%N) bytes.

Definition generateFingerprint `{JsPlatform} (publicKeyBytes : list N) : jsstring :=
  let hash := sha256 publicKeyBytes in
  toUpperCase (bytesToHex (firstn 4 hash)).

(* ================================================================== *)
(** * chat/session.ts: the session *)
(* ================================================================== *)

Module UserSession.

Definition showSystemMessage (h : nat) (message : jsstring) : M unit :=
  callback h (onSystemMessage message).

Definition clearMessages (h : nat) : M unit :=
  callback h onClearMessages.

Definition updateUserList (h : nat) : M unit :=
  s <- getSession h ;;
  d <- getChatState ;;
  callback h (onUserListUpdate (ChatState.getUsersInRoom (_room s) d)).

(** The five closures of [setupStateListeners].  Each reads the fields
    of its session at the time of the call. *)
Definition stateListener (l : Listener) (ev : ChatStateEvent) : M unit :=
  let h := owner l in
  s <- getSession h ;;
  match event l, ev with
  | ev_message, EvMessage message =>
      when (jseqb (ChatMessage.room message) (_room s)
            && negb (jseqb (ChatMessage.fingerprint message) (fingerprint s)))
           (callback h (onMessage message))
  | ev_user_join, EvUserJoin user =>
      when (jseqb (UserInfo.room user) (_room s)
            && negb (jseqb (UserInfo.sessionId user) (id s)))
           (updateUserList h)
  | ev_user_leave, EvUserLeave user =>
      when (jseqb (UserInfo.room user) (_room s)) (updateUserList h)
  | ev_user_nick, EvUserNick _ _ => updateUserList h
  | ev_user_room, EvUserRoom _ _ => updateUserList h
  | _, _ => ret tt
  end.

(** The directory's methods, with the listeners that sessions register. *)
Definition chatState_addUser := ChatState.addUser stateListener.
Definition chatState_removeUser := ChatState.removeUser stateListener.
Definition chatState_setNick := ChatState.setNick stateListener.
Definition chatState_setRoom := ChatState.setRoom stateListener.
Definition chatState_addMessage := ChatState.addMessage stateListener.

Definition setupStateListeners (h : nat) : M unit :=
  ChatState.on ev_message h ;;
  ChatState.on ev_user_join h ;;
  ChatState.on ev_user_leave h ;;
  ChatState.on ev_user_nick h ;;
  ChatState.on ev_user_room h.

Definition handlePubsubMessage (h : nat) (message : ChatMessage.t) : M unit :=
  s <- getSession h ;;
  if jseqb (ChatMessage.fingerprint message) (fingerprint s) then ret tt
  else
    chatState_addMessage message ;;
    callback h (onMessage message).

(** [this.rateLimiter.record()] *)
Definition rateLimiter_record (h : nat) : M bool :=
  s <- getSession h ;;
  r <- askEnv (fun e =>
         let '(ok, rl, e') := RateLimiter.record (rateLimiter s) e in
         ((ok, rl), e')) ;;
  setSession h (with_rateLimiter (snd r) s) ;;
  ret (fst r).

Definition sendMessage (h : nat) (content : jsstring) : M unit :=
  s <- getSession h ;;
  if negb (_isConnected s) then showSystemMessage h (js "Not connected")
  else
    ok <- rateLimiter_record h ;;
    if negb ok then
      showSystemMessage h (js "Rate limit exceeded. Please slow down.")
    else if negb (isMessageSizeValid content (maxMessageSize (config s))) then
      showSystemMessage h
        (js "Message too long (max " ++ Number_toString (maxMessageSize (config s))
         ++ js " bytes)")
    else
      message <- askEnv (createTextMessage (_room s) (_nick s) (fingerprint s) content) ;;
      try_catch
        (ChatPubSub.sendMessage h (_room s) message ;;
         callback h (onMessage message) ;;
         chatState_addMessage message)
        (fun err => showSystemMessage h (js "Failed to send message")).

Definition sendAction (h : nat) (action : jsstring) : M unit :=
  s <- getSession h ;;
  if negb (_isConnected s) then showSystemMessage h (js "Not connected")
  else
    ok <- rateLimiter_record h ;;
    if negb ok then
      showSystemMessage h (js "Rate limit exceeded. Please slow down.")
    else
      message <- askEnv (createActionMessage (_room s) (_nick s) (fingerprint s) action) ;;
      try_catch
        (ChatPubSub.sendMessage h (_room s) message ;;
         callback h (onMessage message) ;;
         chatState_addMessage message)
        (fun err => showSystemMessage h (js "Failed to send action")).

Definition joinRoom (h : nat) (newRoom : jsstring) : M unit :=
  s <- getSession h ;;
  if jseqb newRoom (_room s) && _isConnected s then
    showSystemMessage h (js "You are already in room: " ++ newRoom)
  else
    let oldRoom := _room s in
    when (_isConnected s && truthy oldRoom)
      (leaveMessage <- askEnv (createLeaveMessage oldRoom (_nick s) (fingerprint s)) ;;
       try_catch (ChatPubSub.sendMessage h oldRoom leaveMessage) (fun err => ret tt) ;;
       ChatPubSub.leaveRoom h oldRoom) ;;
    modifySession h (with_room newRoom) ;;
    chatState_setRoom (id s) newRoom ;;
    ChatPubSub.joinRoom h newRoom (SessionHandler h) ;;
    joinMessage <- askEnv (createJoinMessage newRoom (_nick s) (fingerprint s)) ;;
    try_catch
      (ChatPubSub.sendMessage h newRoom joinMessage ;;
       chatState_addMessage joinMessage)
      (fun err => ret tt) ;;
    callback h (onRoomChange newRoom) ;;
    updateUserList h ;;
    showSystemMessage h (js "Joined room: " ++ newRoom) ;;
    d <- getChatState ;;
    let recentMessages := ChatState.getRecentMessages newRoom (Some 20) d in
    when (0 <? Z.of_nat (length recentMessages))
      (showSystemMessage h (js "--- Recent messages ---") ;;
       forEach recentMessages (fun msg =>
         when (negb (jseqb (ChatMessage.fingerprint msg) (fingerprint s)))
              (callback h (onMessage msg))) ;;
       showSystemMessage h (js "--- End of history ---")).

Definition showUserList (h : nat) : M unit :=
  s <- getSession h ;;
  d <- getChatState ;;
  let users := ChatState.getUsersInRoom (_room s) d in
  if (Z.of_nat (length users) =? 0) then
    showSystemMessage h (js "No other users in this room")
  else
    let userList :=
      join [10%N]
        (map (fun u =>
                js "  " ++ UserInfo.nick u ++ js " [" ++ UserInfo.fingerprint u ++ js "]"
                ++ (if jseqb (UserInfo.sessionId u) (id s) then js " (you)" else []))
             users) in
    showSystemMessage h
      (js "Users in " ++ _room s ++ js " (" ++ Number_toString (Z.of_nat (length users))
       ++ js "):" ++ [10%N] ++ userList).

Definition showRoomList (h : nat) : M unit :=
  s <- getSession h ;;
  d <- getChatState ;;
  let rooms := ChatState.getKnownRooms d in
  if (Z.of_nat (length rooms) =? 0) then
    showSystemMessage h (js "No known rooms")
  else
    let roomList :=
      join [10%N]
        (map (fun r =>
                let count := Z.of_nat (length (ChatState.getUsersInRoom r d)) in
                let current := if jseqb r (_room s) then js " (current)" else [] in
                js "  " ++ r ++ js " (" ++ Number_toString count ++ js " users)" ++ current)
             rooms) in
    showSystemMessage h (js "Known rooms:" ++ [10%N] ++ roomList).

Definition disconnect (h : nat) : M unit :=
  s <- getSession h ;;
  if negb (_isConnected s) then ret tt
  else
    leaveMessage <- askEnv (createLeaveMessage (_room s) (_nick s) (fingerprint s)) ;;
    try_catch (ChatPubSub.sendMessage h (_room s) leaveMessage) (fun err => ret tt) ;;
    ChatPubSub.leaveRoom h (_room s) ;;
    ChatPubSub.destroy h ;;
    chatState_removeUser (id s) ;;
    modifySession h (with_isConnected false) ;;
    callback h onDisconnect.

(** [this.chatState.removeAllListeners()], on the directory that the
    sessions share. *)
Definition removeAllListeners (h : nat) : M unit :=
  ChatState.removeAllListeners.

Definition destroy (h : nat) : M unit :=
  disconnect h ;;
  removeAllListeners h.

Section Platform.
Context `{JsPlatform}.

(** The constructor; the new session is the next index. *)
Definition new (identity : EphemeralIdentity) (config : Config) : M nat :=
  h <- nextSession ;;
  id <- askEnv uuidv4 ;;
  let fingerprint := generateFingerprint (publicKeyBytes identity) in
  pubsub <- ChatPubSub.new h ;;
  allocSession
    {| id := id; config := config; identity := identity;
       fingerprint := fingerprint; pubsub := pubsub;
       rateLimiter := RateLimiter.new (rateLimit config);
       _nick := js "anon_" ++ firstn 6 fingerprint;
       _room := defaultRoom config;
       _isConnected := false |} ;;
  ret h.

Definition changeNick (h : nat) (newNick : jsstring) : M unit :=
  s <- getSession h ;;
  if jseqb newNick (_nick s) then
    showSystemMessage h (js "That is already your nickname")
  else
    d <- getChatState ;;
    if ChatState.isNickTaken newNick (_room s) (Some (id s)) d then
      showSystemMessage h
        (js "Nickname " ++ dquote ++ newNick ++ dquote
         ++ js " is already taken in this room")
    else
      let oldNick := _nick s in
      modifySession h (with_nick newNick) ;;
      chatState_setNick (id s) newNick ;;
      message <- askEnv (createNickChangeMessage (_room s) oldNick newNick (fingerprint s)) ;;
      try_catch
        (ChatPubSub.sendMessage h (_room s) message ;;
         chatState_addMessage message)
        (fun err => ret tt) ;;
      showSystemMessage h (js "You are now known as " ++ newNick).
End Platform.

Definition start (h : nat) : M unit :=
  s <- getSession h ;;
  chatState_addUser (id s) (_nick s) (fingerprint s) (_room s) ;;
  setupStateListeners h ;;
  joinRoom h (_room s) ;;
  modifySession h (with_isConnected true) ;;
  s' <- getSession h ;;
  showSystemMessage h
    (js "Welcome to Whisper! You are " ++ _nick s' ++ js " [" ++ fingerprint s' ++ js "]") ;;
  showSystemMessage h (js "You are in room: " ++ _room s') ;;
  showSystemMessage h (js "Type /help for available commands.").
End UserSession.

(* ================================================================== *)
(** * chat/commands.ts: the command processor *)
(* ================================================================== *)

Record CommandContext := {
  session : nat;
  args : list jsstring;
  rawInput : jsstring
}.

Record Command := {
  name : jsstring;
  aliases : list jsstring;
  description : jsstring;
  usage : jsstring;
  execute : CommandContext -> M unit
}.

Module Commands.

(** The class [a-zA-Z0-9_-]. *)
Definition isNameUnit (c : N) : bool :=
  ((97 <=? c) && (c <=? 122) || (65 <=? c) && (c <=? 90)
   || (48 <=? c) && (c <=? 57) || (c =? 95) || (c =? 45))%N.

(** [s.replace(/[^a-zA-Z0-9_-]/g, '')] *)
Definition stripOthers (s : jsstring) : jsstring := filter isNameUnit s.

Definition sanitizeNick (nick : jsstring) : jsstring :=
  firstn 32 (stripOthers nick).

Definition isValidNick (nick : jsstring) (maxLength : Z) : bool :=
  if (jslength nick =? 0) || (jslength nick >? maxLength) then false
  else forallb isNameUnit nick.

Definition isValidRoomName (room : jsstring) (maxLength : Z) : bool :=
  if (jslength room =? 0) || (jslength room >? maxLength) then false
  else forallb isNameUnit room.

Definition showSystemMessage (ctx : CommandContext) (message : jsstring) : M unit :=
  UserSession.showSystemMessage (session ctx) message.

Definition maxNickLengthOf (ctx : CommandContext) : M Z :=
  s <- getSession (session ctx) ;; ret (maxNickLength (config s)).

Definition maxRoomNameLengthOf (ctx : CommandContext) : M Z :=
  s <- getSession (session ctx) ;; ret (maxRoomNameLength (config s)).

Definition usersCommand : Command :=
  {| name := js "users"; aliases := [js "who"; js "w"];
     description := js "List users in the current room";
     usage := js "/users";
     execute := fun ctx => UserSession.showUserList (session ctx) |}.

Definition roomsCommand : Command :=
  {| name := js "rooms"; aliases := [js "r"];
     description := js "List known rooms";
     usage := js "/rooms";
     execute := fun ctx => UserSession.showRoomList (session ctx) |}.

Definition quitCommand : Command :=
  {| name := js "quit"; aliases := [js "q"; js "exit"];
     description := js "Disconnect from chat";
     usage := js "/quit";
     execute := fun ctx =>
       showSystemMessage ctx (js "Goodbye!") ;;
       UserSession.disconnect (session ctx) |}.

Definition meCommand : Command :=
  {| name := js "me"; aliases := [];
     description := js "Send an action message";
     usage := js "/me <action>";
     execute := fun ctx =>
       if Z.of_nat (length (args ctx)) <? 1 then
         showSystemMessage ctx (js "Usage: /me <action>")
       else
         let action := join (js " ") (args ctx) in
         UserSession.sendAction (session ctx) action |}.

Definition clearCommand : Command :=
  {| name := js "clear"; aliases := [js "cls"];
     description := js "Clear the screen";
     usage := js "/clear";
     execute := fun ctx => UserSession.clearMessages (session ctx) |}.

Section Platform.
Context `{JsPlatform}.

Definition sanitizeRoomName (room : jsstring) : jsstring :=
  toLowerCase (firstn 32 (stripOthers room)).

Definition nickCommand : Command :=
  {| name := js "nick"; aliases := [js "n"];
     description := js "Change your nickname";
     usage := js "/nick <new_name>";
     execute := fun ctx =>
       if Z.of_nat (length (args ctx)) <? 1 then
         showSystemMessage ctx (js "Usage: /nick <new_name>")
       else
         let newNick := sanitizeNick (hd [] (args ctx)) in
         if negb (truthy newNick) then
           showSystemMessage ctx
             (js "Invalid nickname. Use alphanumeric characters, underscores, and dashes only.")
         else
           maxNickLength <- maxNickLengthOf ctx ;;
           if jslength newNick >? maxNickLength then
             showSystemMessage ctx
               (js "Nickname too long (max " ++ Number_toString maxNickLength
                ++ js " characters)")
           else UserSession.changeNick (session ctx) newNick |}.

Definition joinCommand : Command :=
  {| name := js "join"; aliases := [js "j"];
     description := js "Join a room";
     usage := js "/join <room_name>";
     execute := fun ctx =>
       if Z.of_nat (length (args ctx)) <? 1 then
         showSystemMessage ctx (js "Usage: /join <room_name>")
       else
         let roomName := sanitizeRoomName (hd [] (args ctx)) in
         if negb (truthy roomName) then
           showSystemMessage ctx
             (js "Invalid room name. Use alphanumeric characters, underscores, and dashes only.")
         else
           maxRoomNameLength <- maxRoomNameLengthOf ctx ;;
           if jslength roomName >? maxRoomNameLength then
             showSystemMessage ctx
               (js "Room name too long (max " ++ Number_toString maxRoomNameLength
                ++ js " characters)")
           else UserSession.joinRoom (session ctx) roomName |}.

(** The help text lists the usage and the description of every
    command, in the order of [commands]. *)
Definition helpCommandWith (others : Command -> list Command) : Command :=
  let self :=
    {| name := js "help"; aliases := [js "h"; js "?"];
       description := js "Show available commands";
       usage := js "/help";
       execute := fun _ => ret tt |} in
  {| name := name self; aliases := aliases self;
     description := description self; usage := usage self;
     execute := fun ctx =>
       let helpText :=
         join [10%N]
           (map (fun cmd => js "  " ++ padEnd 25 (usage cmd) ++ js " - " ++ description cmd)
                (others self)) in
       showSystemMessage ctx (js "Available commands:" ++ [10%N] ++ helpText) |}.

Definition commandsWith (help : Command) : list Command :=
  [nickCommand; joinCommand; usersCommand; roomsCommand; help;
   quitCommand; meCommand; clearCommand].

Definition helpCommand : Command := helpCommandWith commandsWith.

Definition commands : list Command := commandsWith helpCommand.

(** The lookup table: each command under its name and its aliases. *)
Definition commandMap : JsMap.t Command :=
  fold_left
    (fun m cmd =>
       fold_left (fun m alias => JsMap.set alias cmd m) (aliases cmd)
                 (JsMap.set (name cmd) cmd m))
    commands JsMap.empty.

Definition executeCommand (session : nat) (input : jsstring) : M bool :=
  if negb (startsWith (js "/") input) then ret false
  else
    let parts := split_ws (skipn 1 input) in
    let commandName := toLowerCase (hd [] parts) in
    let args := tl parts in
    match JsMap.get commandName commandMap with
    | None =>
        UserSession.showSystemMessage session
          (js "Unknown command: /" ++ commandName
           ++ js ". Type /help for available commands.") ;;
        ret true
    | Some command =>
        try_catch
          (execute command {| session := session; args := args; rawInput := input |})
          (fun err =>
             UserSession.showSystemMessage session
               (js "Command failed: "
                ++ match err with
                   | ErrorObject message => message
                   | Thrown _ => js "Unknown error"
                   end)) ;;
        ret true
    end.
End Platform.
End Commands.

(** [UserSession.handleInput] (chat/session.ts), which hands commands to
    the command processor. *)
Definition handleInput `{JsPlatform} (h : nat) (input : jsstring) : M unit :=
  let trimmed := trim input in
  if negb (truthy trimmed) then ret tt
  else
    wasCommand <- Commands.executeCommand h trimmed ;;
    if wasCommand then ret tt
    else UserSession.sendMessage h trimmed.

(* ================================================================== *)
(** * A platform and a small world, for running the model *)
(* ================================================================== *)

Definition lowerUnit (c : N) : N :=
  (if (65 <=? c) && (c <=? 90) then c + 32 else c)%N.

Definition upperUnit (c : N) : N :=
  (if (97 <=? c) && (c <=? 122) then c - 32 else c)%N.

(** A platform whose case mappings act on the letters A to Z only, as the
    real ones do on strings of Basic Latin, and whose digest keeps the
    first bytes of its input. *)
Definition basicLatin : JsPlatform :=
  {| toLowerCase := map lowerUnit;
     toUpperCase := map upperUnit;
     sha256 := fun bytes => bytes ++ repeat 0%N (32 - length bytes) |}.

(** An overlay without any other peer, identifiers [session-0],
    [session-1], ..., and a clock that advances by a millisecond per
    reading for half a second and then stands still. *)
Definition demoEnv : Env :=
  {| clock := fun i => Z.of_nat (Nat.min i 500) + 1700000000000;
     clockTick := 0;
     uuids := fun i => js "session-" ++ Number_toString (Z.of_nat i);
     uuidTick := 0;
     publishOutcome :=
       fun _ => Some (ErrorObject (js "PublishError.NoPeersSubscribedToTopic"));
     publishTick := 0 |}.

(** The default settings, with a rate limit to choose. *)
Definition demoConfig (rateLimit : Z) : Config :=
  {| defaultRoom := js "lobby"; maxMessageSize := 4096;
     maxMessagesInMemory := 100; rateLimit := rateLimit;
     maxNickLength := 32; maxRoomNameLength := 32 |}.

(** index.ts makes the one directory with [config.maxMessagesInMemory]. *)
Definition emptyWorld : World :=
  {| chatState := ChatState.new (maxMessagesInMemory (demoConfig 10));
     sessions := []; ui := []; overlay := []; env := demoEnv |}.

Definition alice : EphemeralIdentity := {| publicKeyBytes := [161; 178; 195; 212]%N |}.
Definition bob : EphemeralIdentity := {| publicKeyBytes := [11; 22; 33; 44]%N |}.


(** A session that started, with a rate limit of 3: session 0. *)
Definition oneStarted : World :=
  exec (a <- UserSession.new (H := basicLatin) alice (demoConfig 3) ;;
        UserSession.start a) emptyWorld.

(** Two sessions that started, in the default room: sessions 0 and 1. *)
Definition twoStarted : World :=
  exec (a <- UserSession.new (H := basicLatin) alice (demoConfig 10) ;;
        b <- UserSession.new (H := basicLatin) bob (demoConfig 10) ;;
        UserSession.start a ;;
        UserSession.start b) emptyWorld.

(** A message of somebody else for the default room. *)
Definition carolsMessage : ChatMessage.t :=
  {| ChatMessage.id := js "message-1";
     ChatMessage.timestamp := 1700000000250;
     ChatMessage.room := js "lobby";
     ChatMessage.nick := js "carol";
     ChatMessage.fingerprint := js "CAFE0001";
     ChatMessage.type := MessageType.text;
     ChatMessage.content := js "hello";
     ChatMessage.oldNick := None |}.

(** A directory that keeps two messages per room. *)
Definition smallWorld : World :=
  {| chatState := ChatState.new 2; sessions := []; ui := []; overlay := [];
     env := demoEnv |}.

Definition demoMessage (n : Z) : ChatMessage.t :=
  {| ChatMessage.id := js "message-" ++ Number_toString n;
     ChatMessage.timestamp := 1700000000000 + n;
     ChatMessage.room := js "lobby";
     ChatMessage.nick := js "carol";
     ChatMessage.fingerprint := js "CAFE0001";
     ChatMessage.type := MessageType.text;
     ChatMessage.content := js "hello";
     ChatMessage.oldNick := None |}.

(* ================================================================== *)
(** * The vocabulary of the properties *)
(* ================================================================== *)

(** The definitions below name what the properties speak of: the items a
    buffer keeps, the worlds that differ in one component, the history of
    a room, the text of an encoded message. *)

(** ** Lists and buffers *)

(** The last [n] elements of a list (all of them when there are fewer). *)
Definition lastN {A} (n : Z) (l : list A) : list A :=
  skipn (Z.to_nat (Z.of_nat (length l) - n)) l.

(** ** Worlds that differ in one component *)

(** A computation [m] preserves a relation [R] between the world before
    and the world after when every run of it does, however it ends.  For
    a reflexive and transitive [R] this passes through sequencing,
    handlers and loops. *)
Definition preserves (R : World -> World -> Prop) {A} (m : M A) : Prop :=
  forall w, R w (exec m w).

(** The world with further callbacks invoked. *)
Definition addUi (extra : list (nat * UiEvent)) (w : World) : World :=
  {| chatState := chatState w; sessions := sessions w; ui := ui w ++ extra;
     overlay := overlay w; env := env w |}.

Definition uiRel (w w' : World) : Prop := exists extra, w' = addUi extra w.

(** [m] does nothing but invoke callbacks. *)
Definition uiOnly {A} (m : M A) : Prop := preserves uiRel m.

(** The directory after [addMessage]: the room's buffer has the message
    pushed, and nothing else has changed. *)
Definition pushed (message : ChatMessage.t) (d : ChatState) : ChatState :=
  let buffer :=
    match JsMap.get (ChatMessage.room message) (roomMessages d) with
    | Some buffer => buffer
    | None => BoundedBuffer.new ChatMessage.t (maxMessagesPerRoom d)
    end in
  with_roomMessages
    (JsMap.set (ChatMessage.room message) (BoundedBuffer.push message buffer)
               (roomMessages d)) d.

Definition withChatState (d : ChatState) (w : World) : World :=
  {| chatState := d; sessions := sessions w; ui := ui w;
     overlay := overlay w; env := env w |}.

(** ** The history of a room *)

(** What the directory holds for a room. *)
Definition history (R : jsstring) (d : ChatState) : list ChatMessage.t :=
  ChatState.getRecentMessages R None d.

Definition inRoom (R : jsstring) (m : ChatMessage.t) : bool :=
  jseqb (ChatMessage.room m) R.

(** Every buffer was made with the directory's capacity and respects it. *)
Definition historyInvariant (d : ChatState) : Prop :=
  forall R buffer,
    JsMap.get R (roomMessages d) = Some buffer ->
    maxSize buffer = maxMessagesPerRoom d
    /\ Z.of_nat (length (items buffer)) <= maxMessagesPerRoom d.

(** A sequence of calls of [addMessage], whatever each call's listeners do. *)
Definition addMessages (ms : list ChatMessage.t) (w : World) : World :=
  fold_left (fun w m => exec (UserSession.chatState_addMessage m) w) ms w.

(** ** The window of the rate limiter *)

(** The recorded timestamps that lie within the last 1000 ms of [now]. *)
Definition withinLastSecond (now : Z) (ts : list Z) : list Z :=
  filter (fun t => now - 1000 <? t) ts.

(** [k] calls of [record] in a row, with their answers. *)
Fixpoint records (k : nat) (rl : RateLimiter) (e : Env) : list bool * RateLimiter * Env :=
  match k with
  | O => ([], rl, e)
  | S k' =>
      let '(ok, rl1, e1) := RateLimiter.record rl e in
      let '(oks, rl2, e2) := records k' rl1 e1 in
      (ok :: oks, rl2, e2)
  end.

(** ** Names *)

Definition nameUnits (s : jsstring) : Prop :=
  Forall (fun c => Commands.isNameUnit c = true) s.

(** ** Publishing *)

(** The overlay signals that nobody else subscribes to the topic. *)
Definition noPeersSubscribed (err : JsError) : bool :=
  includes (js "NoPeersSubscribedToTopic") (ChatPubSub.errorMessage err).

(** The world once the overlay has been asked to publish. *)
Definition published (topic : jsstring) (data : list N) (w : World) : World :=
  {| chatState := chatState w; sessions := sessions w; ui := ui w;
     overlay := overlay w ++ [publish topic data];
     env := snd (nextPublishOutcome (env w)) |}.

(** ** Sessions *)

(** The sessions are as they were and the clock will answer as before. *)
Definition sameSessions (w w' : World) : Prop :=
  sessions w' = sessions w /\ clock (env w') = clock (env w).

(** The world once session [h] has asked its rate limiter. *)
Definition asked (h : nat) (s : UserSession) (w : World) : World :=
  let '(_, rl, e) := RateLimiter.record (rateLimiter s) (env w) in
  {| chatState := chatState w;
     sessions := updateAt h (with_rateLimiter rl s) (sessions w);
     ui := ui w; overlay := overlay w; env := e |}.

Definition rateLimitNotice : jsstring := js "Rate limit exceeded. Please slow down.".

(** Session [h] is connected, has let [k] messages through in the window that
    starts at [t0], none of which can expire while the clock stays in that
    window, and its limit is [limit]. *)
Definition letThrough (h : nat) (t0 limit : Z) (k : nat) (w : World) : Prop :=
  exists s,
    nth_error (sessions w) h = Some s
    /\ _isConnected s = true
    /\ maxRequests (rateLimiter s) = limit
    /\ windowMs (rateLimiter s) = 1000
    /\ length (timestamps (rateLimiter s)) = k
    /\ Forall (fun t => t0 <= t) (timestamps (rateLimiter s))
    /\ (forall i, t0 <= clock (env w) i < t0 + 1000).


(** Session [h] is still there with its nick, its room and its connection
    flag. *)
Definition fieldsKept (h : nat) (w w' : World) : Prop :=
  forall s, nth_error (sessions w) h = Some s ->
    exists s', nth_error (sessions w') h = Some s'
      /\ _nick s' = _nick s /\ _room s' = _room s
      /\ _isConnected s' = _isConnected s.

(** What [joinRoom] goes on to do once the session has been put in its
    new room. *)
Definition joinRoom_rest (h : nat) (s : UserSession) (newRoom : jsstring) : M unit :=
  bind (UserSession.chatState_setRoom (id s) newRoom) (fun _ =>
  bind (ChatPubSub.joinRoom h newRoom (SessionHandler h)) (fun _ =>
  bind (askEnv (createJoinMessage newRoom (_nick s) (fingerprint s))) (fun joinMessage =>
  bind (try_catch
          (bind (ChatPubSub.sendMessage h newRoom joinMessage)
                (fun _ => UserSession.chatState_addMessage joinMessage))
          (fun _ => ret tt)) (fun _ =>
  bind (callback h (onRoomChange newRoom)) (fun _ =>
  bind (UserSession.updateUserList h) (fun _ =>
  bind (UserSession.showSystemMessage h (js "Joined room: " ++ newRoom)) (fun _ =>
  bind getChatState (fun d =>
    let recentMessages := ChatState.getRecentMessages newRoom (Some 20) d in
    when (0 <? Z.of_nat (length recentMessages))
      (bind (UserSession.showSystemMessage h (js "--- Recent messages ---")) (fun _ =>
       bind (forEach recentMessages (fun msg =>
               when (negb (jseqb (ChatMessage.fingerprint msg) (fingerprint s)))
                    (callback h (onMessage msg)))) (fun _ =>
       UserSession.showSystemMessage h (js "--- End of history ---")))))))))))).

(** ** Code units *)

(** A string whose units are below 65536 and whose surrogates come in
    pairs. *)
Inductive wellPaired : jsstring -> Prop :=
| wp_nil : wellPaired []
| wp_unit c s :
    (c < 65536)%N -> isHighSurrogate c = false -> isLowSurrogate c = false ->
    wellPaired s -> wellPaired (c :: s)
| wp_pair c d s :
    isHighSurrogate c = true -> isLowSurrogate d = true ->
    wellPaired s -> wellPaired (c :: d :: s).

(** A Unicode scalar value. *)
Definition scalar (cp : N) : Prop :=
  (cp < 55296 \/ 57344 <= cp < 1114112)%N.

(** Units that are no surrogates. *)
Definition plainUnit (c : N) : Prop := (c < 55296)%N.

(** Strings whose units are below 65536: the strings of JavaScript. *)
Definition validString (s : jsstring) : Prop := Forall (fun c => (c < 65536)%N) s.

Definition consUnit (c : N) (r : option (jsstring * jsstring)) : option (jsstring * jsstring) :=
  match r with
  | Some (v, rest) => Some (c :: v, rest)
  | None => None
  end.

(** ** Decimal digits *)

(** The units of the digits of [d]. *)
Definition digitChars (d : Decimal.uint) : jsstring := js (NilEmpty.string_of_uint d).

(** The number that the digits [d] denote when they follow digits that
    denote [acc]. *)
Fixpoint uintValue (d : Decimal.uint) (acc : N) : N :=
  match d with
  | Decimal.Nil => acc
  | Decimal.D0 l => uintValue l (acc * 10 + 0)
  | Decimal.D1 l => uintValue l (acc * 10 + 1)
  | Decimal.D2 l => uintValue l (acc * 10 + 2)
  | Decimal.D3 l => uintValue l (acc * 10 + 3)
  | Decimal.D4 l => uintValue l (acc * 10 + 4)
  | Decimal.D5 l => uintValue l (acc * 10 + 5)
  | Decimal.D6 l => uintValue l (acc * 10 + 6)
  | Decimal.D7 l => uintValue l (acc * 10 + 7)
  | Decimal.D8 l => uintValue l (acc * 10 + 8)
  | Decimal.D9 l => uintValue l (acc * 10 + 9)
  end.

Definition noDigitAhead (rest : jsstring) : Prop :=
  match rest with
  | c :: _ => isDigit c = false
  | [] => True
  end.

(** ** The text of a message *)

(** A member [key:value] of an object and what follows it. *)
Definition memberText (key value rest : jsstring) : jsstring :=
  QuoteJSONString key ++ 58%N :: value ++ rest.

(** The text that [JSON.stringify] makes of a message, up to its end
    [close], which is the closing brace. *)
Definition messageTextWith (close : jsstring) (m : ChatMessage.t) : jsstring :=
  123%N ::
  memberText (js "id") (QuoteJSONString (ChatMessage.id m)) (44%N ::
  memberText (js "timestamp") (JsNumber_toString (ChatMessage.timestamp m) 0) (44%N ::
  memberText (js "room") (QuoteJSONString (ChatMessage.room m)) (44%N ::
  memberText (js "nick") (QuoteJSONString (ChatMessage.nick m)) (44%N ::
  memberText (js "fingerprint") (QuoteJSONString (ChatMessage.fingerprint m)) (44%N ::
  memberText (js "type") (QuoteJSONString (MessageType.name (ChatMessage.type m))) (44%N ::
  memberText (js "content") (QuoteJSONString (ChatMessage.content m))
    match ChatMessage.oldNick m with
    | Some o => 44%N :: memberText (js "oldNick") (QuoteJSONString o) close
    | None => close
    end)))))).

Definition messageText (m : ChatMessage.t) : jsstring := messageTextWith [125%N] m.

(** The object that the text of a message denotes: the properties of the
    message, without [oldNick] when there is none. *)
Definition parsedMessage (m : ChatMessage.t) : JsValue :=
  JObject
    ([ (js "id", JString (ChatMessage.id m));
       (js "timestamp", JInteger (ChatMessage.timestamp m));
       (js "room", JString (ChatMessage.room m));
       (js "nick", JString (ChatMessage.nick m));
       (js "fingerprint", JString (ChatMessage.fingerprint m));
       (js "type", JString (MessageType.name (ChatMessage.type m)));
       (js "content", JString (ChatMessage.content m)) ]
     ++ match ChatMessage.oldNick m with
        | Some o => [(js "oldNick", JString o)]
        | None => []
        end).

(** A message of JavaScript: its strings are sequences of UTF-16 code
    units and its timestamp is an integer that a number holds exactly. *)
Definition wellFormedMessage (m : ChatMessage.t) : Prop :=
  validString (ChatMessage.id m)
  /\ validString (ChatMessage.room m)
  /\ validString (ChatMessage.nick m)
  /\ validString (ChatMessage.fingerprint m)
  /\ validString (ChatMessage.content m)
  /\ match ChatMessage.oldNick m with
     | Some o => validString o
     | None => True
     end
  /\ Z.abs (ChatMessage.timestamp m) < 2 ^ 53.

(** ** What depends on the platform *)

Section PlatformVocabulary.
Context `{JsPlatform}.

(** [u] holds the nick [n] in room [r], up to case. *)
Definition holdsNick (n r : jsstring) (u : UserInfo.t) : Prop :=
  UserInfo.room u = r /\ toLowerCase (UserInfo.nick u) = toLowerCase n.

(** What is asked of the platform: on strings of the class
    [a-zA-Z0-9_-], [toLowerCase] maps A-Z to a-z and nothing else. *)
Definition lowersBasicLatin : Prop :=
  forall s, nameUnits s -> toLowerCase s = map lowerUnit s.

(** The [/nick] command with its length check taken out. *)
Definition nickCommand_without_length_check (ctx : CommandContext) : M unit :=
  if Z.of_nat (length (args ctx)) <? 1 then
    Commands.showSystemMessage ctx (js "Usage: /nick <new_name>")
  else
    let newNick := Commands.sanitizeNick (hd [] (args ctx)) in
    if negb (truthy newNick) then
      Commands.showSystemMessage ctx
        (js "Invalid nickname. Use alphanumeric characters, underscores, and dashes only.")
    else UserSession.changeNick (session ctx) newNick.

End PlatformVocabulary.

(* ================================================================== *)
(** * Further code: fingerprints, settings, the message display *)
(* ================================================================== *)

(** ** crypto/fingerprint.ts *)

Definition generateShortFingerprint `{JsPlatform} (publicKeyBytes : list N) : jsstring :=
  let full := generateFingerprint publicKeyBytes in
  firstn 4 full.

(** The class [A-F0-9] under the flag [i]: a hexadecimal digit in either
    case. *)
Definition isHexUnit (c : N) : bool :=
  ((48 <=? c) && (c <=? 57) || (65 <=? c) && (c <=? 70)
   || (97 <=? c) && (c <=? 102))%N.

(** [/^[A-F0-9]{8}$/i.test(fingerprint)] *)
Definition isValidFingerprint (fingerprint : jsstring) : bool :=
  Nat.eqb (length fingerprint) 8 && forallb isHexUnit fingerprint.

(** ** config.ts *)

(** [s.split(sep)] for a separator of one unit; [cur] is the piece being
    read, reversed. *)
Fixpoint splitOn (sep : N) (cur : jsstring) (s : jsstring) : list jsstring :=
  match s with
  | [] => [rev cur]
  | c :: s' =>
      if N.eqb c sep then rev cur :: splitOn sep [] s'
      else splitOn sep (c :: cur) s'
  end.

(** [envValue] is [process.env.BOOTSTRAP_NODES]: absent, or a string. *)
Definition parseBootstrapNodes (envValue : option jsstring) : list jsstring :=
  match envValue with
  | None => []
  | Some v =>
      if negb (truthy v) then []
      else filter truthy (map trim (splitOn 44 [] v))
  end.

(** ** tui: the MessageBox widget, the lines of the message display *)

(** [array.slice(start)] *)
Definition sliceFrom {A} (start : Z) (l : list A) : list A :=
  let len := Z.of_nat (length l) in
  let k := if start <? 0 then Z.max (len + start) 0 else Z.min start len in
  skipn (Z.to_nat k) l.

(** [text.replace(/\{[^}]+\}/g, '')].  [untilClose s] is what follows the
    first closing brace of [s], with the number of units before it. *)
Fixpoint untilClose (s : jsstring) : option (nat * jsstring) :=
  match s with
  | [] => None
  | c :: s' =>
      if N.eqb c 125 then Some (O, s')
      else match untilClose s' with
           | Some (n, rest) => Some (S n, rest)
           | None => None
           end
  end.

(** [fuel] bounds the number of units still to read. *)
Fixpoint sanitizeTags (fuel : nat) (s : jsstring) : jsstring :=
  match fuel, s with
  | O, _ => s
  | _, [] => []
  | S fuel', c :: s' =>
      if N.eqb c 123 then
        match untilClose s' with
        | Some (S _, rest) => sanitizeTags fuel' rest
        | _ => c :: sanitizeTags fuel' s'
        end
      else c :: sanitizeTags fuel' s'
  end.

Definition colors : list jsstring :=
  [js "cyan"; js "green"; js "yellow"; js "magenta"; js "red"; js "blue"].

Record MessageBox := {
  messages : list jsstring;
  maxMessages : Z
}.

Module MessageBox.
Section Display.
(** [date.toLocaleTimeString('en-US', ...)] of the platform. *)
Variable formatTime : Z -> jsstring.

Definition new (maxMessages : Z) : MessageBox :=
  {| messages := []; maxMessages := maxMessages |}.

Definition sanitize (text : jsstring) : jsstring :=
  sanitizeTags (length text) text.

Definition getNickColor (fingerprint : jsstring) : jsstring :=
  let hash := fold_left (fun acc char => acc + Z.of_N char) fingerprint 0 in
  nth (Z.to_nat (hash mod Z.of_nat (length colors))) colors [].

(** The trimming that follows the pushes. *)
Definition trimOld (lines : list jsstring) (maxMessages : Z) : list jsstring :=
  if Z.of_nat (length lines) >? maxMessages then sliceFrom (- maxMessages) lines
  else lines.

Definition formatMessage (message : ChatMessage.t) : jsstring :=
  let time := formatTime (ChatMessage.timestamp message) in
  let color := getNickColor (ChatMessage.fingerprint message) in
  let shortFp := firstn 4 (ChatMessage.fingerprint message) in
  let content := sanitize (ChatMessage.content message) in
  let stamp := js "{gray-fg}" ++ time ++ js "{/} " in
  match ChatMessage.type message with
  | MessageType.text =>
      stamp ++ js "{" ++ color ++ js "-fg}<" ++ ChatMessage.nick message
      ++ js ">{/} {gray-fg}[" ++ shortFp ++ js "]{/} " ++ content
  | MessageType.action =>
      stamp ++ js "{magenta-fg}* " ++ ChatMessage.nick message ++ js " "
      ++ content ++ js "{/}"
  | MessageType.join =>
      stamp ++ js "{green-fg}>>> " ++ ChatMessage.nick message ++ js " ["
      ++ shortFp ++ js "] has joined{/}"
  | MessageType.leave =>
      stamp ++ js "{red-fg}<<< " ++ ChatMessage.nick message ++ js " ["
      ++ shortFp ++ js "] has left{/}"
  | MessageType.nick =>
      stamp ++ js "{yellow-fg}*** "
      ++ match ChatMessage.oldNick message with
         | Some o => if truthy o then o else js "Someone"
         | None => js "Someone"
         end
      ++ js " is now known as " ++ ChatMessage.nick message ++ js "{/}"
  end.

Definition addMessage (message : ChatMessage.t) (b : MessageBox) : MessageBox :=
  let lines := messages b ++ [formatMessage message] in
  {| messages := trimOld lines (maxMessages b); maxMessages := maxMessages b |}.

Definition addSystemMessage (text : jsstring) (b : MessageBox) (e : Env)
  : MessageBox * Env :=
  let (now, e1) := Date_now e in
  let time := formatTime now in
  let lines := splitOn 10 [] text in
  let pushed :=
    fold_left
      (fun ms line =>
         ms ++ [js "{gray-fg}" ++ time ++ js "{/} {yellow-fg}*** "
                ++ sanitize line ++ js "{/}"])
      lines (messages b) in
  ({| messages := trimOld pushed (maxMessages b); maxMessages := maxMessages b |}, e1).

Definition clear (b : MessageBox) : MessageBox :=
  {| messages := []; maxMessages := maxMessages b |}.

(** What [render] hands to the widget. *)
Definition content (b : MessageBox) : jsstring := join [10%N] (messages b).
End Display.
End MessageBox.

(** ** What is asked of the platform's [toUpperCase] *)

Section PlatformCase.
Context `{JsPlatform}.

(** On strings of Basic Latin, [toUpperCase] maps a-z to A-Z and nothing
    else. *)
Definition uppersBasicLatin : Prop :=
  forall s, Forall (fun c => (c < 128)%N) s -> toUpperCase s = map upperUnit s.
End PlatformCase.

(** ** Tags of the display *)

(** [s] holds a tag of the terminal library: an opening brace, then one
    or more units other than the closing brace, then a closing brace. *)
Definition hasTag (s : jsstring) : Prop :=
  exists pre body post,
    s = pre ++ 123%N :: body ++ 125%N :: post /\ body <> [] /\ ~ In 125%N body.

(** ** Well-formed maps and worlds *)

(** A [Map] holds a key once. *)
Definition distinctKeys {V} (m : JsMap.t V) : Prop := NoDup (JsMap.keys m).

(** Every listener of the directory was registered by a session of the
    world, as [setupStateListeners] does. *)
Definition listenersOwned (w : World) : Prop :=
  Forall (fun l => nth_error (sessions w) (owner l) <> None)
         (listeners (chatState w)).

(** The world with other users in the directory. *)
Definition withUsers (us : JsMap.t UserInfo.t) (w : World) : World :=
  withChatState (with_users us (chatState w)) w.

(** The world once the router of session [h], which was [s], holds the
    subscriptions [subs] and has made the calls [calls] to the overlay. *)
Definition routed (h : nat) (s : UserSession) (subs : JsMap.t MessageHandler)
    (calls : list OverlayCall) (w : World) : World :=
  {| chatState := chatState w;
     sessions := updateAt h (with_pubsub {| subscriptions := subs |} s) (sessions w);
     ui := ui w; overlay := overlay w ++ calls; env := env w |}.

(** The rooms that the router of session [h] is subscribed to. *)
Definition subscribedRooms (h : nat) (w : World) : list jsstring :=
  match nth_error (sessions w) h with
  | Some s => JsMap.keys (subscriptions (pubsub s))
  | None => []
  end.

(** Session [h] is shown the message [m] by its listener: it is in the
    room of the message and did not write it. *)
Definition listensTo (m : ChatMessage.t) (w : World) (h : nat) : Prop :=
  exists s, nth_error (sessions w) h = Some s
            /\ ChatMessage.room m = _room s
            /\ ChatMessage.fingerprint m <> fingerprint s.

(** The world with another environment. *)
Definition withEnv (e : Env) (w : World) : World :=
  {| chatState := chatState w; sessions := sessions w; ui := ui w;
     overlay := overlay w; env := e |}.

(** The text message that session [s] makes of [content] once it has
    asked its rate limiter in the world [w]. *)
Definition composed (h : nat) (s : UserSession) (content : jsstring) (w : World)
  : ChatMessage.t :=
  fst (createTextMessage (_room s) (_nick s) (fingerprint s) content
                         (env (asked h s w))).

Definition tooLongNotice (s : UserSession) : jsstring :=
  js "Message too long (max " ++ Number_toString (maxMessageSize (config s))
  ++ js " bytes)".

Definition sendFailedNotice : jsstring := js "Failed to send message".

(** The publish goes through, or fails only for want of other peers. *)
Definition publishAccepted (e : Env) : bool :=
  match publishOutcome e (publishTick e) with
  | None => true
  | Some err => noPeersSubscribed err
  end.

(** ** Commands *)

Section PlatformCommands.
Context `{JsPlatform}.

(** The [/join] command with its length check taken out. *)
Definition joinCommand_without_length_check (ctx : CommandContext) : M unit :=
  if Z.of_nat (length (args ctx)) <? 1 then
    Commands.showSystemMessage ctx (js "Usage: /join <room_name>")
  else
    let roomName := Commands.sanitizeRoomName (hd [] (args ctx)) in
    if negb (truthy roomName) then
      Commands.showSystemMessage ctx
        (js "Invalid room name. Use alphanumeric characters, underscores, and dashes only.")
    else UserSession.joinRoom (session ctx) roomName.

(** The name under which a line asks for a command. *)
Definition commandNameOf (input : jsstring) : jsstring :=
  toLowerCase (hd [] (split_ws (skipn 1 input))).

Definition unknownCommandNotice (input : jsstring) : jsstring :=
  js "Unknown command: /" ++ commandNameOf input
  ++ js ". Type /help for available commands.".
End PlatformCommands.

(** ** Leaving *)

(** Session [s] once disconnected: not connected, and its router without
    subscriptions. *)
Definition disconnected (s : UserSession) : UserSession :=
  with_isConnected false (with_pubsub {| subscriptions := JsMap.empty |} s).

(** The leave message that session [s] makes in the world [w]. *)
Definition leaveMessageOf (s : UserSession) (w : World) : ChatMessage.t :=
  fst (createLeaveMessage (_room s) (_nick s) (fingerprint s) (env w)).

(** What the router of a disconnecting session [s] asks of the overlay:
    to publish the leave message, to unsubscribe from the room, to remove
    the router's listener, and to unsubscribe from what is left. *)
Definition leavingCalls (h : nat) (s : UserSession) (w : World) : list OverlayCall :=
  [publish (ChatPubSub.getTopic (_room s)) (encodeMessage (leaveMessageOf s w));
   unsubscribe (ChatPubSub.getTopic (_room s));
   removeEventListener h]
  ++ map (fun roomName => unsubscribe (ChatPubSub.getTopic roomName))
         (JsMap.keys (JsMap.delete (_room s) (subscriptions (pubsub s)))).

(** ** Changing nick *)

(** The users once the one registered under [sessionId], if any, has the
    nick [newNick]. *)
Definition renamed (sessionId newNick : jsstring) (us : JsMap.t UserInfo.t)
  : JsMap.t UserInfo.t :=
  match JsMap.get sessionId us with
  | Some user =>
      JsMap.set sessionId
        {| UserInfo.sessionId := UserInfo.sessionId user;
           UserInfo.nick := newNick;
           UserInfo.fingerprint := UserInfo.fingerprint user;
           UserInfo.room := UserInfo.room user;
           UserInfo.joinedAt := UserInfo.joinedAt user |} us
  | None => us
  end.

(** The message that announces that session [s] takes the nick
    [newNick], made in the world [w]. *)
Definition nickMessageOf (s : UserSession) (newNick : jsstring) (w : World)
  : ChatMessage.t :=
  fst (createNickChangeMessage (_room s) (_nick s) newNick (fingerprint s) (env w)).

Definition sameNickNotice : jsstring := js "That is already your nickname".

Definition nickTakenNotice (newNick : jsstring) : jsstring :=
  js "Nickname " ++ dquote ++ newNick ++ dquote ++ js " is already taken in this room".

Definition nickChangedNotice (newNick : jsstring) : jsstring :=
  js "You are now known as " ++ newNick.

(** ** Changing room *)

(** The users once the one registered under [sessionId], if any, is in
    the room [newRoom]. *)
Definition moved (sessionId newRoom : jsstring) (us : JsMap.t UserInfo.t)
  : JsMap.t UserInfo.t :=
  match JsMap.get sessionId us with
  | Some user =>
      JsMap.set sessionId
        {| UserInfo.sessionId := UserInfo.sessionId user;
           UserInfo.nick := UserInfo.nick user;
           UserInfo.fingerprint := UserInfo.fingerprint user;
           UserInfo.room := newRoom;
           UserInfo.joinedAt := UserInfo.joinedAt user |} us
  | None => us
  end.

(** The directory holds the same users. *)
Definition usersKept (w w' : World) : Prop :=
  users (chatState w') = users (chatState w).

Definition alreadyInRoomNotice (room : jsstring) : jsstring :=
  js "You are already in room: " ++ room.

(* ================================================================== *)
(** * Strings and maps *)
(* ================================================================== *)

Lemma jseqb_eq (a b : jsstring) : jseqb a b = true <-> a = b.
Proof.
  revert b; induction a as [|x a IH]; intros [|y b]; simpl; split;
    try congruence; try reflexivity.
  - intros E. apply andb_true_iff in E as [E1 E2].
    apply N.eqb_eq in E1. apply IH in E2. congruence.
  - intros E. injection E as -> ->. rewrite N.eqb_refl. simpl. now apply IH.
Qed.

Lemma jseqb_refl (a : jsstring) : jseqb a a = true.
Proof. now apply jseqb_eq. Qed.

Lemma jseqb_neq (a b : jsstring) : jseqb a b = false <-> a <> b.
Proof.
  split.
  - intros E F. apply jseqb_eq in F. congruence.
  - intros F. destruct (jseqb a b) eqn:E; [|reflexivity].
    apply jseqb_eq in E. contradiction.
Qed.

Lemma jseqb_sym (a b : jsstring) : jseqb a b = jseqb b a.
Proof.
  destruct (jseqb a b) eqn:E, (jseqb b a) eqn:F; try reflexivity.
  - apply jseqb_eq in E. subst. now rewrite jseqb_refl in F.
  - apply jseqb_eq in F. subst. now rewrite jseqb_refl in E.
Qed.

Module JsMapFacts.
Section Facts.
Variable V : Type.
Implicit Types (m : JsMap.t V) (k : jsstring) (v : V).

Lemma get_set_same m k v : JsMap.get k (JsMap.set k v m) = Some v.
Proof.
  induction m as [|[k' v'] m IH]; simpl.
  - now rewrite jseqb_refl.
  - destruct (jseqb k' k) eqn:E; simpl; rewrite E; auto.
Qed.

Lemma get_set_other m k k' v :
  k' <> k -> JsMap.get k' (JsMap.set k v m) = JsMap.get k' m.
Proof.
  intros D. induction m as [|[k0 v0] m IH]; simpl.
  - apply not_eq_sym in D. apply jseqb_neq in D. now rewrite D.
  - destruct (jseqb k0 k) eqn:E; simpl.
    + apply jseqb_eq in E. subst k0.
      apply not_eq_sym in D. apply jseqb_neq in D. now rewrite D.
    + destruct (jseqb k0 k'); auto.
Qed.

Lemma get_In m k v : JsMap.get k m = Some v -> In v (JsMap.values m).
Proof.
  induction m as [|[k0 v0] m IH]; simpl; [discriminate|].
  destruct (jseqb k0 k); [intros [= ->]; now left | right; auto].
Qed.
End Facts.
End JsMapFacts.

(* ================================================================== *)
(** * The bounded buffer and the history of a room *)
(* ================================================================== *)

Lemma lastN_length {A} (n : Z) (l : list A) :
  0 <= n -> Z.of_nat (length (lastN n l)) <= n.
Proof. intros Hn. unfold lastN. rewrite length_skipn. lia. Qed.

Lemma lastN_all {A} (n : Z) (l : list A) :
  Z.of_nat (length l) <= n -> lastN n l = l.
Proof.
  intros Hl. unfold lastN.
  replace (Z.to_nat (Z.of_nat (length l) - n)) with 0%nat by lia. reflexivity.
Qed.

Lemma skipn_app_le {A} (k : nat) (l1 l2 : list A) :
  (k <= length l1)%nat -> skipn k (l1 ++ l2) = skipn k l1 ++ l2.
Proof.
  intros Hk. rewrite skipn_app.
  replace (k - length l1)%nat with 0%nat by lia. reflexivity.
Qed.

Lemma lastN_zero {A} (l : list A) : lastN 0 l = [].
Proof.
  unfold lastN. rewrite Z.sub_0_r, Nat2Z.id. apply skipn_all.
Qed.

Lemma lastN_snoc {A} (n : Z) (l : list A) (x : A) :
  0 <= n -> lastN n (lastN n l ++ [x]) = lastN n (l ++ [x]).
Proof.
  intros Hn. destruct (Z.eq_dec n 0) as [->|Hpos].
  - now rewrite !lastN_zero.
  - assert (Hlen : length (lastN n l)
                   = (length l - Z.to_nat (Z.of_nat (length l) - n))%nat).
    { unfold lastN. now rewrite length_skipn. }
    unfold lastN at 1 3. rewrite !length_app. simpl length.
    rewrite skipn_app_le by lia.
    unfold lastN. rewrite skipn_skipn.
    rewrite skipn_app_le by lia.
    f_equal. f_equal. rewrite length_skipn. lia.
Qed.

Lemma lastN_app_lastN {A} (n : Z) (a b : list A) :
  0 <= n -> lastN n (lastN n a ++ b) = lastN n (a ++ b).
Proof.
  intros Hn. revert a. induction b as [|x b IH] using rev_ind; intros a.
  - rewrite !app_nil_r. apply lastN_all. now apply lastN_length.
  - rewrite !app_assoc.
    rewrite <- (lastN_snoc (lastN n a ++ b)) by assumption.
    rewrite IH. now apply lastN_snoc.
Qed.

Module BoundedBufferFacts.
Section Facts.
Variable T : Type.
Implicit Types (b : BoundedBuffer T) (x : T).

Lemma maxSize_push b x : maxSize (BoundedBuffer.push x b) = maxSize b.
Proof. unfold BoundedBuffer.push. now destruct (_ >? _). Qed.

(** A push keeps the last [maxSize] items of the extended list. *)
Lemma items_push b x :
  0 <= maxSize b ->
  Z.of_nat (length (items b)) <= maxSize b ->
  items (BoundedBuffer.push x b) = lastN (maxSize b) (items b ++ [x]).
Proof.
  intros Hcap Hlen. unfold BoundedBuffer.push, BoundedBuffer.shift, lastN.
  rewrite length_app. simpl length.
  destruct (Z.gtb_spec (Z.of_nat (length (items b) + 1)) (maxSize b)); simpl.
  - replace (Z.to_nat _) with 1%nat by lia.
    destruct (items b ++ [x]) eqn:F; reflexivity.
  - replace (Z.to_nat _) with 0%nat by lia. reflexivity.
Qed.

Lemma length_push b x :
  0 <= maxSize b ->
  Z.of_nat (length (items b)) <= maxSize b ->
  Z.of_nat (length (items (BoundedBuffer.push x b))) <= maxSize b.
Proof. intros. rewrite items_push by assumption. now apply lastN_length. Qed.
End Facts.
End BoundedBufferFacts.

(* ================================================================== *)
(** * What a computation leaves alone *)
(* ================================================================== *)

Section Frames.
Variable R : World -> World -> Prop.
Hypothesis R_refl : forall w, R w w.
Hypothesis R_trans : forall a b c, R a b -> R b c -> R a c.

Lemma preserves_ret {A} (a : A) : preserves R (ret a).
Proof. intros w. apply R_refl. Qed.

Lemma preserves_throw {A} (e : JsError) : preserves R (@throw A e).
Proof. intros w. apply R_refl. Qed.

Lemma preserves_bind {A B} (m : M A) (k : A -> M B) :
  preserves R m -> (forall a, preserves R (k a)) -> preserves R (bind m k).
Proof.
  intros Hm Hk w. specialize (Hm w). unfold exec, bind in *.
  destruct (m w) as [[a|err] w1]; simpl in *; [|assumption].
  eapply R_trans; [exact Hm | apply Hk].
Qed.

Lemma preserves_try_catch {A} (m : M A) (k : JsError -> M A) :
  preserves R m -> (forall e, preserves R (k e)) -> preserves R (try_catch m k).
Proof.
  intros Hm Hk w. specialize (Hm w). unfold exec, try_catch in *.
  destruct (m w) as [[a|err] w1]; simpl in *; [assumption|].
  eapply R_trans; [exact Hm | apply Hk].
Qed.

Lemma preserves_when b (m : M unit) : preserves R m -> preserves R (when b m).
Proof. destruct b; simpl; auto using preserves_ret. Qed.

Lemma preserves_forEach {A} (l : list A) (f : A -> M unit) :
  (forall x, preserves R (f x)) -> preserves R (forEach l f).
Proof.
  intros Hf. induction l as [|x l IH]; simpl.
  - apply preserves_ret.
  - apply preserves_bind; auto.
Qed.

Lemma preserves_getSession h : preserves R (getSession h).
Proof.
  intros w. unfold exec, getSession. destruct (nth_error _ _); apply R_refl.
Qed.

Lemma preserves_getChatState : preserves R getChatState.
Proof. intros w. apply R_refl. Qed.
End Frames.

(** Takes a goal [preserves R m] apart along the structure of [m]; [base]
    closes the goals about single steps. *)
Ltac frame refl trans base :=
  repeat first
    [ base
    | apply preserves_ret; exact refl
    | apply preserves_throw; exact refl
    | apply preserves_getSession; exact refl
    | apply preserves_getChatState; exact refl
    | apply preserves_bind; [exact trans | | intros ?]
    | apply preserves_try_catch; [exact trans | | intros ?]
    | apply preserves_when; [exact refl |]
    | apply preserves_forEach; [exact refl | exact trans | intros ?] ].

(** ** Listeners only talk to the user interface *)

Lemma addUi_nil w : addUi [] w = w.
Proof. destruct w. unfold addUi. simpl. now rewrite app_nil_r. Qed.

Lemma addUi_addUi a b w : addUi b (addUi a w) = addUi (a ++ b) w.
Proof. unfold addUi. simpl. now rewrite app_assoc. Qed.

Lemma uiRel_refl w : uiRel w w.
Proof. exists []. now rewrite addUi_nil. Qed.

Lemma uiRel_trans a b c : uiRel a b -> uiRel b c -> uiRel a c.
Proof. intros [x ->] [y ->]. exists (x ++ y). apply addUi_addUi. Qed.

Lemma uiOnly_callback h ev : uiOnly (callback h ev).
Proof. intros w. now exists [(h, ev)]. Qed.

Ltac ui_frame base := frame uiRel_refl uiRel_trans ltac:(first [apply uiOnly_callback | base]).

Lemma uiOnly_updateUserList h : uiOnly (UserSession.updateUserList h).
Proof. unfold uiOnly, UserSession.updateUserList. ui_frame fail. Qed.

Lemma uiOnly_stateListener l ev : uiOnly (UserSession.stateListener l ev).
Proof.
  unfold uiOnly, UserSession.stateListener.
  apply preserves_bind; [exact uiRel_trans | ui_frame fail | intros s].
  destruct (event l), ev; ui_frame ltac:(apply uiOnly_updateUserList).
Qed.

Lemma uiOnly_emit ev : uiOnly (ChatState.emit UserSession.stateListener ev).
Proof.
  unfold uiOnly, ChatState.emit. ui_frame ltac:(apply uiOnly_stateListener).
Qed.

Lemma exec_addMessage message w :
  exists extra,
    exec (UserSession.chatState_addMessage message) w
    = addUi extra (withChatState (pushed message (chatState w)) w).
Proof.
  unfold UserSession.chatState_addMessage, ChatState.addMessage.
  unfold exec, bind at 1, getChatState.
  unfold bind at 1, setChatState.
  destruct (uiOnly_emit (EvMessage message)
              (withChatState (pushed message (chatState w)) w)) as [extra E].
  exists extra. exact E.
Qed.

Lemma chatState_addMessage message w :
  chatState (exec (UserSession.chatState_addMessage message) w)
  = pushed message (chatState w).
Proof. destruct (exec_addMessage message w) as [extra ->]. reflexivity. Qed.

(* ================================================================== *)
(** * The history of a room is bounded (C3) *)
(* ================================================================== *)

Lemma historyInvariant_new cap : historyInvariant (ChatState.new cap).
Proof. intros R buffer. discriminate. Qed.

Lemma maxMessagesPerRoom_pushed m d :
  maxMessagesPerRoom (pushed m d) = maxMessagesPerRoom d.
Proof. reflexivity. Qed.

Lemma history_pushed m d R :
  0 <= maxMessagesPerRoom d ->
  historyInvariant d ->
  history R (pushed m d)
  = if inRoom R m then lastN (maxMessagesPerRoom d) (history R d ++ [m])
    else history R d.
Proof.
  intros Hcap Hinv. unfold history, ChatState.getRecentMessages, pushed, inRoom.
  simpl roomMessages.
  destruct (jseqb (ChatMessage.room m) R) eqn:E.
  - apply jseqb_eq in E. subst R.
    rewrite JsMapFacts.get_set_same. unfold BoundedBuffer.getAll.
    destruct (JsMap.get (ChatMessage.room m) (roomMessages d)) as [b|] eqn:G.
    + destruct (Hinv _ _ G) as [Hm Hl].
      rewrite BoundedBufferFacts.items_push by lia. now rewrite Hm.
    + rewrite BoundedBufferFacts.items_push by (simpl; lia). reflexivity.
  - apply jseqb_neq in E.
    rewrite JsMapFacts.get_set_other by congruence. reflexivity.
Qed.

Lemma historyInvariant_pushed m d :
  0 <= maxMessagesPerRoom d -> historyInvariant d -> historyInvariant (pushed m d).
Proof.
  intros Hcap Hinv R buffer. unfold pushed. simpl.
  destruct (jseqb (ChatMessage.room m) R) eqn:E.
  - apply jseqb_eq in E. subst R. rewrite JsMapFacts.get_set_same.
    intros [= <-]. rewrite BoundedBufferFacts.maxSize_push.
    destruct (JsMap.get (ChatMessage.room m) (roomMessages d)) as [b|] eqn:G.
    + destruct (Hinv _ _ G) as [Hm Hl]. split; [assumption|].
      rewrite <- Hm. apply BoundedBufferFacts.length_push; lia.
    + split; [reflexivity|].
      apply (@BoundedBufferFacts.length_push ChatMessage.t
               (BoundedBuffer.new ChatMessage.t (maxMessagesPerRoom d)) m);
        simpl; lia.
  - apply jseqb_neq in E.
    rewrite JsMapFacts.get_set_other by congruence. apply Hinv.
Qed.

Lemma history_within_capacity d R :
  historyInvariant d -> 0 <= maxMessagesPerRoom d ->
  Z.of_nat (length (history R d)) <= maxMessagesPerRoom d.
Proof.
  intros Hinv Hcap. unfold history, ChatState.getRecentMessages.
  destruct (JsMap.get R (roomMessages d)) as [b|] eqn:G; simpl; [|lia].
  now destruct (Hinv _ _ G).
Qed.

Lemma addMessages_spec ms : forall w R,
  0 <= maxMessagesPerRoom (chatState w) ->
  historyInvariant (chatState w) ->
  maxMessagesPerRoom (chatState (addMessages ms w)) = maxMessagesPerRoom (chatState w)
  /\ historyInvariant (chatState (addMessages ms w))
  /\ history R (chatState (addMessages ms w))
     = lastN (maxMessagesPerRoom (chatState w))
             (history R (chatState w) ++ filter (inRoom R) ms).
Proof.
  induction ms as [|m ms IH]; intros w R Hcap Hinv; simpl.
  - split; [reflexivity|]. split; [assumption|]. rewrite app_nil_r. symmetry.
    apply lastN_all. now apply history_within_capacity.
  - destruct (IH (exec (UserSession.chatState_addMessage m) w) R) as (Hc & Hi & Hh);
      rewrite ?chatState_addMessage, ?maxMessagesPerRoom_pushed;
      auto using historyInvariant_pushed.
    rewrite chatState_addMessage in *. rewrite maxMessagesPerRoom_pushed in *.
    split; [assumption|]. split; [assumption|]. rewrite Hh.
    rewrite history_pushed by assumption.
    destruct (inRoom R m).
    + rewrite lastN_app_lastN by assumption. now rewrite <- app_assoc.
    + reflexivity.
Qed.

(** C3.  In a directory of capacity at least zero whose buffers respect the
    capacity (as the buffers of a new directory do), after any sequence of
    [addMessage] calls every room holds at most [maxMessagesPerRoom]
    messages, namely the last ones sent to it; so when one more than the
    capacity is pushed into an empty room the first is evicted, the
    others are kept and the length is the capacity. *)
Theorem history_bounded (w : World) (ms : list ChatMessage.t) (R : jsstring) :
  0 <= maxMessagesPerRoom (chatState w) ->
  historyInvariant (chatState w) ->
  let cap := maxMessagesPerRoom (chatState w) in
  let d' := chatState (addMessages ms w) in
  historyInvariant d'
  /\ Z.of_nat (length (history R d')) <= cap
  /\ history R d' = lastN cap (history R (chatState w) ++ filter (inRoom R) ms)
  /\ (history R (chatState w) = [] ->
      forall first rest,
        filter (inRoom R) ms = first :: rest ->
        Z.of_nat (length rest) = cap ->
        history R d' = rest /\ Z.of_nat (length (history R d')) = cap).
Proof.
  intros Hcap Hinv cap d'.
  destruct (addMessages_spec ms w R Hcap Hinv) as (Hc & Hi & Hh).
  fold d' in Hc, Hi, Hh. fold cap in Hh.
  assert (Hlen : Z.of_nat (length (history R d')) <= cap).
  { unfold cap. rewrite <- Hc. apply history_within_capacity; [assumption | lia]. }
  split; [assumption|]. split; [assumption|]. split; [assumption|].
  intros Hempty first rest Hms Hrest.
  assert (E : history R d' = rest).
  { rewrite Hh, Hempty, Hms. simpl. unfold lastN. simpl length.
    replace (Z.to_nat _) with 1%nat by lia. reflexivity. }
  split; [assumption | now rewrite E].
Qed.

(* ================================================================== *)
(** * The rate limiter (C4) *)
(* ================================================================== *)

Lemma filter_window (now w : Z) (ts : list Z) :
  filter (fun t => t >? now - w) ts = filter (fun t => now - w <? t) ts.
Proof. apply filter_ext. intros t. apply Z.gtb_ltb. Qed.

Lemma canProceed_eq (ts : list Z) (max : Z) (e : Env) :
  RateLimiter.canProceed {| timestamps := ts; maxRequests := max; windowMs := 1000 |} e
  = (Z.of_nat (length (withinLastSecond (clock e (clockTick e)) ts)) <? max,
     {| timestamps := withinLastSecond (clock e (clockTick e)) ts;
        maxRequests := max; windowMs := 1000 |},
     snd (Date_now e)).
Proof.
  unfold RateLimiter.canProceed, withinLastSecond. simpl.
  now rewrite filter_window.
Qed.

Lemma record_eq (ts : list Z) (max : Z) (e : Env) :
  RateLimiter.record {| timestamps := ts; maxRequests := max; windowMs := 1000 |} e
  = let recent := withinLastSecond (clock e (clockTick e)) ts in
    if Z.of_nat (length recent) <? max
    then (true,
          {| timestamps := recent ++ [clock e (S (clockTick e))];
             maxRequests := max; windowMs := 1000 |},
          snd (Date_now (snd (Date_now e))))
    else (false,
          {| timestamps := recent; maxRequests := max; windowMs := 1000 |},
          snd (Date_now e)).
Proof.
  unfold RateLimiter.record. rewrite canProceed_eq. cbv zeta.
  destruct (_ <? max); reflexivity.
Qed.

Lemma withinLastSecond_all (t0 now : Z) (ts : list Z) :
  now < t0 + 1000 -> Forall (fun t => t0 <= t) ts -> withinLastSecond now ts = ts.
Proof.
  intros Hnow Hts. unfold withinLastSecond.
  induction Hts as [|t ts Ht _ IH]; simpl; [reflexivity|].
  rewrite IH. destruct (Z.ltb_spec (now - 1000) t); [reflexivity | lia].
Qed.

Lemma seq_shift_map {A} (f : nat -> A) (k n : nat) :
  map f (seq (S n) k) = map (fun i => f (S i)) (seq n k).
Proof. rewrite <- seq_shift. now rewrite map_map. Qed.

(** Within one window nothing expires: a call is let through exactly while
    fewer than the limit have been let through. *)
Lemma records_in_window (t0 max : Z) (k : nat) : forall ts e,
  (forall i, t0 <= clock e i < t0 + 1000) ->
  Forall (fun t => t0 <= t) ts ->
  fst (fst (records k {| timestamps := ts; maxRequests := max; windowMs := 1000 |} e))
  = map (fun i => Z.of_nat (length ts + i) <? max) (seq 0 k).
Proof.
  induction k as [|k IH]; intros ts e Hclock Hts; [reflexivity|].
  cbn [records]. rewrite record_eq. cbv zeta.
  rewrite (@withinLastSecond_all t0) by (auto; apply Hclock).
  cbn [seq map]. rewrite Nat.add_0_r.
  destruct (Z.ltb_spec (Z.of_nat (length ts)) max) as [Hlt|Hge].
  - specialize (IH (ts ++ [clock e (S (clockTick e))]) (snd (Date_now (snd (Date_now e))))).
    destruct (records k _ _) as [[oks rl2] e2]. simpl in IH |- *.
    rewrite IH.
    + f_equal. rewrite seq_shift_map. apply map_ext. intros i.
      rewrite length_app. simpl. f_equal. lia.
    + exact Hclock.
    + apply Forall_app. split; [assumption|]. constructor; [apply Hclock | constructor].
  - specialize (IH ts (snd (Date_now e))).
    destruct (records k _ _) as [[oks rl2] e2]. simpl in IH |- *.
    rewrite IH by assumption.
    f_equal. rewrite seq_shift_map. apply map_ext_in. intros i _.
    destruct (Z.ltb_spec (Z.of_nat (length ts + i)) max);
      destruct (Z.ltb_spec (Z.of_nat (length ts + S i)) max); try reflexivity; lia.
Qed.

(** C4.  [canProceed] answers true exactly when fewer than the limit of
    the recorded timestamps lie within the last 1000 ms of the clock
    reading, and it keeps those only.  [record] answers false and keeps
    just those when [canProceed] is false; otherwise it appends the next
    clock reading and answers true.  With limit 10, of eleven calls whose
    clock readings lie in one window of 1000 ms the first ten are let through
    and the eleventh is refused. *)
Theorem rate_limiter_sliding_window (ts : list Z) (max : Z) (e : Env) :
  let rl := {| timestamps := ts; maxRequests := max; windowMs := 1000 |} in
  let now := clock e (clockTick e) in
  let recent := withinLastSecond now ts in
  (fst (fst (RateLimiter.canProceed rl e)) = true <-> Z.of_nat (length recent) < max)
  /\ timestamps (snd (fst (RateLimiter.canProceed rl e))) = recent
  /\ (fst (fst (RateLimiter.canProceed rl e)) = false ->
      fst (fst (RateLimiter.record rl e)) = false
      /\ timestamps (snd (fst (RateLimiter.record rl e))) = recent)
  /\ (fst (fst (RateLimiter.canProceed rl e)) = true ->
      fst (fst (RateLimiter.record rl e)) = true
      /\ timestamps (snd (fst (RateLimiter.record rl e)))
         = recent ++ [clock e (S (clockTick e))])
  /\ (forall t0,
        (forall i, t0 <= clock e i < t0 + 1000) ->
        fst (fst (records 11 (RateLimiter.new 10) e)) = repeat true 10 ++ [false]).
Proof.
  intros rl now recent. unfold rl.
  split; [|split; [|split; [|split]]].
  - rewrite canProceed_eq. simpl. apply Z.ltb_lt.
  - rewrite canProceed_eq. reflexivity.
  - rewrite canProceed_eq, record_eq. cbv zeta. fold now. fold recent. simpl.
    intros ->. auto.
  - rewrite canProceed_eq, record_eq. cbv zeta. fold now. fold recent. simpl.
    intros ->. auto.
  - intros t0 Hclock. unfold RateLimiter.new.
    now rewrite (@records_in_window t0 10 11 [] e Hclock).
Qed.

(* ================================================================== *)
(** * Nicknames in use (C5) *)
(* ================================================================== *)

Section NickTaken.
Context `{JsPlatform}.

Lemma isNickTakenIn_excluding (us : list UserInfo.t) (n r s : jsstring) :
  s <> [] ->
  (ChatState.isNickTakenIn us n r (Some s) = true
   <-> exists u, In u us /\ holdsNick n r u /\ UserInfo.sessionId u <> s).
Proof.
  intros Hs. assert (Ts : truthy s = true) by (destruct s; [now elim Hs | reflexivity]).
  unfold holdsNick.
  induction us as [|user rest IH]; simpl.
  - split; [discriminate | intros (u & [] & _)].
  - rewrite Ts. simpl.
    destruct (jseqb (UserInfo.room user) r) eqn:Er;
      destruct (jseqb (toLowerCase (UserInfo.nick user)) (toLowerCase n)) eqn:En;
      simpl; try destruct (jseqb (UserInfo.sessionId user) s) eqn:Es;
      rewrite ?jseqb_eq, ?jseqb_neq in *; try rewrite IH;
      (split;
       [ intros Hex;
         first [ destruct Hex as (u & Hu & Hh & Hne); exists u; now auto
               | exists user; now auto ]
       | intros (u & [<-|Hu] & (Hr & Hn) & Hne);
         first [ reflexivity | contradiction | exists u; now auto ] ]).
Qed.

Lemma isNickTakenIn_nobody_excluded (us : list UserInfo.t) (n r : jsstring)
    (ex : option jsstring) :
  ex = None \/ ex = Some [] ->
  (ChatState.isNickTakenIn us n r ex = true
   <-> exists u, In u us /\ holdsNick n r u).
Proof.
  intros Hex. unfold holdsNick.
  assert (E : forall user, match ex with
                     | Some s => truthy s && jseqb (UserInfo.sessionId user) s
                     | None => false
                     end = false) by (destruct Hex as [->| ->]; reflexivity).
  induction us as [|user rest IH]; simpl.
  - split; [discriminate | intros (u & [] & _)].
  - rewrite E.
    destruct (jseqb (UserInfo.room user) r) eqn:Er;
      destruct (jseqb (toLowerCase (UserInfo.nick user)) (toLowerCase n)) eqn:En;
      simpl; rewrite ?jseqb_eq, ?jseqb_neq in *; try rewrite IH;
      (split;
       [ intros Hyp;
         first [ destruct Hyp as (u & Hu & Hh); exists u; now auto
               | exists user; now auto ]
       | intros (u & [<-|Hu] & (Hr & Hn));
         first [ reflexivity | contradiction | exists u; now auto ] ]).
Qed.

(** C5, as the code has it.  With a session id [s] other than the empty
    string excluded, the nick is taken exactly when a registered user
    other than [s] holds it in the room, up to case; hence a user who
    asserts a nick that nobody else holds in the room, with their own
    id excluded, is told that it is free.  When no id or the empty
    string is given nobody is excluded. *)
Theorem isNickTaken_iff (d : ChatState) (n r s : jsstring) :
  s <> [] ->
  let registered := JsMap.values (users d) in
  (ChatState.isNickTaken n r (Some s) d = true
   <-> exists u, In u registered /\ holdsNick n r u /\ UserInfo.sessionId u <> s)
  /\ ((forall u, In u registered -> holdsNick n r u -> UserInfo.sessionId u = s) ->
      ChatState.isNickTaken n r (Some s) d = false)
  /\ (ChatState.isNickTaken n r None d = true
      <-> exists u, In u registered /\ holdsNick n r u)
  /\ (ChatState.isNickTaken n r (Some []) d = true
      <-> exists u, In u registered /\ holdsNick n r u).
Proof.
  intros Hs registered. unfold ChatState.isNickTaken. fold registered.
  split; [now apply isNickTakenIn_excluding|].
  split.
  - intros Honly.
    destruct (ChatState.isNickTakenIn registered n r (Some s)) eqn:E; [|reflexivity].
    apply isNickTakenIn_excluding in E as (u & Hu & Hh & Hne); [|assumption].
    elim Hne. now apply Honly.
  - split; apply isNickTakenIn_nobody_excluded; auto.
Qed.
End NickTaken.

(* ================================================================== *)
(** * Sanitising names (C9, C10) *)
(* ================================================================== *)

Lemma filter_id {A} (p : A -> bool) (l : list A) :
  Forall (fun x => p x = true) l -> filter p l = l.
Proof.
  induction 1 as [|x l Hx _ IH]; simpl; [reflexivity|]. now rewrite Hx, IH.
Qed.

Lemma Forall_filter_true {A} (p : A -> bool) (l : list A) :
  Forall (fun x => p x = true) (filter p l).
Proof.
  apply Forall_forall. intros x Hx. now apply filter_In in Hx.
Qed.

Lemma Forall_firstn {A} (P : A -> Prop) (n : nat) (l : list A) :
  Forall P l -> Forall P (firstn n l).
Proof.
  intros Hl. revert n. induction Hl as [|x l Hx _ IH]; intros [|n]; simpl;
    constructor; auto.
Qed.

Lemma nameUnits_sanitizeNick (x : jsstring) : nameUnits (Commands.sanitizeNick x).
Proof. apply Forall_firstn, Forall_filter_true. Qed.

Lemma length_sanitizeNick (x : jsstring) : (length (Commands.sanitizeNick x) <= 32)%nat.
Proof. unfold Commands.sanitizeNick. rewrite length_firstn. lia. Qed.

Lemma sanitizeNick_nameUnits (s : jsstring) :
  nameUnits s -> (length s <= 32)%nat -> Commands.sanitizeNick s = s.
Proof.
  intros Hs Hl. unfold Commands.sanitizeNick, Commands.stripOthers.
  rewrite filter_id by assumption. now apply firstn_all2.
Qed.

Lemma isNameUnit_lowerUnit (c : N) :
  Commands.isNameUnit c = true -> Commands.isNameUnit (lowerUnit c) = true.
Proof.
  intros Hc. unfold lowerUnit.
  destruct ((65 <=? c) && (c <=? 90))%N eqn:E; [|assumption].
  unfold Commands.isNameUnit.
  apply andb_true_iff in E as [E1 E2]. apply N.leb_le in E1, E2.
  replace ((97 <=? c + 32) && (c + 32 <=? 122))%N with true; [reflexivity|].
  symmetry. apply andb_true_iff. split; apply N.leb_le; lia.
Qed.

Lemma lowerUnit_idempotent (c : N) : lowerUnit (lowerUnit c) = lowerUnit c.
Proof.
  unfold lowerUnit.
  destruct ((65 <=? c) && (c <=? 90))%N eqn:E; [|now rewrite E].
  apply andb_true_iff in E as [E1 E2]. apply N.leb_le in E1, E2.
  replace ((65 <=? c + 32) && (c + 32 <=? 90))%N with false; [reflexivity|].
  symmetry. apply andb_false_iff. right. apply N.leb_gt. lia.
Qed.

Section Sanitize.
Context `{JsPlatform}.

(** C9.  Both sanitisers are idempotent, the room sanitiser yields a
    string that lowercasing leaves as it is, and both yield strings of
    at most 32 units of the class [a-zA-Z0-9_-]. *)
Theorem sanitize_idempotent (x : jsstring) :
  lowersBasicLatin ->
  Commands.sanitizeNick (Commands.sanitizeNick x) = Commands.sanitizeNick x
  /\ Commands.sanitizeRoomName (Commands.sanitizeRoomName x) = Commands.sanitizeRoomName x
  /\ toLowerCase (Commands.sanitizeRoomName x) = Commands.sanitizeRoomName x
  /\ nameUnits (Commands.sanitizeNick x)
  /\ nameUnits (Commands.sanitizeRoomName x)
  /\ (length (Commands.sanitizeNick x) <= 32)%nat
  /\ (length (Commands.sanitizeRoomName x) <= 32)%nat.
Proof.
  intros Hlow.
  assert (Hn : nameUnits (Commands.sanitizeNick x)) by apply nameUnits_sanitizeNick.
  assert (Hl : (length (Commands.sanitizeNick x) <= 32)%nat) by apply length_sanitizeNick.
  assert (Er : Commands.sanitizeRoomName x = map lowerUnit (Commands.sanitizeNick x)).
  { unfold Commands.sanitizeRoomName. now apply Hlow. }
  assert (Hrn : nameUnits (Commands.sanitizeRoomName x)).
  { rewrite Er. apply Forall_map. unfold nameUnits in Hn.
    eapply Forall_impl; [|exact Hn]. apply isNameUnit_lowerUnit. }
  assert (Hrl : (length (Commands.sanitizeRoomName x) <= 32)%nat).
  { rewrite Er. now rewrite length_map. }
  assert (Hlr : toLowerCase (Commands.sanitizeRoomName x) = Commands.sanitizeRoomName x).
  { rewrite (Hlow _ Hrn). rewrite Er, map_map. apply map_ext.
    apply lowerUnit_idempotent. }
  repeat split; try assumption.
  - now apply sanitizeNick_nameUnits.
  - unfold Commands.sanitizeRoomName at 1.
    fold (Commands.sanitizeNick (Commands.sanitizeRoomName x)).
    now rewrite sanitizeNick_nameUnits.
Qed.
End Sanitize.

Section NickCommand.
Context `{JsPlatform}.

(** C10.  A sanitised nick has at most 32 units.  So for a session whose
    [maxNickLength] is 32 or more the test that guards the message
    "Nickname too long" is false for every argument, and the command
    does what it would do without the test: the value of
    [maxNickLength], once at least 32, plays no part. *)
Theorem nick_too_long_unreachable (ctx : CommandContext) (w : World) (s : UserSession) :
  nth_error (sessions w) (session ctx) = Some s ->
  32 <= maxNickLength (config s) ->
  (forall x, jslength (Commands.sanitizeNick x) <= 32)
  /\ (forall x, (jslength (Commands.sanitizeNick x) >? maxNickLength (config s)) = false)
  /\ execute Commands.nickCommand ctx w = nickCommand_without_length_check ctx w.
Proof.
  intros Hs Hmax.
  assert (Hlen : forall x, jslength (Commands.sanitizeNick x) <= 32).
  { intros x. unfold jslength. pose proof (length_sanitizeNick x). lia. }
  assert (Hguard : forall x,
             (jslength (Commands.sanitizeNick x) >? maxNickLength (config s)) = false).
  { intros x. specialize (Hlen x).
    destruct (Z.gtb_spec (jslength (Commands.sanitizeNick x)) (maxNickLength (config s)));
      [lia | reflexivity]. }
  split; [assumption|]. split; [assumption|].
  unfold nickCommand_without_length_check. simpl.
  destruct (Z.of_nat (length (args ctx)) <? 1); [reflexivity|].
  destruct (negb (truthy (Commands.sanitizeNick (hd [] (args ctx))))); [reflexivity|].
  unfold bind at 1. unfold Commands.maxNickLengthOf, bind, getSession, ret.
  rewrite Hs. now rewrite Hguard.
Qed.
End NickCommand.

(* ================================================================== *)
(** * Publishing to a room (C7) *)
(* ================================================================== *)


(* ================================================================== *)
(** * Sending while the rate limiter refuses (C8) *)
(* ================================================================== *)

Lemma sameSessions_refl w : sameSessions w w.
Proof. split; reflexivity. Qed.

Lemma sameSessions_trans a b c : sameSessions a b -> sameSessions b c -> sameSessions a c.
Proof. intros [H1 H2] [H3 H4]. split; congruence. Qed.

Lemma uiOnly_sameSessions {A} (m : M A) : uiOnly m -> preserves sameSessions m.
Proof. intros Hm w. destruct (Hm w) as [extra ->]. split; reflexivity. Qed.

Lemma sameSessions_askEnv {A} (f : Env -> A * Env) :
  (forall e, clock (snd (f e)) = clock e) -> preserves sameSessions (askEnv f).
Proof.
  intros Hf w. unfold exec, askEnv. specialize (Hf (env w)).
  destruct (f (env w)) as [a e]. split; [reflexivity | exact Hf].
Qed.

Lemma clock_createMessage ty r n f c o e :
  clock (snd (createMessage ty r n f c o e)) = clock e.
Proof. reflexivity. Qed.

Lemma sameSessions_overlayCall c : preserves sameSessions (overlayCall c).
Proof. intros w. split; reflexivity. Qed.

Lemma sameSessions_addMessage m :
  preserves sameSessions (UserSession.chatState_addMessage m).
Proof. intros w. destruct (exec_addMessage m w) as [extra ->]. split; reflexivity. Qed.

Ltac sessions_frame :=
  frame sameSessions_refl sameSessions_trans
    ltac:(first [ apply sameSessions_overlayCall
                | apply sameSessions_addMessage
                | apply uiOnly_sameSessions, uiOnly_callback
                | apply sameSessions_askEnv; intros ?; reflexivity ]).

Lemma sameSessions_router_sendMessage h r m :
  preserves sameSessions (ChatPubSub.sendMessage h r m).
Proof.
  unfold ChatPubSub.sendMessage, ChatPubSub.overlayPublish. sessions_frame.
  - destruct a0; sessions_frame.
  - destruct (includes _ _); sessions_frame.
Qed.

Lemma run_rateLimiter_record h w s :
  nth_error (sessions w) h = Some s ->
  UserSession.rateLimiter_record h w
  = (Normal (fst (fst (RateLimiter.record (rateLimiter s) (env w)))), asked h s w).
Proof.
  intros Hs. unfold UserSession.rateLimiter_record, asked, bind, getSession, askEnv, setSession, ret.
  rewrite Hs. destruct (RateLimiter.record _ _) as [[ok rl] e]. reflexivity.
Qed.

(** What [sendMessage] does for a connected session: refused, it leaves a
    notice; let through, whatever follows leaves the sessions alone. *)
Lemma sendMessage_connected h content w s :
  nth_error (sessions w) h = Some s ->
  _isConnected s = true ->
  if fst (fst (RateLimiter.record (rateLimiter s) (env w)))
  then sameSessions (asked h s w) (exec (UserSession.sendMessage h content) w)
  else UserSession.sendMessage h content w
       = (Normal tt, addUi [(h, onSystemMessage rateLimitNotice)] (asked h s w)).
Proof.
  intros Hs Hc.
  assert (Hrun : UserSession.sendMessage h content w
            = (if negb (fst (fst (RateLimiter.record (rateLimiter s) (env w))))
               then UserSession.showSystemMessage h rateLimitNotice
               else if negb (isMessageSizeValid content (maxMessageSize (config s)))
               then UserSession.showSystemMessage h
                      (js "Message too long (max "
                       ++ Number_toString (maxMessageSize (config s)) ++ js " bytes)")
               else
                 bind (askEnv (createTextMessage (_room s) (_nick s) (fingerprint s) content))
                   (fun message =>
                      try_catch
                        (bind (ChatPubSub.sendMessage h (_room s) message)
                           (fun _ => bind (callback h (onMessage message))
                              (fun _ => UserSession.chatState_addMessage message)))
                        (fun _ => UserSession.showSystemMessage h (js "Failed to send message"))))
              (asked h s w)).
  { unfold UserSession.sendMessage.
    unfold bind at 1. unfold getSession at 1. rewrite Hs, Hc. cbn [negb].
    unfold bind at 1. rewrite (@run_rateLimiter_record h w s Hs). reflexivity. }
  unfold exec. rewrite Hrun. clear Hrun.
  destruct (fst (fst (RateLimiter.record (rateLimiter s) (env w)))); cbn [negb].
  - match goal with
    | |- sameSessions ?w1 (snd (?m ?w1)) =>
        change (sameSessions w1 (exec m w1)); generalize w1
    end.
    match goal with |- forall w1, sameSessions w1 (exec ?m w1) =>
      change (preserves sameSessions m) end.
    destruct (negb (isMessageSizeValid content (maxMessageSize (config s))));
      unfold UserSession.showSystemMessage;
      frame sameSessions_refl sameSessions_trans
        ltac:(first [ apply sameSessions_router_sendMessage
                    | apply sameSessions_addMessage
                    | apply uiOnly_sameSessions, uiOnly_callback
                    | apply sameSessions_askEnv; intros ?; reflexivity ]).
  - reflexivity.
Qed.

Lemma nth_error_updateAt_same {A} (l : list A) : forall h x y,
  nth_error l h = Some y -> nth_error (updateAt h x l) h = Some x.
Proof.
  induction l as [|z l IH]; intros [|h] x y; simpl; try discriminate; auto.
  apply IH.
Qed.

Lemma letThrough_record h t0 limit k w s :
  nth_error (sessions w) h = Some s ->
  maxRequests (rateLimiter s) = limit ->
  windowMs (rateLimiter s) = 1000 ->
  length (timestamps (rateLimiter s)) = k ->
  Forall (fun t => t0 <= t) (timestamps (rateLimiter s)) ->
  (forall i, t0 <= clock (env w) i < t0 + 1000) ->
  RateLimiter.record (rateLimiter s) (env w)
  = if Z.of_nat k <? limit
    then (true,
          {| timestamps := timestamps (rateLimiter s) ++ [clock (env w) (S (clockTick (env w)))];
             maxRequests := limit; windowMs := 1000 |},
          snd (Date_now (snd (Date_now (env w)))))
    else (false,
          {| timestamps := timestamps (rateLimiter s); maxRequests := limit; windowMs := 1000 |},
          snd (Date_now (env w))).
Proof.
  intros Hs Hmax Hwin Hlen Hts Hclock.
  destruct (rateLimiter s) as [ts max win]. simpl in *. subst max win k.
  rewrite record_eq. cbv zeta.
  now rewrite (@withinLastSecond_all t0) by (auto; apply Hclock).
Qed.

Lemma letThrough_step h t0 limit k w content :
  letThrough h t0 limit k w ->
  Z.of_nat k < limit ->
  letThrough h t0 limit (S k) (exec (UserSession.sendMessage h content) w).
Proof.
  intros (s & Hs & Hc & Hmax & Hwin & Hlen & Hts & Hclock) Hk.
  pose proof (@sendMessage_connected h content w s Hs Hc) as Hsend.
  pose proof (@letThrough_record h t0 limit k w s Hs Hmax Hwin Hlen Hts Hclock) as Hrec.
  destruct (Z.ltb_spec (Z.of_nat k) limit) as [_|]; [|lia].
  unfold asked in Hsend. rewrite Hrec in Hsend. cbn [fst snd] in Hsend.
  destruct Hsend as [Hsess Hclk]. cbn [sessions env] in Hsess, Hclk.
  eexists. split.
  { rewrite Hsess. eapply nth_error_updateAt_same. exact Hs. }
  simpl. repeat split; try assumption.
  - rewrite length_app. simpl. lia.
  - apply Forall_app. split; [assumption|]. constructor; [apply Hclock | constructor].
  - rewrite Hclk. simpl. apply Hclock.
  - rewrite Hclk. simpl. apply Hclock.
Qed.

(** C8.  When a connected session sends a text message that its rate
    limiter refuses, the call returns normally having told the user so:
    the one callback invoked is the notice, the overlay is not called and
    the directory, and with it the history of every room, is as before.
    So with a limit of 3, when four messages are sent while the clock
    stays within one window, the fourth is neither echoed nor published
    nor added to the history. *)
Theorem rate_limited_message_discarded :
  (forall h content w s,
      nth_error (sessions w) h = Some s ->
      _isConnected s = true ->
      fst (fst (RateLimiter.record (rateLimiter s) (env w))) = false ->
      let w' := exec (UserSession.sendMessage h content) w in
      result (UserSession.sendMessage h content) w = Normal tt
      /\ ui w' = ui w ++ [(h, onSystemMessage rateLimitNotice)]
      /\ overlay w' = overlay w
      /\ chatState w' = chatState w
      /\ (forall R, history R (chatState w') = history R (chatState w)))
  /\
  (forall h c1 c2 c3 c4 w s t0,
      nth_error (sessions w) h = Some s ->
      _isConnected s = true ->
      rateLimiter s = RateLimiter.new 3 ->
      (forall i, t0 <= clock (env w) i < t0 + 1000) ->
      let w3 := exec (UserSession.sendMessage h c3)
                  (exec (UserSession.sendMessage h c2)
                     (exec (UserSession.sendMessage h c1) w)) in
      let w4 := exec (UserSession.sendMessage h c4) w3 in
      ui w4 = ui w3 ++ [(h, onSystemMessage rateLimitNotice)]
      /\ overlay w4 = overlay w3
      /\ chatState w4 = chatState w3
      /\ (forall R, history R (chatState w4) = history R (chatState w3))).
Proof.
  assert (Hrefused : forall h content w s,
      nth_error (sessions w) h = Some s ->
      _isConnected s = true ->
      fst (fst (RateLimiter.record (rateLimiter s) (env w))) = false ->
      let w' := exec (UserSession.sendMessage h content) w in
      result (UserSession.sendMessage h content) w = Normal tt
      /\ ui w' = ui w ++ [(h, onSystemMessage rateLimitNotice)]
      /\ overlay w' = overlay w
      /\ chatState w' = chatState w
      /\ (forall R, history R (chatState w') = history R (chatState w))).
  { intros h content w s Hs Hc Hno w'.
    pose proof (@sendMessage_connected h content w s Hs Hc) as Hsend.
    rewrite Hno in Hsend. unfold w', exec, result. rewrite Hsend.
    unfold asked. destruct (RateLimiter.record _ _) as [[ok rl] e]. simpl.
    repeat split. }
  split; [exact Hrefused|].
  intros h c1 c2 c3 c4 w s t0 Hs Hc Hrl Hclock w3 w4.
  assert (H0 : letThrough h t0 3 0 w).
  { exists s. rewrite Hrl. simpl. repeat split; auto; apply Hclock. }
  assert (H3 : letThrough h t0 3 3 w3).
  { unfold w3. repeat (apply letThrough_step; [|lia]). exact H0. }
  destruct H3 as (s3 & Hs3 & Hc3 & Hmax & Hwin & Hlen & Hts & Hclock3).
  apply (Hrefused h c4 w3 s3 Hs3 Hc3).
  rewrite (@letThrough_record h t0 3 3 w3 s3) by assumption. reflexivity.
Qed.

(* ================================================================== *)
(** * Operations of a session that is not connected (C1) *)
(* ================================================================== *)

Lemma fieldsKept_refl h w : fieldsKept h w w.
Proof. intros s Hs. exists s. auto. Qed.

Lemma fieldsKept_trans h a b c : fieldsKept h a b -> fieldsKept h b c -> fieldsKept h a c.
Proof.
  intros Hab Hbc s Hs. destruct (Hab s Hs) as (s1 & Hs1 & ? & ? & ?).
  destruct (Hbc s1 Hs1) as (s2 & Hs2 & ? & ? & ?). exists s2.
  repeat split; congruence.
Qed.

Lemma sameSessions_fieldsKept {A} (m : M A) h :
  preserves sameSessions m -> preserves (fieldsKept h) m.
Proof.
  intros Hm w s Hs. destruct (Hm w) as [E _]. rewrite E. exists s. auto.
Qed.

Lemma nth_error_updateAt_other {A} (l : list A) : forall h k x,
  h <> k -> nth_error (updateAt k x l) h = nth_error l h.
Proof.
  induction l as [|z l IH]; intros [|h] [|k] x D; simpl; try reflexivity;
    try contradiction. apply IH. congruence.
Qed.

Lemma nth_error_updateAt_none {A} (l : list A) : forall h x,
  nth_error l h = None -> updateAt h x l = l.
Proof.
  induction l as [|z l IH]; intros [|h] x; simpl; try reflexivity; try discriminate.
  intros E. now rewrite IH.
Qed.

(** Replacing the router's view of a session keeps the other fields. *)
Lemma fieldsKept_setSubscriptions h k subs :
  preserves (fieldsKept h) (ChatPubSub.setSubscriptions k subs).
Proof.
  intros w s Hs. unfold exec, ChatPubSub.setSubscriptions, modifySession, bind, getSession.
  destruct (nth_error (sessions w) k) as [sk|] eqn:Hk; simpl.
  - destruct (Nat.eq_dec h k) as [->|D].
    + rewrite (nth_error_updateAt_same _ _ _ Hk). eexists. split; [reflexivity|].
      assert (sk = s) by congruence. subst. auto.
    + rewrite nth_error_updateAt_other by assumption. exists s. auto.
  - exists s. auto.
Qed.

Lemma sameSessions_setChatState d : preserves sameSessions (setChatState d).
Proof. intros w. split; reflexivity. Qed.

Lemma sameSessions_setRoom sid r :
  preserves sameSessions (UserSession.chatState_setRoom sid r).
Proof.
  unfold UserSession.chatState_setRoom, ChatState.setRoom.
  apply preserves_bind; [exact sameSessions_trans | |intros d].
  { apply preserves_getChatState. exact sameSessions_refl. }
  destruct (JsMap.get sid (users d));
    frame sameSessions_refl sameSessions_trans
      ltac:(first [ apply sameSessions_setChatState
                  | apply uiOnly_sameSessions, uiOnly_emit ]).
Qed.

Ltac fields_frame h :=
  frame (fieldsKept_refl h) (fieldsKept_trans (h:=h))
    ltac:(first [ apply fieldsKept_setSubscriptions
                | apply sameSessions_fieldsKept;
                  first [ apply sameSessions_setRoom
                        | apply sameSessions_router_sendMessage
                        | apply sameSessions_addMessage
                        | apply sameSessions_overlayCall
                        | apply uiOnly_sameSessions, uiOnly_callback
                        | apply uiOnly_sameSessions, uiOnly_updateUserList
                        | apply sameSessions_askEnv; intros ?; reflexivity ] ]).

Lemma fieldsKept_router_joinRoom h k r handler :
  preserves (fieldsKept h) (ChatPubSub.joinRoom k r handler).
Proof.
  unfold ChatPubSub.joinRoom, ChatPubSub.getSubscriptions.
  fields_frame h. destruct (JsMap.has r a); fields_frame h.
Qed.

Lemma fieldsKept_joinRoom_rest h s newRoom :
  preserves (fieldsKept h) (joinRoom_rest h s newRoom).
Proof.
  unfold joinRoom_rest, UserSession.showSystemMessage.
  frame (fieldsKept_refl h) (fieldsKept_trans (h:=h))
    ltac:(first [ apply fieldsKept_router_joinRoom
                | apply sameSessions_fieldsKept;
                  first [ apply sameSessions_setRoom
                        | apply sameSessions_router_sendMessage
                        | apply sameSessions_addMessage
                        | apply uiOnly_sameSessions, uiOnly_callback
                        | apply uiOnly_sameSessions, uiOnly_updateUserList
                        | apply sameSessions_askEnv; intros ?; reflexivity ] ]).
Qed.


Section Disconnected.
Context `{JsPlatform}.

End Disconnected.

(* ================================================================== *)
(** * Runs of the model *)
(* ================================================================== *)


(** C2 fails on the code.  [destroy] ends by removing every listener of
    the directory that the sessions share, whoever registered it.  With
    two sessions started in one room, the second has its five listeners
    attached and is shown a message that somebody else adds to the room;
    once the first session has been destroyed no listener is left, and
    the second session is not shown such a message any more. *)
Theorem destroy_detaches_every_listener :
  (forall h w,
      result (UserSession.destroy h) w = Normal tt ->
      listeners (chatState (exec (UserSession.destroy h) w)) = [])
  /\ filter (fun l => Nat.eqb (owner l) 1) (listeners (chatState twoStarted))
     = [ {| event := ev_message; owner := 1 |};
         {| event := ev_user_join; owner := 1 |};
         {| event := ev_user_leave; owner := 1 |};
         {| event := ev_user_nick; owner := 1 |};
         {| event := ev_user_room; owner := 1 |} ]
  /\ ui (exec (UserSession.chatState_addMessage carolsMessage) twoStarted)
     = ui twoStarted ++ [(0%nat, onMessage carolsMessage); (1%nat, onMessage carolsMessage)]
  /\ (let afterDestroy := exec (UserSession.destroy 0) twoStarted in
      result (UserSession.destroy 0) twoStarted = Normal tt
      /\ option_map _isConnected (nth_error (sessions afterDestroy) 1) = Some true
      /\ listeners (chatState afterDestroy) = []
      /\ ui (exec (UserSession.chatState_addMessage carolsMessage) afterDestroy)
         = ui afterDestroy).
Proof.
  split.
  { intros h w. unfold result, exec, UserSession.destroy, bind.
    destruct (UserSession.disconnect h w) as [[[]|e] w1]; simpl; [reflexivity|discriminate]. }
  vm_compute. repeat split.
Qed.

(* ================================================================== *)
(** * The message codec (C6) *)
(* ================================================================== *)

(** ** UTF-8 *)

(** Linear arithmetic with division and remainder by constants. *)
Ltac lia_div := zify; Z.to_euclidean_division_equations; lia.

Lemma surrogate_bounds c :
  (isHighSurrogate c = true <-> (55296 <= c <= 56319)%N)
  /\ (isLowSurrogate c = true <-> (56320 <= c <= 57343)%N).
Proof.
  unfold isHighSurrogate, isLowSurrogate.
  rewrite !andb_true_iff, !N.leb_le. tauto.
Qed.

Lemma not_surrogate_scalar c :
  (c < 65536)%N -> isHighSurrogate c = false -> isLowSurrogate c = false -> scalar c.
Proof.
  intros Hc Hh Hl. unfold scalar.
  destruct (surrogate_bounds c) as [H1 H2].
  destruct (N.lt_ge_cases c 55296) as [|Hge]; [now left|right].
  split; [|lia].
  destruct (N.lt_ge_cases c 57344) as [Hlt|]; [|assumption].
  destruct (N.le_gt_cases c 56319).
  - rewrite (proj2 H1) in Hh by lia. discriminate.
  - rewrite (proj2 H2) in Hl by lia. discriminate.
Qed.

(** Turns a decided test into a fact of arithmetic. *)
Ltac test_fact E :=
  repeat match type of E with
  | context [(?a =? ?b)%N] => destruct (N.eqb_spec a b)
  end;
  cbn [andb orb negb] in E;
  rewrite ?andb_true_iff, ?andb_false_iff, ?orb_true_iff, ?orb_false_iff,
    ?N.leb_le, ?N.leb_gt, ?N.ltb_lt, ?N.ltb_ge in E.

(** Decides the test at the head of the left-hand side, as long as there
    is one; the branch that cannot be taken is closed by arithmetic. *)
Ltac decide_head :=
  repeat lazymatch goal with
  | |- (if ?c then _ else _) = _ =>
      let E := fresh "E" in
      destruct c eqn:E; test_fact E; try (exfalso; lia_div)
  end.

Lemma utf8Decode_bytes (cp : N) (rest : list N) :
  scalar cp ->
  utf8Decode 0 0 128 191 (utf8Bytes cp ++ rest) = cp :: utf8Decode 0 0 128 191 rest.
Proof.
  intros Hcp. unfold scalar in Hcp. unfold utf8Bytes.
  destruct (N.ltb_spec cp 128); [|destruct (N.ltb_spec cp 2048);
                                   [|destruct (N.ltb_spec cp 65536)]];
    cbn [app utf8Decode]; decide_head; f_equal; lia_div.
Qed.

Lemma utf8Decode_scalars (cps : list N) :
  Forall scalar cps -> utf8Decode 0 0 128 191 (flat_map utf8Bytes cps) = cps.
Proof.
  induction 1 as [|cp cps Hcp _ IH]; [reflexivity|].
  cbn [flat_map]. rewrite utf8Decode_bytes by assumption. now rewrite IH.
Qed.

Lemma pair_scalar c d :
  isHighSurrogate c = true -> isLowSurrogate d = true ->
  scalar (65536 + (c - 55296) * 1024 + (d - 56320))
  /\ utf16Units (65536 + (c - 55296) * 1024 + (d - 56320)) = [c; d].
Proof.
  intros Hc Hd.
  apply (proj1 (surrogate_bounds c)) in Hc. apply (proj2 (surrogate_bounds d)) in Hd.
  split; [right; lia|].
  unfold utf16Units. destruct (N.ltb_spec (65536 + (c - 55296) * 1024 + (d - 56320)) 65536);
    [lia|]. f_equal; [|f_equal]; lia_div.
Qed.

Lemma toScalarValues_wellPaired (t : jsstring) :
  wellPaired t ->
  Forall scalar (toScalarValues t) /\ flat_map utf16Units (toScalarValues t) = t.
Proof.
  induction 1 as [|c s Hc Hh Hl _ [IH1 IH2]|c d s Hc Hd _ [IH1 IH2]].
  - split; [constructor | reflexivity].
  - cbn [toScalarValues]. rewrite Hh, Hl. split.
    + constructor; [now apply not_surrogate_scalar | assumption].
    + cbn [flat_map]. rewrite IH2. unfold utf16Units.
      destruct (N.ltb_spec c 65536); [reflexivity | lia].
  - cbn [toScalarValues]. rewrite Hc, Hd.
    destruct (pair_scalar c d Hc Hd) as [Hs Hu]. split.
    + constructor; assumption.
    + cbn [flat_map]. rewrite Hu, IH2. reflexivity.
Qed.

(** Text that is well paired and does not start with a byte order mark
    comes back from UTF-8 as it went in. *)
Lemma TextDecoder_TextEncoder (t : jsstring) :
  wellPaired t -> hd 0%N t <> 65279%N ->
  TextDecoder_decode (TextEncoder_encode t) = t.
Proof.
  intros Ht Hbom. destruct (toScalarValues_wellPaired Ht) as [Hs Hu].
  unfold TextDecoder_decode, TextEncoder_encode.
  rewrite utf8Decode_scalars by assumption.
  assert (Hstrip : stripBOM (toScalarValues t) = toScalarValues t).
  { destruct Ht as [|c s Hc Hh Hl _|c d s Hc Hd _]; [reflexivity| |].
    - cbn [toScalarValues]. rewrite Hh, Hl. cbn [stripBOM hd] in *.
      destruct (N.eqb_spec c 65279); [contradiction | reflexivity].
    - cbn [toScalarValues]. rewrite Hc, Hd. cbn [stripBOM].
      apply (proj1 (surrogate_bounds c)) in Hc.
      apply (proj2 (surrogate_bounds d)) in Hd.
      destruct (N.eqb_spec (65536 + (c - 55296) * 1024 + (d - 56320)) 65279);
        [lia | reflexivity]. }
  now rewrite Hstrip.
Qed.

Lemma wellPaired_app (a b : jsstring) :
  wellPaired a -> wellPaired b -> wellPaired (a ++ b).
Proof.
  induction 1 as [|c s Hc Hh Hl _ IH|c d s Hc Hd _ IH]; intros Hb; cbn [app].
  - assumption.
  - apply wp_unit; auto.
  - apply wp_pair; auto.
Qed.

Lemma wellPaired_plain (s : jsstring) : Forall plainUnit s -> wellPaired s.
Proof.
  induction 1 as [|c s Hc _ IH]; constructor; try assumption; unfold plainUnit in Hc.
  - lia.
  - unfold isHighSurrogate. destruct (N.leb_spec 55296 c); [lia | reflexivity].
  - unfold isLowSurrogate. destruct (N.leb_spec 56320 c); [lia | reflexivity].
Qed.

(** ** Strings in JSON *)

(** An induction that follows [quoteBody], which reads one or two units. *)
Lemma pairwise_ind (P : jsstring -> Prop) :
  P [] -> (forall c, P [c]) ->
  (forall c d s, P s -> P (d :: s) -> P (c :: d :: s)) ->
  forall s, P s.
Proof.
  intros Hnil Hone Hstep s.
  assert (H : P s /\ forall c, P (c :: s)).
  { induction s as [|d s [IH1 IH2]]; split; auto. }
  apply H.
Qed.

Lemma parse_literal_unit (c : N) (t : jsstring) :
  (32 <= c)%N -> c <> 34%N -> c <> 92%N ->
  parseStringBody (c :: t) = consUnit c (parseStringBody t).
Proof.
  intros H1 H2 H3. cbn [parseStringBody].
  destruct (N.eqb_spec c 34); [contradiction|].
  destruct (N.eqb_spec c 92); [contradiction|].
  destruct (N.ltb_spec c 32); [lia|]. reflexivity.
Qed.

Lemma hexValue_hexDigit (d : N) : (d < 16)%N -> hexValue (hexDigit d) = Some d.
Proof.
  intros Hd. unfold hexDigit, hexValue.
  destruct (N.ltb_spec d 10).
  - destruct (N.leb_spec 48 (48 + d)); [|lia].
    destruct (N.leb_spec (48 + d) 57); [|lia]. cbn [andb]. f_equal. lia.
  - destruct (N.leb_spec 48 (87 + d)); [|lia].
    destruct (N.leb_spec (87 + d) 57); [lia|].
    destruct (N.leb_spec 97 (87 + d)); [|lia].
    destruct (N.leb_spec (87 + d) 102); [|lia]. cbn [andb]. f_equal. lia.
Qed.

Lemma parse_unicodeEscape (c : N) (t : jsstring) :
  (c < 65536)%N ->
  parseStringBody (unicodeEscape c ++ t) = consUnit c (parseStringBody t).
Proof.
  intros Hc. unfold unicodeEscape. cbn [app parseStringBody N.eqb Pos.eqb].
  unfold hex4. rewrite !hexValue_hexDigit by lia_div.
  replace ((c / 4096 * 16 + (c / 256) mod 16) * 16 + (c / 16) mod 16)%N
    with (c / 16)%N by lia_div.
  replace (c / 16 * 16 + c mod 16)%N with c by lia_div.
  reflexivity.
Qed.

Lemma parse_escapeUnit (c : N) (t : jsstring) :
  (c < 65536)%N ->
  parseStringBody (escapeUnit c ++ t) = consUnit c (parseStringBody t).
Proof.
  intros Hc. unfold escapeUnit.
  destruct (N.eqb_spec c 8); [subst; reflexivity|].
  destruct (N.eqb_spec c 9); [subst; reflexivity|].
  destruct (N.eqb_spec c 10); [subst; reflexivity|].
  destruct (N.eqb_spec c 12); [subst; reflexivity|].
  destruct (N.eqb_spec c 13); [subst; reflexivity|].
  destruct (N.eqb_spec c 34); [subst; reflexivity|].
  destruct (N.eqb_spec c 92); [subst; reflexivity|].
  destruct (N.ltb_spec c 32).
  - now apply parse_unicodeEscape.
  - cbn [app]. now apply parse_literal_unit.
Qed.

Lemma quoteBody_cons (c : N) (rest : jsstring) :
  quoteBody (c :: rest)
  = if isHighSurrogate c then
      match rest with
      | d :: rest' =>
          if isLowSurrogate d then c :: d :: quoteBody rest'
          else unicodeEscape c ++ quoteBody rest
      | [] => unicodeEscape c
      end
    else if isLowSurrogate c then unicodeEscape c ++ quoteBody rest
    else escapeUnit c ++ quoteBody rest.
Proof. reflexivity. Qed.

(** Reading a quoted string gives the string back. *)
Lemma parse_quoteBody (s : jsstring) :
  validString s ->
  forall rest, parseStringBody (quoteBody s ++ 34%N :: rest) = Some (s, rest).
Proof.
  unfold validString.
  induction s as [|c|c d s IH1 IH2] using pairwise_ind; intros Hs rest.
  - reflexivity.
  - inversion_clear Hs as [|? ? Hc _]. cbn [quoteBody].
    destruct (isHighSurrogate c); [|destruct (isLowSurrogate c)];
      rewrite <- ?app_assoc; cbn [app];
      rewrite ?parse_unicodeEscape, ?parse_escapeUnit by assumption; reflexivity.
  - inversion Hs as [|? ? Hc Hds]; subst. inversion Hds as [|? ? Hd Hs']; subst.
    rewrite (quoteBody_cons c (d :: s)). cbv beta iota.
    destruct (isHighSurrogate c) eqn:Eh.
    + destruct (isLowSurrogate d) eqn:El.
      * apply (proj1 (surrogate_bounds c)) in Eh.
        apply (proj2 (surrogate_bounds d)) in El.
        cbn [app]. rewrite parse_literal_unit by lia.
        rewrite parse_literal_unit by lia. now rewrite IH1.
      * rewrite <- app_assoc, parse_unicodeEscape by assumption.
        now rewrite IH2.
    + destruct (isLowSurrogate c).
      * rewrite <- app_assoc, parse_unicodeEscape by assumption.
        now rewrite IH2.
      * rewrite <- app_assoc, parse_escapeUnit by assumption.
        now rewrite IH2.
Qed.

Lemma hexDigit_plain (d : N) : (d < 16)%N -> plainUnit (hexDigit d).
Proof.
  unfold plainUnit, hexDigit. intros Hd. destruct (N.ltb_spec d 10); lia.
Qed.

Lemma wellPaired_unicodeEscape (c : N) (t : jsstring) :
  (c < 65536)%N -> wellPaired t -> wellPaired (unicodeEscape c ++ t).
Proof.
  intros Hc Ht. apply wellPaired_app; [|assumption].
  apply wellPaired_plain. unfold unicodeEscape.
  repeat constructor; try apply hexDigit_plain; try lia_div.
Qed.

Lemma wellPaired_escapeUnit (c : N) (t : jsstring) :
  (c < 65536)%N -> isHighSurrogate c = false -> isLowSurrogate c = false ->
  wellPaired t -> wellPaired (escapeUnit c ++ t).
Proof.
  intros Hc Hh Hl Ht. unfold escapeUnit.
  repeat match goal with
  | |- context [(c =? ?k)%N] =>
      destruct (N.eqb_spec c k);
      [apply wellPaired_app; [apply wellPaired_plain; repeat constructor | assumption]|]
  end.
  destruct (N.ltb_spec c 32).
  - now apply wellPaired_unicodeEscape.
  - cbn [app]. now apply wp_unit.
Qed.

Lemma wellPaired_quoteBody (s : jsstring) :
  validString s -> wellPaired (quoteBody s).
Proof.
  unfold validString.
  induction s as [|c|c d s IH1 IH2] using pairwise_ind; intros Hs.
  - constructor.
  - inversion_clear Hs as [|? ? Hc _]. cbn [quoteBody].
    destruct (isHighSurrogate c) eqn:Eh; [|destruct (isLowSurrogate c) eqn:El].
    + rewrite <- (app_nil_r (unicodeEscape c)).
      apply wellPaired_unicodeEscape; [assumption | constructor].
    + apply wellPaired_unicodeEscape; [assumption | constructor].
    + apply wellPaired_escapeUnit; try assumption. constructor.
  - inversion Hs as [|? ? Hc Hds]; subst. inversion Hds as [|? ? Hd Hs']; subst.
    rewrite (quoteBody_cons c (d :: s)). cbv beta iota.
    destruct (isHighSurrogate c) eqn:Eh.
    + destruct (isLowSurrogate d) eqn:El.
      * apply wp_pair; auto.
      * apply wellPaired_unicodeEscape; auto.
    + destruct (isLowSurrogate c) eqn:El.
      * apply wellPaired_unicodeEscape; auto.
      * apply wellPaired_escapeUnit; auto.
Qed.

Lemma wellPaired_QuoteJSONString (s : jsstring) :
  validString s -> wellPaired (QuoteJSONString s).
Proof.
  intros Hs. unfold QuoteJSONString, dquote.
  apply wellPaired_app; [apply wellPaired_plain; repeat constructor|].
  apply wellPaired_app; [now apply wellPaired_quoteBody|].
  apply wellPaired_plain; repeat constructor.
Qed.

(** ** Numbers in JSON *)

Lemma readDigits_digitChars (d : Decimal.uint) : forall acc count rest,
  noDigitAhead rest ->
  readDigits acc count (digitChars d ++ rest)
  = (uintValue d acc, (count + Decimal.nb_digits d)%nat, rest).
Proof.
  induction d; intros acc count rest Hrest.
  { change (digitChars Decimal.Nil) with (@nil N).
    cbn [app uintValue Decimal.nb_digits].
    rewrite Nat.add_0_r. destruct rest as [|c rest]; [reflexivity|].
    cbn [readDigits]. cbn in Hrest. now rewrite Hrest. }
  all: match goal with
       | |- context [digitChars (?D ?x)] =>
           let c := eval vm_compute in (hd 0%N (digitChars (D Decimal.Nil))) in
           change (digitChars (D x)) with (c :: digitChars x)
       end;
       cbn [app readDigits uintValue Decimal.nb_digits];
       match goal with
       | |- context [isDigit ?c] =>
           let b := eval vm_compute in (isDigit c) in change (isDigit c) with b
       end;
       match goal with
       | |- context [(?c - 48)%N] =>
           let v := eval vm_compute in (c - 48)%N in change (c - 48)%N with v
       end;
       cbv iota;
       match goal with IH : forall _ _ _, _ -> _ |- _ => rewrite IH by assumption end;
       f_equal; f_equal; lia.
Qed.

Lemma uintValue_pos (d : Decimal.uint) : forall p,
  uintValue d (N.pos p) = N.pos (Pos.of_uint_acc d p).
Proof.
  induction d; intros p; cbn [uintValue Pos.of_uint_acc]; [reflexivity|..];
    rewrite <- IHd; f_equal; lia.
Qed.

Lemma uintValue_of_uint (d : Decimal.uint) : uintValue d 0 = N.of_uint d.
Proof.
  unfold N.of_uint.
  induction d; cbn [uintValue Pos.of_uint]; [reflexivity | exact IHd |..];
    cbn [N.mul N.add]; apply uintValue_pos.
Qed.

Lemma uintValue_lower (d : Decimal.uint) : forall acc,
  (acc * 10 ^ N.of_nat (Decimal.nb_digits d) <= uintValue d acc)%N.
Proof.
  induction d; intros acc; cbn [uintValue Decimal.nb_digits];
    [rewrite N.pow_0_r; lia|..];
    (eapply N.le_trans; [|apply IHd]);
    rewrite Nat2N.inj_succ, N.pow_succ_r'; nia.
Qed.

(** The digits that the library prints have no leading zero. *)
Lemma to_uint_head (n : N) :
  (0 < n)%N ->
  match N.to_uint n with
  | Decimal.Nil | Decimal.D0 _ => False
  | _ => True
  end.
Proof.
  intros Hn.
  pose proof (DecimalN.Unsigned.to_of (N.to_uint n)) as Hnorm.
  rewrite DecimalN.Unsigned.of_to in Hnorm.
  destruct (N.to_uint n) as [|l|l|l|l|l|l|l|l|l|l] eqn:E; try exact I.
  - now apply (DecimalFacts.unorm_nonnil (Decimal.D0 Decimal.Nil)).
  - unfold Decimal.unorm in Hnorm. cbn [Decimal.nzhead] in Hnorm.
    destruct (Decimal.nzhead l) eqn:Ez; try discriminate.
    + injection Hnorm as Hl. subst l.
      pose proof (DecimalN.Unsigned.of_to n) as Hof. rewrite E in Hof.
      cbn in Hof. lia.
    + eapply DecimalFacts.nzhead_nonzero. rewrite Ez. now rewrite Hnorm.
Qed.

Lemma to_uint_value (n : N) : uintValue (N.to_uint n) 0 = n.
Proof. rewrite uintValue_of_uint. apply DecimalN.Unsigned.of_to. Qed.

Lemma length_digitChars (d : Decimal.uint) :
  length (digitChars d) = Decimal.nb_digits d.
Proof.
  unfold digitChars, js.
  induction d; cbn [NilEmpty.string_of_uint list_ascii_of_string map length
                    Decimal.nb_digits]; congruence.
Qed.

Lemma nb_digits_bound (n : N) :
  (0 < n < 10 ^ 21)%N -> (Decimal.nb_digits (N.to_uint n) <= 21)%nat.
Proof.
  intros [Hpos Hlt]. pose proof (to_uint_head Hpos) as Hhead.
  pose proof (to_uint_value n) as Hval.
  destruct (N.to_uint n) as [|l|l|l|l|l|l|l|l|l|l]; try contradiction;
    cbn [uintValue Decimal.nb_digits] in *;
    match type of Hval with
    | uintValue l ?k = n =>
        pose proof (uintValue_lower l k) as Hlow; rewrite Hval in Hlow
    end;
    (assert (Hpow : (10 ^ N.of_nat (Decimal.nb_digits l) < 10 ^ 21)%N) by nia);
    apply N.pow_lt_mono_r_iff in Hpow; lia.
Qed.

Lemma dropZeros_spec (r : jsstring) :
  r = repeat 48%N (length r - length (dropZeros r)) ++ dropZeros r
  /\ (length (dropZeros r) <= length r)%nat.
Proof.
  induction r as [|c r [IH1 IH2]]; [split; reflexivity|].
  cbn [dropZeros]. destruct (N.eqb_spec c 48) as [->|].
  - split; [|cbn [length]; lia].
    cbn [length]. replace (S (length r) - length (dropZeros r))%nat
      with (S (length r - length (dropZeros r))) by lia.
    cbn [repeat app]. now rewrite <- IH1.
  - split; [|lia]. now rewrite Nat.sub_diag.
Qed.

Lemma rev_repeat_same {A} (x : A) (n : nat) : rev (repeat x n) = repeat x n.
Proof.
  induction n as [|n IH]; [reflexivity|]. cbn [repeat rev]. rewrite IH.
  clear IH. induction n as [|n IH]; [reflexivity|]. cbn [repeat app]. now rewrite IH.
Qed.

(** An integer below 10^21 is printed as its digits. *)
Lemma positiveToString_integer (ds : jsstring) :
  (length ds <= 21)%nat -> positiveToString ds 0 = ds.
Proof.
  intros Hlen. unfold positiveToString, jslength.
  destruct (dropZeros_spec (rev ds)) as [Hr Hl].
  rewrite length_rev in *. rewrite Z.add_0_r.
  destruct (Z.leb_spec (Z.of_nat (length (dropZeros (rev ds)))) (Z.of_nat (length ds)));
    [|lia].
  destruct (Z.leb_spec (Z.of_nat (length ds)) 21); [|lia]. cbn [andb].
  replace (Z.to_nat _) with (length ds - length (dropZeros (rev ds)))%nat by lia.
  apply (f_equal (@rev N)) in Hr.
  rewrite rev_involutive, rev_app_distr, rev_repeat_same in Hr. now symmetry.
Qed.

Lemma JsNumber_toString_integer (z : Z) :
  z <> 0 -> Z.abs z < 10 ^ 21 ->
  JsNumber_toString z 0
  = (if z <? 0 then js "-" else []) ++ digitChars (N.to_uint (Z.to_N (Z.abs z))).
Proof.
  intros Hz Hlt. unfold JsNumber_toString.
  destruct (Z.eqb_spec z 0); [contradiction|]. f_equal.
  apply positiveToString_integer. unfold digitsOf. fold (digitChars (N.to_uint (Z.to_N (Z.abs z)))).
  rewrite length_digitChars. apply nb_digits_bound. lia.
Qed.

Lemma parseUnsigned_integer (c : N) (t rest : jsstring) (n : N) (k : nat) :
  isDigit c = true -> (c =? 48)%N = false ->
  readDigits 0 0 (c :: t) = (n, k, 44%N :: rest) ->
  parseUnsigned (c :: t) = Some (Z.of_N n, 0, 44%N :: rest).
Proof.
  intros Hd Hz Hread. unfold parseUnsigned. rewrite Hd, Hz. cbn [negb].
  rewrite Hread. reflexivity.
Qed.

Lemma parseUnsigned_digits (n : N) (rest : jsstring) :
  (0 < n)%N ->
  parseUnsigned (digitChars (N.to_uint n) ++ 44%N :: rest)
  = Some (Z.of_N n, 0, 44%N :: rest).
Proof.
  intros Hpos. pose proof (to_uint_head Hpos) as Hhead.
  pose proof (to_uint_value n) as Hval.
  pose proof (@readDigits_digitChars (N.to_uint n) 0%N 0%nat (44%N :: rest) eq_refl) as Hread.
  rewrite Hval in Hread.
  destruct (N.to_uint n) as [|l|l|l|l|l|l|l|l|l|l]; try contradiction;
    match goal with
    | |- context [digitChars (?D l)] =>
        let c := eval vm_compute in (hd 0%N (digitChars (D Decimal.Nil))) in
        change (digitChars (D l)) with (c :: digitChars l) in *
    end;
    cbn [app] in *; eapply parseUnsigned_integer; try reflexivity; exact Hread.
Qed.

(** A member value that is an integer below 10^21 in absolute value
    reads back as that integer. *)
Lemma parseNumber_integer (z : Z) (rest : jsstring) :
  Z.abs z < 10 ^ 21 ->
  parseNumber (JsNumber_toString z 0 ++ 44%N :: rest) = Some (JNumber z 0, 44%N :: rest).
Proof.
  intros Hlt. destruct (Z.eq_dec z 0) as [->|Hz]; [reflexivity|].
  rewrite JsNumber_toString_integer by assumption.
  assert (Hn : (0 < Z.to_N (Z.abs z))%N) by lia.
  assert (Hmk : forall m, m <> 0 -> mkNumber m 0 = JNumber m 0).
  { intros m Hm. unfold mkNumber. destruct (Z.eqb_spec m 0); [contradiction|].
    cbn [Z.leb Z.compare]. now rewrite Z.pow_0_r, Z.mul_1_r. }
  destruct (Z.ltb_spec z 0).
  - rewrite <- app_assoc. change (js "-") with [45%N]. cbn [app].
    unfold parseNumber. cbn [N.eqb Pos.eqb].
    rewrite parseUnsigned_digits by assumption.
    rewrite Hmk by lia. repeat f_equal. lia.
  - cbn [app]. unfold parseNumber.
    pose proof (to_uint_head Hn) as Hhead.
    pose proof (parseUnsigned_digits rest Hn) as Hparse.
    destruct (digitChars (N.to_uint (Z.to_N (Z.abs z)))) as [|c t] eqn:Ed.
    + apply (f_equal (@length N)) in Ed. rewrite length_digitChars in Ed.
      destruct (N.to_uint (Z.to_N (Z.abs z))); try contradiction; discriminate.
    + cbn [app] in *.
      assert (Hc : (c =? 45)%N = false).
      { destruct (N.to_uint (Z.to_N (Z.abs z))); try contradiction;
          injection Ed as <- _; reflexivity. }
      rewrite Hc, Hparse, Hmk by lia. repeat f_equal. lia.
Qed.

(** ** The text of a message *)

Lemma stringify_message (m : ChatMessage.t) :
  JSON_stringify (messageObject m) = Some (messageText m).
Proof.
  unfold messageObject, messageText, messageTextWith, memberText, JInteger.
  cbn [JSON_stringify]. destruct (ChatMessage.oldNick m);
    cbn [JSON_stringify join]; f_equal;
    change (js "{") with [123%N]; change (js "}") with [125%N];
    change (js ",") with [44%N]; change (js ":") with [58%N];
    repeat rewrite <- app_assoc; reflexivity.
Qed.

Lemma QuoteJSONString_cons (s : jsstring) (rest : jsstring) :
  QuoteJSONString s ++ rest = 34%N :: quoteBody s ++ 34%N :: rest.
Proof.
  unfold QuoteJSONString, dquote. cbn [app]. now rewrite <- app_assoc.
Qed.

Lemma parseValue_string (f : nat) (v rest : jsstring) :
  validString v ->
  parseValue (S f) (QuoteJSONString v ++ rest) = Some (JString v, rest).
Proof.
  intros Hv. rewrite QuoteJSONString_cons. cbn [parseValue N.eqb Pos.eqb].
  now rewrite parse_quoteBody.
Qed.

Lemma parseMembers_key (f : nat) (acc : list (jsstring * JsValue))
    (key value rest : jsstring) :
  validString key ->
  (exists c t, value = c :: t /\ isJsonWhiteSpace c = false) ->
  parseMembers (S f) acc (memberText key value rest)
  = match parseValue f (value ++ rest) with
    | None => None
    | Some (v, s4) =>
        let acc' := JsMap.set key v acc in
        match skipWs s4 with
        | d :: s5 =>
            if (d =? 44)%N then parseMembers f acc' (skipWs s5)
            else if (d =? 125)%N then Some (JObject acc', s5)
            else None
        | [] => None
        end
    end.
Proof.
  intros Hk Hv. unfold memberText. rewrite QuoteJSONString_cons.
  cbn [parseMembers N.eqb Pos.eqb negb]. rewrite parse_quoteBody by assumption.
  cbn [skipWs isJsonWhiteSpace N.eqb Pos.eqb orb negb].
  destruct Hv as (c & t & -> & Hc).
  cbn [app skipWs]. now rewrite Hc.
Qed.

Lemma QuoteJSONString_head (s : jsstring) :
  exists c t, QuoteJSONString s = c :: t /\ isJsonWhiteSpace c = false.
Proof.
  unfold QuoteJSONString, dquote. cbn [app]. eexists _, _. split; reflexivity.
Qed.

Lemma digitChars_head (d : Decimal.uint) (c : N) (t : jsstring) :
  digitChars d = c :: t -> isDigit c = true.
Proof.
  destruct d; vm_compute; try discriminate;
    intros E; injection E as <- _; reflexivity.
Qed.

Lemma JsNumber_toString_head (z : Z) :
  Z.abs z < 10 ^ 21 ->
  exists c t, JsNumber_toString z 0 = c :: t /\ (c = 45%N \/ isDigit c = true).
Proof.
  intros Hlt. destruct (Z.eq_dec z 0) as [->|Hz].
  - exists 48%N, []. split; [reflexivity | now right].
  - rewrite JsNumber_toString_integer by assumption.
    destruct (Z.ltb_spec z 0).
    + eexists _, _. split; [reflexivity | now left].
    + destruct (digitChars (N.to_uint (Z.to_N (Z.abs z)))) as [|c t] eqn:Ed.
      * apply (f_equal (@length N)) in Ed. rewrite length_digitChars in Ed.
        assert (Hn : (0 < Z.to_N (Z.abs z))%N) by lia.
        pose proof (to_uint_head Hn) as Hhead.
        destruct (N.to_uint (Z.to_N (Z.abs z))); try contradiction; discriminate.
      * exists c, t. split; [reflexivity|]. right. eapply digitChars_head; eauto.
Qed.

Lemma parseValue_number_head (f : nat) (c : N) (t : jsstring) :
  c = 45%N \/ isDigit c = true ->
  parseValue (S f) (c :: t) = parseNumber (c :: t) /\ isJsonWhiteSpace c = false.
Proof.
  intros Hc. cbn [parseValue startsWith].
  assert (Hb : (c = 45 \/ 48 <= c <= 57)%N).
  { destruct Hc as [->|Hd]; [now left|right]. unfold isDigit in Hd.
    apply andb_true_iff in Hd as [H1 H2]. apply N.leb_le in H1, H2. lia. }
  unfold isJsonWhiteSpace. change (js "null") with [110; 117; 108; 108]%N.
  change (js "true") with [116; 114; 117; 101]%N.
  change (js "false") with [102; 97; 108; 115; 101]%N.
  cbn [startsWith].
  repeat match goal with
  | |- context [(?a =? ?b)%N] => destruct (N.eqb_spec a b); [exfalso; lia|]
  end.
  split; reflexivity.
Qed.

Lemma parseMembers_string_more (f : nat) (acc : list (jsstring * JsValue))
    (key v key' value' rest : jsstring) :
  validString key -> validString v ->
  parseMembers (S (S f)) acc
    (memberText key (QuoteJSONString v) (44%N :: memberText key' value' rest))
  = parseMembers (S f) (JsMap.set key (JString v) acc) (memberText key' value' rest).
Proof.
  intros Hk Hv. rewrite parseMembers_key by auto using QuoteJSONString_head.
  rewrite parseValue_string by assumption. cbv zeta.
  cbn [skipWs isJsonWhiteSpace N.eqb Pos.eqb orb].
  unfold memberText. rewrite !QuoteJSONString_cons. reflexivity.
Qed.

Lemma parseMembers_string_last (f : nat) (acc : list (jsstring * JsValue))
    (key v : jsstring) :
  validString key -> validString v ->
  parseMembers (S (S f)) acc (memberText key (QuoteJSONString v) [125%N])
  = Some (JObject (JsMap.set key (JString v) acc), []).
Proof.
  intros Hk Hv. rewrite parseMembers_key by auto using QuoteJSONString_head.
  rewrite parseValue_string by assumption. reflexivity.
Qed.

Lemma parseMembers_string_cut (f : nat) (acc : list (jsstring * JsValue))
    (key v : jsstring) :
  validString key -> validString v ->
  parseMembers (S (S f)) acc (memberText key (QuoteJSONString v) []) = None.
Proof.
  intros Hk Hv. rewrite parseMembers_key by auto using QuoteJSONString_head.
  rewrite parseValue_string by assumption. reflexivity.
Qed.

Lemma parseMembers_integer_more (f : nat) (acc : list (jsstring * JsValue))
    (key key' value' rest : jsstring) (z : Z) :
  validString key -> Z.abs z < 10 ^ 21 ->
  parseMembers (S (S f)) acc
    (memberText key (JsNumber_toString z 0) (44%N :: memberText key' value' rest))
  = parseMembers (S f) (JsMap.set key (JNumber z 0) acc) (memberText key' value' rest).
Proof.
  intros Hk Hz.
  destruct (JsNumber_toString_head z Hz) as (c & t & Ec & Hc).
  destruct (@parseValue_number_head f c (t ++ 44%N :: memberText key' value' rest) Hc)
    as [Hparse Hws].
  rewrite parseMembers_key; [|assumption|exists c, t; split; assumption].
  pose proof (@parseNumber_integer z (memberText key' value' rest) Hz) as Hnum.
  rewrite Ec in *. cbn [app] in *. rewrite Hparse, Hnum. cbv zeta.
  cbn [skipWs isJsonWhiteSpace N.eqb Pos.eqb orb].
  unfold memberText. rewrite !QuoteJSONString_cons. reflexivity.
Qed.

(** ** Encoding and decoding a message *)

Lemma validString_literal (s : string) :
  forallb (fun c => (c <? 65536)%N) (js s) = true -> validString (js s).
Proof.
  intros H. apply Forall_forall. intros c Hc.
  apply N.ltb_lt. now apply (proj1 (forallb_forall _ _) H).
Qed.

Lemma validString_typeName (ty : MessageType.t) : validString (MessageType.name ty).
Proof. destruct ty; now apply validString_literal. Qed.

Lemma parseValue_object (f : nat) (key value rest : jsstring) :
  parseValue (S f) (123%N :: memberText key value rest)
  = parseMembers f [] (memberText key value rest).
Proof. unfold memberText. rewrite QuoteJSONString_cons. reflexivity. Qed.

(** The parser reads the text of a message as the object it came from,
    and rejects the text that lacks the closing brace; ten nested calls
    are enough. *)
Lemma parseValue_messageTextWith (m : ChatMessage.t) (f : nat) :
  wellFormedMessage m ->
  parseValue (10 + f) (messageTextWith [125%N] m) = Some (parsedMessage m, [])
  /\ parseValue (10 + f) (messageTextWith [] m) = None.
Proof.
  intros (Hid & Hroom & Hnick & Hfp & Hcontent & Hold & Hts).
  assert (Hts' : Z.abs (ChatMessage.timestamp m) < 10 ^ 21) by lia.
  pose proof (validString_typeName (ChatMessage.type m)) as Hty.
  unfold messageTextWith, parsedMessage, JInteger. cbn [Nat.add].
  rewrite !parseValue_object.
  rewrite !parseMembers_string_more by (auto; now apply validString_literal).
  rewrite !parseMembers_integer_more by (auto; now apply validString_literal).
  rewrite !parseMembers_string_more by (auto; now apply validString_literal).
  destruct (ChatMessage.oldNick m) as [o|].
  - rewrite !parseMembers_string_more by (auto; now apply validString_literal).
    rewrite parseMembers_string_last by (auto; now apply validString_literal).
    rewrite parseMembers_string_cut by (auto; now apply validString_literal).
    split; reflexivity.
  - rewrite parseMembers_string_last by (auto; now apply validString_literal).
    rewrite parseMembers_string_cut by (auto; now apply validString_literal).
    split; reflexivity.
Qed.

Lemma length_messageTextWith (close : jsstring) (m : ChatMessage.t) :
  (9 <= length (messageTextWith close m))%nat.
Proof.
  unfold messageTextWith, memberText.
  repeat (rewrite QuoteJSONString_cons || rewrite length_app || cbn [length]).
  lia.
Qed.

Lemma JSON_parse_messageText (m : ChatMessage.t) :
  wellFormedMessage m -> JSON_parse (messageText m) = inr (parsedMessage m).
Proof.
  intros Hm. unfold JSON_parse, messageText.
  assert (Hskip : skipWs (messageTextWith [125%N] m) = messageTextWith [125%N] m)
    by reflexivity.
  rewrite Hskip.
  replace (S (length (messageTextWith [125%N] m)))
    with (10 + (length (messageTextWith [125%N] m) - 9))%nat
    by (pose proof (length_messageTextWith [125%N] m); lia).
  now rewrite (proj1 (parseValue_messageTextWith _ Hm)).
Qed.


Lemma plainUnit_digitChars (d : Decimal.uint) : Forall plainUnit (digitChars d).
Proof.
  induction d;
    try match goal with
        | |- Forall _ (digitChars (?D ?x)) =>
            let c := eval vm_compute in (hd 0%N (digitChars (D Decimal.Nil))) in
            change (digitChars (D x)) with (c :: digitChars x)
        end;
    constructor; try assumption; unfold plainUnit; lia.
Qed.

Lemma wellPaired_number (z : Z) :
  Z.abs z < 10 ^ 21 -> wellPaired (JsNumber_toString z 0).
Proof.
  intros Hz. destruct (Z.eq_dec z 0) as [->|Hnz].
  - apply wellPaired_plain. repeat constructor.
  - rewrite JsNumber_toString_integer by assumption.
    apply wellPaired_app; apply wellPaired_plain.
    + destruct (z <? 0); repeat constructor.
    + apply plainUnit_digitChars.
Qed.

Lemma wellPaired_cons_plain (c : N) (s : jsstring) :
  plainUnit c -> wellPaired s -> wellPaired (c :: s).
Proof.
  intros Hc Hs. change (c :: s) with ([c] ++ s).
  apply wellPaired_app; [apply wellPaired_plain; now repeat constructor | assumption].
Qed.

Lemma wellPaired_memberText (key value rest : jsstring) :
  validString key -> wellPaired value -> wellPaired rest ->
  wellPaired (memberText key value rest).
Proof.
  intros Hk Hv Hr. unfold memberText.
  apply wellPaired_app; [now apply wellPaired_QuoteJSONString|].
  apply wellPaired_cons_plain; [unfold plainUnit; lia|].
  now apply wellPaired_app.
Qed.

Lemma wellPaired_messageTextWith (close : jsstring) (m : ChatMessage.t) :
  wellFormedMessage m -> wellPaired close -> wellPaired (messageTextWith close m).
Proof.
  intros (Hid & Hroom & Hnick & Hfp & Hcontent & Hold & Hts) Hclose.
  assert (Hts' : Z.abs (ChatMessage.timestamp m) < 10 ^ 21) by lia.
  pose proof (validString_typeName (ChatMessage.type m)) as Hty.
  unfold messageTextWith.
  repeat lazymatch goal with
    | |- wellPaired (memberText _ _ _) =>
        apply wellPaired_memberText; [now apply validString_literal | |]
    | |- wellPaired (QuoteJSONString _) => now apply wellPaired_QuoteJSONString
    | |- wellPaired (JsNumber_toString _ _) => now apply wellPaired_number
    | |- wellPaired (_ :: _) =>
        apply wellPaired_cons_plain; [unfold plainUnit; lia|]
    end.
  destruct (ChatMessage.oldNick m) as [o|]; [|assumption].
  apply wellPaired_cons_plain; [unfold plainUnit; lia|].
  apply wellPaired_memberText;
    [now apply validString_literal | now apply wellPaired_QuoteJSONString | assumption].
Qed.





Lemma asChatMessage_parsedMessage (m : ChatMessage.t) :
  asChatMessage (parsedMessage m) = Some m.
Proof.
  destruct m as [i t r n f ty c o]. unfold parsedMessage. cbn [ChatMessage.id
    ChatMessage.timestamp ChatMessage.room ChatMessage.nick ChatMessage.fingerprint
    ChatMessage.type ChatMessage.content ChatMessage.oldNick].
  destruct ty, o; reflexivity.
Qed.

(** Decoding what was encoded. *)
Lemma decodeMessage_encodeMessage (m : ChatMessage.t) :
  wellFormedMessage m ->
  decodeMessage (encodeMessage m) = inr (parsedMessage m).
Proof.
  intros Hm. unfold decodeMessage, encodeMessage.
  rewrite stringify_message.
  rewrite TextDecoder_TextEncoder.
  - now apply JSON_parse_messageText.
  - apply wellPaired_messageTextWith; [assumption|].
    apply wellPaired_plain. repeat constructor.
  - cbn. discriminate.
Qed.




(* ================================================================== *)
(** * The statements at work on the runs of the model *)
(* ================================================================== *)

Lemma clock_demoEnv (i : nat) :
  1700000000000 <= clock demoEnv i < 1700000000000 + 1000.
Proof. unfold demoEnv. cbn [clock]. lia. Qed.

(** C3 at work: in a directory of capacity 2, of three messages sent to
    one room the last two are kept. *)
Lemma history_bounded_witness :
  history (js "lobby")
    (chatState (addMessages [demoMessage 1; demoMessage 2; demoMessage 3] smallWorld))
  = [demoMessage 2; demoMessage 3].
Proof.
  destruct (@history_bounded smallWorld [demoMessage 1; demoMessage 2; demoMessage 3]
              (js "lobby")) as (_ & _ & _ & Hevict).
  - simpl. lia.
  - apply historyInvariant_new.
  - apply (Hevict eq_refl (demoMessage 1) [demoMessage 2; demoMessage 3]); reflexivity.
Defined.

(** C4 at work: of eleven calls within half a second, with limit 10, the
    first ten are let through. *)
Lemma rate_limiter_sliding_window_witness :
  fst (fst (records 11 (RateLimiter.new 10) demoEnv)) = repeat true 10 ++ [false].
Proof.
  destruct (rate_limiter_sliding_window [] 10 demoEnv) as (_ & _ & _ & _ & Hburst).
  apply (Hburst 1700000000000). exact clock_demoEnv.
Defined.

(** C5 at work: the second user asks for the first user's nick in other
    case. *)
Lemma isNickTaken_iff_witness :
  ChatState.isNickTaken (H := basicLatin) (js "ANON_A1B2C3") (js "lobby")
    (Some (js "session-1")) (chatState twoStarted) = true.
Proof.
  destruct (@isNickTaken_iff basicLatin (chatState twoStarted) (js "ANON_A1B2C3")
              (js "lobby") (js "session-1")) as [Hiff _]; [discriminate|].
  apply Hiff.
  exists {| UserInfo.sessionId := js "session-0"; UserInfo.nick := js "anon_A1B2C3";
            UserInfo.fingerprint := js "A1B2C3D4"; UserInfo.room := js "lobby";
            UserInfo.joinedAt := 1700000000000 |}.
  split; [vm_compute; left; reflexivity|].
  split; [split; vm_compute; reflexivity | intros E; vm_compute in E; congruence].
Defined.

Lemma lowersBasicLatin_basicLatin : lowersBasicLatin (H := basicLatin).
Proof. intros s _. reflexivity. Qed.

(** C9 at work. *)
Lemma sanitize_idempotent_witness :
  Commands.sanitizeRoomName (H := basicLatin)
    (Commands.sanitizeRoomName (H := basicLatin) (js "The Quiet Room #42!"))
  = Commands.sanitizeRoomName (H := basicLatin) (js "The Quiet Room #42!").
Proof.
  destruct (@sanitize_idempotent basicLatin (js "The Quiet Room #42!")
              lowersBasicLatin_basicLatin) as (_ & Hroom & _).
  exact Hroom.
Defined.

(** C10 at work: a nick of forty letters, with the default limit of 32. *)
Lemma nick_too_long_unreachable_witness :
  execute (Commands.nickCommand (H := basicLatin))
    {| session := 0; args := [repeat 97%N 40]; rawInput := js "/nick" |} twoStarted
  = nickCommand_without_length_check (H := basicLatin)
      {| session := 0; args := [repeat 97%N 40]; rawInput := js "/nick" |} twoStarted.
Proof.
  edestruct (@nick_too_long_unreachable basicLatin
               {| session := 0; args := [repeat 97%N 40]; rawInput := js "/nick" |}
               twoStarted) as (_ & _ & Hsame).
  - vm_compute. reflexivity.
  - vm_compute. discriminate.
  - exact Hsame.
Defined.

(** C8 at work: four messages within half a second, with limit 3. *)
Lemma rate_limited_message_discarded_witness :
  let w3 := exec (UserSession.sendMessage 0 (js "three"))
              (exec (UserSession.sendMessage 0 (js "two"))
                 (exec (UserSession.sendMessage 0 (js "one")) oneStarted)) in
  let w4 := exec (UserSession.sendMessage 0 (js "four")) w3 in
  ui w4 = ui w3 ++ [(0%nat, onSystemMessage rateLimitNotice)]
  /\ overlay w4 = overlay w3
  /\ chatState w4 = chatState w3.
Proof.
  cbv zeta. destruct rate_limited_message_discarded as [_ Hburst].
  cbv zeta in Hburst.
  edestruct (Hburst 0%nat (js "one") (js "two") (js "three") (js "four") oneStarted)
    as (Hui & Hov & Hdir & _).
  - vm_compute. reflexivity.
  - reflexivity.
  - reflexivity.
  - intros i. replace (clock (env oneStarted)) with (clock demoEnv)
      by (vm_compute; reflexivity).
    apply clock_demoEnv.
  - exact (conj Hui (conj Hov Hdir)).
Defined.




(** C5 as stated fails for the empty session id: with a user registered
    under the empty id, the nick that this user holds counts as taken even
    when the empty id is the one to exclude, although no user with another
    id holds it. *)
Lemma isNickTaken_empty_id_counterexample :
  let d := chatState (exec (UserSession.chatState_addUser [] (js "alice")
                              (js "A1B2C3D4") (js "lobby")) emptyWorld) in
  ChatState.isNickTaken (H := basicLatin) (js "alice") (js "lobby") (Some []) d = true
  /\ ~ exists u, In u (JsMap.values (users d))
                 /\ holdsNick (H := basicLatin) (js "alice") (js "lobby") u
                 /\ UserInfo.sessionId u <> [].
Proof.
  split; [vm_compute; reflexivity|].
  intros (u & Hu & _ & Hid). vm_compute in Hu. destruct Hu as [<-|[]]. now apply Hid.
Qed.

(* ================================================================== *)
(** * Further properties: buffers and the rate limiter *)
(* ================================================================== *)

(** X1.  [getLast(count)] returns the newest items of the buffer in
    their order: a suffix of [getAll()] of length [count], or all items
    when there are fewer; a count of zero or less gives nothing. *)
Theorem getLast_newest (T : Type) (b : BoundedBuffer T) (count : Z) :
  (exists older, BoundedBuffer.getAll b = older ++ BoundedBuffer.getLast count b)
  /\ Z.of_nat (length (BoundedBuffer.getLast count b))
     = Z.max 0 (Z.min count (BoundedBuffer.length b))
  /\ (BoundedBuffer.length b <= count ->
      BoundedBuffer.getLast count b = BoundedBuffer.getAll b)
  /\ (count <= 0 -> BoundedBuffer.getLast count b = []).
Proof.
  unfold BoundedBuffer.getLast, BoundedBuffer.getAll, BoundedBuffer.length.
  set (l := items b). split; [|split; [|split]].
  - exists (firstn (Z.to_nat (Z.max 0 (Z.of_nat (length l) - count))) l).
    now rewrite firstn_skipn.
  - rewrite length_skipn. lia.
  - intros Hc. replace (Z.max 0 (Z.of_nat (length l) - count)) with 0 by lia.
    reflexivity.
  - intros Hc. apply skipn_all2. lia.
Qed.

(** ** The rate limiter *)

Lemma canProceed_keeps_fewer (rl : RateLimiter) (e : Env) :
  (length (timestamps (snd (fst (RateLimiter.canProceed rl e))))
   <= length (timestamps rl))%nat
  /\ maxRequests (snd (fst (RateLimiter.canProceed rl e))) = maxRequests rl
  /\ windowMs (snd (fst (RateLimiter.canProceed rl e))) = windowMs rl.
Proof.
  unfold RateLimiter.canProceed. simpl. split; [apply filter_length_le | split; reflexivity].
Qed.

Lemma record_bounded (rl : RateLimiter) (e : Env) :
  Z.of_nat (length (timestamps rl)) <= maxRequests rl ->
  let rl' := snd (fst (RateLimiter.record rl e)) in
  Z.of_nat (length (timestamps rl')) <= maxRequests rl'
  /\ maxRequests rl' = maxRequests rl.
Proof.
  intros Hb. unfold RateLimiter.record.
  pose proof (canProceed_keeps_fewer rl e) as (Hlen & Hmax & _).
  destruct (RateLimiter.canProceed rl e) as [[ok rl1] e1] eqn:Ecp. simpl in *.
  assert (Hok : ok = (Z.of_nat (length (timestamps rl1)) <? maxRequests rl1)).
  { unfold RateLimiter.canProceed in Ecp. simpl in Ecp. now inversion Ecp. }
  destruct ok; simpl.
  - symmetry in Hok. apply Z.ltb_lt in Hok. rewrite length_app. simpl. lia.
  - lia.
Qed.

(** X2.  A limiter that holds no more timestamps than its limit never
    comes to hold more, however many requests are recorded and whatever
    the clock reads; so a new limiter with a limit of at least zero stays
    within its limit. *)
Theorem rate_limiter_bounded (k : nat) (rl : RateLimiter) (e : Env) :
  Z.of_nat (length (timestamps rl)) <= maxRequests rl ->
  let rl' := snd (fst (records k rl e)) in
  Z.of_nat (length (timestamps rl')) <= maxRequests rl'
  /\ maxRequests rl' = maxRequests rl.
Proof.
  revert rl e. induction k as [|k IH]; intros rl e Hb; simpl.
  - split; [assumption | reflexivity].
  - pose proof (@record_bounded rl e Hb) as [Hb1 Hm1].
    destruct (RateLimiter.record rl e) as [[ok rl1] e1]. simpl in Hb1, Hm1.
    specialize (IH rl1 e1 Hb1).
    destruct (records k rl1 e1) as [[oks rl2] e2]. simpl in *.
    destruct IH as [IH1 IH2]. split; [assumption | congruence].
Qed.

(** X3.  Timestamps expire: when every recorded timestamp is at least a
    window older than the clock reading, [record] forgets them all and,
    with a limit above zero, accepts the request under the next clock
    reading.  After [reset] a request is accepted whatever the clock
    reads, if the limit is above zero, and refused otherwise. *)
Theorem rate_limiter_expiry (rl : RateLimiter) (e : Env) :
  let now := clock e (clockTick e) in
  let next := clock e (S (clockTick e)) in
  (Forall (fun t => t <= now - windowMs rl) (timestamps rl) ->
   0 < maxRequests rl ->
   fst (fst (RateLimiter.record rl e)) = true
   /\ timestamps (snd (fst (RateLimiter.record rl e))) = [next])
  /\ fst (fst (RateLimiter.record (RateLimiter.reset rl) e)) = (0 <? maxRequests rl)
  /\ (0 < maxRequests rl ->
      timestamps (snd (fst (RateLimiter.record (RateLimiter.reset rl) e))) = [next]).
Proof.
  intros now next. split; [|split].
  - intros Hold Hmax. unfold RateLimiter.record, RateLimiter.canProceed. simpl.
    fold now. 
    assert (E : filter (fun t => t >? now - windowMs rl) (timestamps rl) = []).
    { induction (timestamps rl) as [|t ts IH]; [reflexivity|].
      inversion Hold as [|? ? Ht Hts]; subst. simpl.
      destruct (Z.gtb_spec t (now - windowMs rl)); [lia | now apply IH]. }
    rewrite E. simpl.
    destruct (Z.ltb_spec 0 (maxRequests rl)); [|lia]. simpl. split; reflexivity.
  - unfold RateLimiter.record, RateLimiter.canProceed, RateLimiter.reset. simpl.
    destruct (0 <? maxRequests rl); reflexivity.
  - intros Hmax. unfold RateLimiter.record, RateLimiter.canProceed, RateLimiter.reset. simpl.
    destruct (Z.ltb_spec 0 (maxRequests rl)); [|lia]. reflexivity.
Qed.

(* ================================================================== *)
(** * Further properties: topics, sizes, names, fingerprints *)
(* ================================================================== *)

Lemma startsWith_app (p s : jsstring) : startsWith p (p ++ s) = true.
Proof. induction p as [|c p IH]; simpl; [reflexivity|]. now rewrite N.eqb_refl. Qed.

Lemma startsWith_skipn (p s : jsstring) :
  startsWith p s = true -> s = p ++ skipn (length p) s.
Proof.
  revert s. induction p as [|c p IH]; intros [|d s]; simpl; try discriminate; auto.
  intros E. apply andb_true_iff in E as [E1 E2]. apply N.eqb_eq in E1. subst d.
  f_equal. now apply IH.
Qed.

(** X4.  The topic of a room is the room's name behind the prefix
    [/whisper/room/], and [getRoomFromTopic] undoes [getTopic]: it gives
    back the room of a topic made by [getTopic], gives a room only for
    such topics, and gives nothing for a topic without the prefix. *)
Theorem topic_roundtrip (room topic : jsstring) :
  ChatPubSub.getRoomFromTopic (ChatPubSub.getTopic room) = Some room
  /\ (ChatPubSub.getRoomFromTopic topic = Some room -> topic = ChatPubSub.getTopic room)
  /\ ((forall r, topic <> ChatPubSub.getTopic r) ->
      ChatPubSub.getRoomFromTopic topic = None).
Proof.
  unfold ChatPubSub.getRoomFromTopic, ChatPubSub.getTopic. split; [|split].
  - rewrite startsWith_app, skipn_app, skipn_all, Nat.sub_diag. reflexivity.
  - destruct (startsWith ChatPubSub.TOPIC_PREFIX topic) eqn:E; [|discriminate].
    intros Er. injection Er as <-. now apply startsWith_skipn.
  - intros Hno. destruct (startsWith ChatPubSub.TOPIC_PREFIX topic) eqn:E; [|reflexivity].
    elim (Hno (skipn (length ChatPubSub.TOPIC_PREFIX) topic)).
    now apply startsWith_skipn.
Qed.

(** ** The size of a message *)





(** ** Valid names *)

Lemma forallb_nameUnits (s : jsstring) :
  forallb Commands.isNameUnit s = true <-> nameUnits s.
Proof.
  unfold nameUnits. rewrite forallb_forall, Forall_forall. reflexivity.
Qed.

Section ValidNames.
Context `{JsPlatform}.

(** X6.  Sanitising and validating agree.  With a maximal length of 32 or
    more, what [sanitizeNick] yields is a valid nick unless it is empty,
    and with one of at most 32 a valid nick is left as it is by
    [sanitizeNick].  The same holds of room names, except that
    [isValidRoomName] accepts capital letters, which [sanitizeRoomName]
    turns into small ones. *)
Theorem sanitized_names_are_valid (x : jsstring) (maxLength : Z) :
  lowersBasicLatin ->
  (32 <= maxLength ->
   Commands.isValidNick (Commands.sanitizeNick x) maxLength
   = truthy (Commands.sanitizeNick x))
  /\ (maxLength <= 32 -> Commands.isValidNick x maxLength = true ->
      Commands.sanitizeNick x = x)
  /\ (32 <= maxLength ->
      Commands.isValidRoomName (Commands.sanitizeRoomName x) maxLength
      = truthy (Commands.sanitizeRoomName x))
  /\ (maxLength <= 32 -> Commands.isValidRoomName x maxLength = true ->
      Commands.sanitizeRoomName x = toLowerCase x).
Proof.
  intros Hlow.
  assert (Hvalid : forall s, nameUnits s -> (length s <= 32)%nat -> 32 <= maxLength ->
            ((jslength s =? 0) || (jslength s >? maxLength)) = negb (truthy s)).
  { intros s _ Hl Hmax. unfold jslength.
    destruct s as [|c s]; [reflexivity|]. simpl length in *.
    destruct (Z.eqb_spec (Z.of_nat (S (length s))) 0); [lia|].
    destruct (Z.gtb_spec (Z.of_nat (S (length s))) maxLength); [lia | reflexivity]. }
  assert (Hfix : forall s, maxLength <= 32 ->
            (if (jslength s =? 0) || (jslength s >? maxLength) then false
             else forallb Commands.isNameUnit s) = true ->
            nameUnits s /\ (length s <= 32)%nat).
  { intros s Hmax E. unfold jslength in E.
    destruct (Z.eqb_spec (Z.of_nat (length s)) 0); [discriminate|].
    destruct (Z.gtb_spec (Z.of_nat (length s)) maxLength); [discriminate|].
    simpl in E. apply forallb_nameUnits in E. split; [assumption | lia]. }
  assert (Hroom : Commands.sanitizeRoomName x = map lowerUnit (Commands.sanitizeNick x)).
  { unfold Commands.sanitizeRoomName. apply Hlow, nameUnits_sanitizeNick. }
  split; [|split; [|split]].
  - intros Hmax. unfold Commands.isValidNick.
    rewrite Hvalid by (auto using nameUnits_sanitizeNick, length_sanitizeNick).
    destruct (truthy (Commands.sanitizeNick x)); [|reflexivity]. simpl.
    apply forallb_nameUnits, nameUnits_sanitizeNick.
  - intros Hmax E. destruct (Hfix x Hmax E). now apply sanitizeNick_nameUnits.
  - intros Hmax. unfold Commands.isValidRoomName.
    assert (Hn : nameUnits (Commands.sanitizeRoomName x)).
    { rewrite Hroom. apply Forall_map.
      eapply Forall_impl; [|apply nameUnits_sanitizeNick]. apply isNameUnit_lowerUnit. }
    assert (Hl : (length (Commands.sanitizeRoomName x) <= 32)%nat).
    { rewrite Hroom, length_map. apply length_sanitizeNick. }
    rewrite Hvalid by assumption.
    destruct (truthy (Commands.sanitizeRoomName x)); [|reflexivity]. simpl.
    now apply forallb_nameUnits.
  - intros Hmax E. destruct (Hfix x Hmax E) as [Hn Hl].
    unfold Commands.sanitizeRoomName.
    fold (Commands.sanitizeNick x). now rewrite sanitizeNick_nameUnits.
Qed.
End ValidNames.

(** ** Fingerprints *)

Lemma hexDigit_lower (d : N) :
  (d < 16)%N ->
  (hexDigit d < 128)%N /\ isHexUnit (upperUnit (hexDigit d)) = true
  /\ upperUnit (upperUnit (hexDigit d)) = upperUnit (hexDigit d).
Proof.
  intros Hd.
  assert (C : (d = 0 \/ d = 1 \/ d = 2 \/ d = 3 \/ d = 4 \/ d = 5 \/ d = 6 \/ d = 7
               \/ d = 8 \/ d = 9 \/ d = 10 \/ d = 11 \/ d = 12 \/ d = 13 \/ d = 14
               \/ d = 15)%N) by lia.
  repeat (destruct C as [->|C]; [vm_compute; repeat split; reflexivity|]).
  subst d. vm_compute. repeat split; reflexivity.
Qed.

Lemma bytesToHex_units (bytes : list N) :
  Forall (fun b => (b < 256)%N) bytes ->
  length (bytesToHex bytes) = (2 * length bytes)%nat
  /\ Forall (fun c => (c < 128)%N) (bytesToHex bytes)
  /\ Forall (fun c => isHexUnit (upperUnit c) = true) (bytesToHex bytes).
Proof.
  unfold bytesToHex. induction 1 as [|b bytes Hb _ (IH1 & IH2 & IH3)];
    [repeat split; constructor|].
  assert (H1 : (b / 16 < 16)%N) by (apply N.Div0.div_lt_upper_bound; lia).
  assert (H2 : (b mod 16 < 16)%N) by (apply N.mod_lt; lia).
  destruct (hexDigit_lower H1) as (A1 & A2 & _).
  destruct (hexDigit_lower H2) as (B1 & B2 & _).
  cbn [flat_map app length]. split; [lia|]. split; repeat constructor; assumption.
Qed.

Section Fingerprint.
Context `{JsPlatform}.

(** X7.  When the digest has at least four bytes (SHA-256 has 32), the
    fingerprint made of a public key consists of eight hexadecimal digits,
    so that [isValidFingerprint] accepts it, and the short fingerprint
    consists of its first four. *)
Theorem generated_fingerprint_is_valid (publicKeyBytes : list N) :
  uppersBasicLatin ->
  (4 <= length (sha256 publicKeyBytes))%nat ->
  Forall (fun b => (b < 256)%N) (sha256 publicKeyBytes) ->
  isValidFingerprint (generateFingerprint publicKeyBytes) = true
  /\ length (generateFingerprint publicKeyBytes) = 8%nat
  /\ length (generateShortFingerprint publicKeyBytes) = 4%nat
  /\ generateFingerprint publicKeyBytes
     = generateShortFingerprint publicKeyBytes
       ++ skipn 4 (generateFingerprint publicKeyBytes).
Proof.
  intros Hup Hlen Hbytes.
  assert (Hfour : Forall (fun b => (b < 256)%N) (firstn 4 (sha256 publicKeyBytes)))
    by now apply Forall_firstn.
  destruct (bytesToHex_units Hfour) as (Hl & Hascii & Hhex).
  rewrite length_firstn in Hl.
  assert (E : generateFingerprint publicKeyBytes
              = map upperUnit (bytesToHex (firstn 4 (sha256 publicKeyBytes)))).
  { unfold generateFingerprint. now apply Hup. }
  assert (L : length (generateFingerprint publicKeyBytes) = 8%nat).
  { rewrite E, length_map. lia. }
  split; [|split; [assumption|split]].
  - unfold isValidFingerprint. rewrite L. simpl. rewrite E.
    apply forallb_forall. intros c Hc. apply in_map_iff in Hc as (c0 & <- & Hc0).
    now apply (proj1 (Forall_forall _ _) Hhex).
  - unfold generateShortFingerprint. rewrite length_firstn. lia.
  - unfold generateShortFingerprint. now rewrite firstn_skipn.
Qed.
End Fingerprint.

(* ================================================================== *)
(** * Further properties: the readers of the directory *)
(* ================================================================== *)

Lemma existsb_jseqb (r : jsstring) (rooms : list jsstring) :
  existsb (jseqb r) rooms = true <-> In r rooms.
Proof.
  rewrite existsb_exists. split.
  - intros (x & Hx & E). apply jseqb_eq in E. now subst.
  - intros Hr. exists r. split; [assumption | apply jseqb_refl].
Qed.

Lemma setAdd_spec (r : jsstring) (rooms : list jsstring) :
  (NoDup rooms -> NoDup (ChatState.setAdd r rooms))
  /\ forall x, In x (ChatState.setAdd r rooms) <-> In x rooms \/ x = r.
Proof.
  unfold ChatState.setAdd. destruct (existsb (jseqb r) rooms) eqn:E.
  - apply existsb_jseqb in E. split; [auto|]. intros x. split; [auto|].
    intros [Hx| ->]; assumption.
  - assert (Hr : ~ In r rooms).
    { intros Hr. apply existsb_jseqb in Hr. congruence. }
    split.
    + intros Hnd. apply NoDup_app; [assumption | repeat constructor; intros [] |].
      intros x Hx [<-|[]]. contradiction.
    + intros x. rewrite in_app_iff. simpl. intuition.
Qed.

Lemma fold_setAdd {A} (f : A -> jsstring) (l : list A) : forall init,
  (NoDup init -> NoDup (fold_left (fun rooms y => ChatState.setAdd (f y) rooms) l init))
  /\ forall x, In x (fold_left (fun rooms y => ChatState.setAdd (f y) rooms) l init)
               <-> In x init \/ In x (map f l).
Proof.
  induction l as [|y l IH]; intros init; simpl.
  - split; [auto|]. intros x. intuition.
  - destruct (IH (ChatState.setAdd (f y) init)) as [IH1 IH2].
    destruct (setAdd_spec (f y) init) as [S1 S2]. split.
    + auto.
    + intros x. rewrite IH2, S2. intuition.
Qed.

Lemma getKnownRooms_spec (d : ChatState) :
  NoDup (ChatState.getKnownRooms d)
  /\ forall r, In r (ChatState.getKnownRooms d)
               <-> In r (map UserInfo.room (JsMap.values (users d)))
                   \/ In r (JsMap.keys (roomMessages d)).
Proof.
  unfold ChatState.getKnownRooms.
  destruct (fold_setAdd UserInfo.room (JsMap.values (users d)) []) as [U1 U2].
  destruct (fold_setAdd (fun room : jsstring => room) (JsMap.keys (roomMessages d))
              (fold_left (fun rooms user => ChatState.setAdd (UserInfo.room user) rooms)
                 (JsMap.values (users d)) [])) as [K1 K2].
  split.
  - apply K1, U1. constructor.
  - intros r. rewrite K2, U2, map_id. simpl. intuition.
Qed.

Lemma length_flat_map_filter_cons {A B} (p : B -> A -> bool) (u : A) (us : list A)
    (rs : list B) :
  length (flat_map (fun r => filter (p r) (u :: us)) rs)
  = (length (filter (fun r => p r u) rs)
     + length (flat_map (fun r => filter (p r) us) rs))%nat.
Proof.
  induction rs as [|r rs IH]; [reflexivity|].
  cbn [flat_map]. rewrite !length_app, IH. cbn [filter].
  destruct (p r u); cbn [length]; lia.
Qed.

Lemma filter_jseqb_once (x : jsstring) (rs : list jsstring) :
  NoDup rs -> In x rs -> length (filter (fun r => jseqb x r) rs) = 1%nat.
Proof.
  induction 1 as [|r rs Hr Hnd IH]; intros Hx; [contradiction|].
  simpl. destruct (jseqb x r) eqn:E.
  - apply jseqb_eq in E. subst r. simpl. f_equal.
    assert (Hnone : forall l, ~ In x l -> filter (fun r => jseqb x r) l = []).
    { induction l as [|y l IHl]; [reflexivity|]. intros Hn. simpl.
      destruct (jseqb x y) eqn:Ey.
      - apply jseqb_eq in Ey. subst. elim Hn. now left.
      - apply IHl. intros Hl. apply Hn. now right. }
    now rewrite Hnone.
  - destruct Hx as [->|Hx]; [now rewrite jseqb_refl in E | now apply IH].
Qed.

Lemma length_users_by_room (us : list UserInfo.t) (rs : list jsstring) :
  NoDup rs ->
  (forall u, In u us -> In (UserInfo.room u) rs) ->
  length (flat_map (fun r => filter (fun user => jseqb (UserInfo.room user) r) us) rs)
  = length us.
Proof.
  intros Hnd. induction us as [|u us IH]; intros Hall.
  - clear. induction rs as [|r rs IHr]; [reflexivity | exact IHr].
  - rewrite (length_flat_map_filter_cons
               (fun r u => jseqb (UserInfo.room u) r) u us rs).
    rewrite filter_jseqb_once by (auto; apply Hall; now left).
    simpl. f_equal. apply IH. intros v Hv. apply Hall. now right.
Qed.

(** X8.  The rooms partition the users.  [getKnownRooms] lists without
    repetition exactly the rooms that hold a registered user or have a
    history; [getUsersInRoom] lists the registered users of a room in
    their order of registration; and going through the known rooms one
    meets every registered user once, [getUserCount] users in all. *)
Theorem users_partitioned_by_room (d : ChatState) :
  NoDup (ChatState.getKnownRooms d)
  /\ (forall r, In r (ChatState.getKnownRooms d)
                <-> (exists u, In u (JsMap.values (users d)) /\ UserInfo.room u = r)
                    \/ In r (JsMap.keys (roomMessages d)))
  /\ (forall r u, In u (ChatState.getUsersInRoom r d)
                  <-> In u (JsMap.values (users d)) /\ UserInfo.room u = r)
  /\ Z.of_nat (length (flat_map (fun r => ChatState.getUsersInRoom r d)
                                (ChatState.getKnownRooms d)))
     = ChatState.getUserCount d.
Proof.
  destruct (getKnownRooms_spec d) as [Hnd Hin].
  split; [assumption|]. split; [|split].
  - intros r. rewrite Hin, in_map_iff. split.
    + intros [(u & E & Hu)|Hk]; [left; exists u; auto | now right].
    + intros [(u & Hu & E)|Hk]; [left; exists u; auto | now right].
  - intros r u. unfold ChatState.getUsersInRoom. rewrite filter_In, jseqb_eq. reflexivity.
  - unfold ChatState.getUserCount, JsMap.size, ChatState.getUsersInRoom. f_equal.
    replace (length (users d)) with (length (JsMap.values (users d)))
      by apply length_map.
    apply length_users_by_room; [assumption|].
    intros u Hu. apply Hin. left. now apply in_map.
Qed.

(** X9.  [getRecentMessages]: a room without history has no recent
    messages; a count above zero gives the newest [count] messages of the
    room, or all when there are fewer; and a count of zero is taken for no
    count at all, so that it gives the whole history. *)
Theorem recent_messages (R : jsstring) (count : Z) (d : ChatState) :
  (JsMap.get R (roomMessages d) = None ->
   ChatState.getRecentMessages R (Some count) d = []
   /\ ChatState.getRecentMessages R None d = [])
  /\ ChatState.getRecentMessages R (Some 0) d = ChatState.getRecentMessages R None d
  /\ (0 < count ->
      ChatState.getRecentMessages R (Some count) d = lastN count (history R d)
      /\ Z.of_nat (length (ChatState.getRecentMessages R (Some count) d)) <= count)
  /\ (count < 0 -> ChatState.getRecentMessages R (Some count) d = []).
Proof.
  unfold history, ChatState.getRecentMessages.
  destruct (JsMap.get R (roomMessages d)) as [buffer|]; simpl.
  - split; [discriminate|]. split; [reflexivity|].
    unfold BoundedBuffer.getLast, BoundedBuffer.getAll, lastN. split.
    + intros Hc. destruct (Z.eqb_spec count 0); [lia|]. split.
      * f_equal. lia.
      * rewrite length_skipn. lia.
    + intros Hc. destruct (Z.eqb_spec count 0); [lia|]. apply skipn_all2. lia.
  - split; [split; reflexivity|]. split; [reflexivity|]. split.
    + intros Hc. unfold lastN. rewrite skipn_nil. simpl. split; [reflexivity | lia].
    + reflexivity.
Qed.

(* ================================================================== *)
(** * Further properties: settings and the message display *)
(* ================================================================== *)

(** ** Trimming *)

Lemma length_trimStart (s : jsstring) : (length (trimStart s) <= length s)%nat.
Proof.
  induction s as [|c s IH]; simpl; [lia|]. destruct (isWhiteSpace c); simpl; lia.
Qed.

Lemma trimStart_suffix (s : jsstring) : exists ws, s = ws ++ trimStart s.
Proof.
  induction s as [|c s [ws IH]]; [now exists []|]. simpl.
  destruct (isWhiteSpace c); [exists (c :: ws); simpl; congruence | now exists []].
Qed.

Lemma trimStart_idempotent (s : jsstring) : trimStart (trimStart s) = trimStart s.
Proof.
  induction s as [|c s IH]; [reflexivity|]. simpl.
  destruct (isWhiteSpace c) eqn:E; [assumption|]. simpl. now rewrite E.
Qed.

Lemma trimStart_prefix (a b : jsstring) :
  a <> [] -> trimStart (a ++ b) = a ++ b -> trimStart a = a.
Proof.
  destruct a as [|c a]; [congruence|]. intros _. simpl.
  destruct (isWhiteSpace c); [|reflexivity].
  intros E. pose proof (length_trimStart (a ++ b)) as Hl. rewrite E in Hl.
  simpl in Hl. lia.
Qed.

Lemma trim_trimmed (s : jsstring) :
  trimStart (trim s) = trim s /\ trimStart (rev (trim s)) = rev (trim s).
Proof.
  unfold trim. set (t := trimStart s).
  rewrite rev_involutive. split; [|apply trimStart_idempotent].
  destruct (trimStart_suffix (rev t)) as [ws E].
  destruct (trimStart (rev t)) as [|c v]; [reflexivity|].
  apply (@trimStart_prefix (rev (c :: v)) (rev ws)).
  - intros H. apply (f_equal (@length N)) in H. rewrite length_rev in H. discriminate.
  - rewrite <- rev_app_distr, <- E, rev_involutive. apply trimStart_idempotent.
Qed.

Lemma trim_idempotent (s : jsstring) : trim (trim s) = trim s.
Proof.
  destruct (trim_trimmed s) as [H1 H2]. unfold trim at 1.
  rewrite H1, H2. apply rev_involutive.
Qed.

Lemma In_trimStart (c : N) (s : jsstring) : In c (trimStart s) -> In c s.
Proof.
  destruct (trimStart_suffix s) as [ws E]. intros Hc. rewrite E.
  apply in_or_app. now right.
Qed.

Lemma In_trim (c : N) (s : jsstring) : In c (trim s) -> In c s.
Proof.
  unfold trim. intros Hc. apply in_rev in Hc. apply In_trimStart in Hc.
  apply in_rev in Hc. now apply In_trimStart in Hc.
Qed.

(** ** Splitting *)

Lemma splitOn_pieces (sep : N) (s : jsstring) : forall cur piece,
  ~ In sep cur -> In piece (splitOn sep cur s) -> ~ In sep piece.
Proof.
  induction s as [|c s IH]; intros cur piece Hcur; simpl.
  - intros [<-|[]]. now rewrite <- in_rev.
  - destruct (N.eqb_spec c sep) as [->|D].
    + intros [<-|Hp]; [now rewrite <- in_rev|].
      apply (IH [] piece); [intros [] | assumption].
    + apply IH. intros [E|Hc]; [congruence | contradiction].
Qed.

Lemma splitOn_whole (sep : N) (s : jsstring) : forall cur,
  ~ In sep s -> splitOn sep cur s = [rev cur ++ s].
Proof.
  induction s as [|c s IH]; intros cur Hs; simpl.
  - now rewrite app_nil_r.
  - destruct (N.eqb_spec c sep) as [->|D]; [elim Hs; now left|].
    rewrite IH by (intros H; apply Hs; now right).
    simpl. now rewrite <- app_assoc.
Qed.

(** X10.  [parseBootstrapNodes] reads a list separated by commas.  An
    absent or empty value gives no node.  Every node it gives is
    non-empty, has no white space around it and holds no comma; and a
    value that is itself such a string is its one node. *)
Theorem bootstrap_nodes_are_clean (envValue : option jsstring) (v : jsstring) :
  parseBootstrapNodes None = []
  /\ parseBootstrapNodes (Some []) = []
  /\ (forall node, In node (parseBootstrapNodes envValue) ->
        node <> [] /\ trim node = node /\ ~ In 44%N node)
  /\ (v <> [] -> trim v = v -> ~ In 44%N v -> parseBootstrapNodes (Some v) = [v]).
Proof.
  split; [reflexivity|]. split; [reflexivity|]. split.
  - intros node. unfold parseBootstrapNodes.
    destruct envValue as [s|]; [|intros []].
    destruct (truthy s); simpl; [|intros []].
    rewrite filter_In, in_map_iff. intros [(piece & <- & Hp) Ht].
    split; [|split].
    + intros E. rewrite E in Ht. discriminate.
    + apply trim_idempotent.
    + intros Hc. apply In_trim in Hc.
      revert Hc. apply (splitOn_pieces 44 s [] piece); [intros [] | assumption].
  - intros Hv Ht Hc. unfold parseBootstrapNodes.
    destruct v as [|c v]; [congruence|]. cbn [truthy negb].
    rewrite splitOn_whole by assumption. cbn [rev app map filter].
    rewrite Ht. reflexivity.
Qed.

(** ** Tags *)

Lemma untilClose_some (s : jsstring) : forall n rest,
  untilClose s = Some (n, rest) ->
  exists body, s = body ++ 125%N :: rest /\ length body = n /\ ~ In 125%N body.
Proof.
  induction s as [|c s IH]; intros n rest; simpl; [discriminate|].
  destruct (N.eqb_spec c 125) as [->|D].
  - intros E. injection E as <- <-. exists []. repeat split. intros [].
  - destruct (untilClose s) as [[k r]|]; [|discriminate].
    intros E. injection E as <- <-.
    destruct (IH k r eq_refl) as (body & -> & Hl & Hn).
    exists (c :: body). repeat split; [simpl; congruence|].
    intros [E|Hb]; [congruence | contradiction].
Qed.

Lemma untilClose_none (s : jsstring) : untilClose s = None -> ~ In 125%N s.
Proof.
  induction s as [|c s IH]; simpl; [intros _ []|].
  destruct (N.eqb_spec c 125) as [->|D]; [discriminate|].
  destruct (untilClose s) as [[k r]|]; [discriminate|].
  intros _ [E|Hs]; [congruence | now apply IH].
Qed.

Lemma untilClose_body (body rest : jsstring) :
  ~ In 125%N body -> untilClose (body ++ 125%N :: rest) = Some (length body, rest).
Proof.
  induction body as [|c body IH]; intros Hb; simpl.
  - reflexivity.
  - destruct (N.eqb_spec c 125) as [->|D]; [elim Hb; now left|].
    rewrite IH by (intros H; apply Hb; now right). reflexivity.
Qed.

Lemma length_untilClose (s : jsstring) n rest :
  untilClose s = Some (n, rest) -> (length rest < length s)%nat.
Proof.
  intros E. destruct (untilClose_some s E) as (body & -> & _ & _).
  rewrite length_app. simpl. lia.
Qed.

(** Enough fuel: the result does not depend on it. *)
Lemma sanitizeTags_fuel (f : nat) : forall s g,
  (length s <= f)%nat -> (length s <= g)%nat -> sanitizeTags f s = sanitizeTags g s.
Proof.
  induction f as [|f IH]; intros s g Hf Hg.
  - destruct s; [|simpl in Hf; lia]. destruct g; reflexivity.
  - destruct s as [|c s]; [destruct g; reflexivity|].
    destruct g as [|g]; [simpl in Hg; lia|]. simpl in Hf, Hg. simpl.
    destruct (N.eqb c 123).
    + destruct (untilClose s) as [[[|n] rest]|] eqn:E.
      * f_equal. apply IH; lia.
      * apply length_untilClose in E. apply IH; lia.
      * f_equal. apply IH; lia.
    + f_equal. apply IH; lia.
Qed.

Lemma In_sanitizeTags (x : N) (f : nat) : forall s,
  In x (sanitizeTags f s) -> In x s.
Proof.
  induction f as [|f IH]; intros s; [destruct s; simpl; auto|].
  destruct s as [|c s]; [simpl; auto|]. simpl.
  destruct (N.eqb c 123).
  - destruct (untilClose s) as [[[|n] rest]|] eqn:E.
    + intros [->|Hx]; [now left | right; now apply IH].
    + intros Hx. apply IH in Hx. right.
      destruct (untilClose_some s E) as (body & -> & _ & _).
      apply in_or_app. right. now right.
    + intros [->|Hx]; [now left | right; now apply IH].
  - intros [->|Hx]; [now left | right; now apply IH].
Qed.

Lemma hasTag_cons (c : N) (s : jsstring) :
  hasTag (c :: s) ->
  hasTag s \/ (c = 123%N /\ exists n rest, untilClose s = Some (S n, rest)).
Proof.
  intros (pre & body & post & E & Hne & Hb).
  destruct pre as [|p pre]; simpl in E.
  - right. injection E as -> ->. split; [reflexivity|].
    rewrite untilClose_body by assumption.
    destruct body as [|b body]; [congruence|]. simpl. eauto.
  - left. injection E as _ ->. exists pre, body, post. auto.
Qed.

Lemma sanitizeTags_noTag (f : nat) : forall s,
  (length s <= f)%nat -> ~ hasTag (sanitizeTags f s).
Proof.
  induction f as [|f IH]; intros s Hf.
  - destruct s; [|simpl in Hf; lia]. simpl.
    intros (pre & body & post & E & _). destruct pre; discriminate.
  - destruct s as [|c s].
    { simpl. intros (pre & body & post & E & _). destruct pre; discriminate. }
    simpl in Hf. simpl.
    destruct (N.eqb_spec c 123) as [->|D].
    + destruct (untilClose s) as [[[|n] rest]|] eqn:E.
      * (* the braces enclose nothing *)
        intros Ht. apply hasTag_cons in Ht as [Ht|(_ & n & r & Eu)].
        { revert Ht. apply IH. lia. }
        destruct (untilClose_some s E) as (body & -> & Hl & _).
        destruct body; [|discriminate]. simpl in Eu.
        destruct f as [|f']; [simpl in Hf; lia|]. simpl in Eu. discriminate.
      * apply length_untilClose in E. apply IH. lia.
      * (* no closing brace follows *)
        intros Ht. apply hasTag_cons in Ht as [Ht|(_ & n & r & Eu)].
        { revert Ht. apply IH. lia. }
        apply untilClose_none in E. apply E.
        destruct (untilClose_some _ Eu) as (body & Es & _).
        apply (In_sanitizeTags 125 f s). rewrite Es. apply in_or_app. right. now left.
    + intros Ht. apply hasTag_cons in Ht as [Ht|(E & _)]; [|congruence].
      revert Ht. apply IH. lia.
Qed.

Lemma sanitizeTags_unchanged (f : nat) : forall s,
  ~ hasTag s -> sanitizeTags f s = s.
Proof.
  induction f as [|f IH]; intros s Hs; [destruct s; reflexivity|].
  destruct s as [|c s]; [reflexivity|]. simpl.
  assert (Hs' : ~ hasTag s).
  { intros (pre & body & post & -> & Hne & Hb). apply Hs.
    exists (c :: pre), body, post. auto. }
  destruct (N.eqb_spec c 123) as [->|D]; [|now rewrite IH].
  destruct (untilClose s) as [[[|n] rest]|] eqn:E; try now rewrite IH.
  elim Hs. destruct (untilClose_some s E) as (body & -> & Hl & Hb).
  exists [], body, rest. repeat split; [|assumption].
  intros ->. discriminate.
Qed.

Section Display.
Variable formatTime : Z -> jsstring.

(** X11.  [sanitize] leaves no tag of the terminal library in the text
    it returns, whatever the text it is given; it returns only units of
    that text; and it returns a text without tags, such as one without
    an opening brace, as it is, so that sanitising twice is sanitising
    once. *)
Theorem sanitize_removes_tags (text : jsstring) :
  ~ hasTag (MessageBox.sanitize text)
  /\ (forall c, In c (MessageBox.sanitize text) -> In c text)
  /\ (~ hasTag text -> MessageBox.sanitize text = text)
  /\ (~ In 123%N text -> MessageBox.sanitize text = text)
  /\ MessageBox.sanitize (MessageBox.sanitize text) = MessageBox.sanitize text.
Proof.
  unfold MessageBox.sanitize.
  assert (Hno : ~ hasTag (sanitizeTags (length text) text))
    by (apply sanitizeTags_noTag; lia).
  split; [assumption|]. split; [|split; [|split]].
  - intros c. apply In_sanitizeTags.
  - apply sanitizeTags_unchanged.
  - intros Hb. apply sanitizeTags_unchanged.
    intros (pre & body & post & -> & _). apply Hb. apply in_or_app. right. now left.
  - now apply sanitizeTags_unchanged.
Qed.

Lemma trimOld_lastN (lines : list jsstring) (maxMessages : Z) :
  0 < maxMessages -> MessageBox.trimOld lines maxMessages = lastN maxMessages lines.
Proof.
  intros Hm. unfold MessageBox.trimOld, sliceFrom, lastN.
  destruct (Z.gtb_spec (Z.of_nat (length lines)) maxMessages).
  - destruct (Z.ltb_spec (- maxMessages) 0); [|lia]. f_equal. lia.
  - replace (Z.to_nat (Z.of_nat (length lines) - maxMessages)) with 0%nat by lia.
    reflexivity.
Qed.

Lemma fold_left_snoc {A B} (f : A -> B) (l : list A) : forall init,
  fold_left (fun ms x => ms ++ [f x]) l init = init ++ map f l.
Proof.
  induction l as [|x l IH]; intros init; simpl; [now rewrite app_nil_r|].
  rewrite IH, <- app_assoc. reflexivity.
Qed.

(** X12.  The display keeps the newest lines.  With a maximum above zero,
    after a chat message the display holds the newest [maxMessages] of
    its former lines followed by the line of the message, which is its
    last line; after a system message, the newest [maxMessages] of the
    former lines followed by one line per line of the text; so it never
    holds more than [maxMessages] lines.  With a maximum of zero nothing
    is ever dropped. *)
Theorem display_keeps_newest (b : MessageBox) (message : ChatMessage.t)
    (text : jsstring) (e : Env) :
  let line := MessageBox.formatMessage formatTime message in
  let systemLine := fun l =>
    js "{gray-fg}" ++ formatTime (clock e (clockTick e)) ++ js "{/} {yellow-fg}*** "
    ++ MessageBox.sanitize l ++ js "{/}" in
  (0 < maxMessages b ->
   messages (MessageBox.addMessage formatTime message b)
   = lastN (maxMessages b) (messages b ++ [line])
   /\ Z.of_nat (length (messages (MessageBox.addMessage formatTime message b)))
      <= maxMessages b
   /\ last (messages (MessageBox.addMessage formatTime message b)) [] = line
   /\ messages (fst (MessageBox.addSystemMessage formatTime text b e))
      = lastN (maxMessages b) (messages b ++ map systemLine (splitOn 10 [] text))
   /\ Z.of_nat (length (messages (fst (MessageBox.addSystemMessage formatTime text b e))))
      <= maxMessages b)
  /\ (maxMessages b = 0 ->
      messages (MessageBox.addMessage formatTime message b) = messages b ++ [line])
  /\ messages (MessageBox.clear b) = [].
Proof.
  intros line systemLine. split; [|split; [|reflexivity]].
  - intros Hm. unfold MessageBox.addMessage, MessageBox.addSystemMessage. simpl.
    rewrite !trimOld_lastN by assumption. fold line.
    rewrite fold_left_snoc. fold systemLine.
    split; [reflexivity|]. split; [rewrite lastN_length; lia|]. split.
    + unfold lastN. rewrite length_app. simpl length.
      rewrite skipn_app.
      replace (Z.to_nat (Z.of_nat (length (messages b) + 1) - maxMessages b)
               - length (messages b))%nat with 0%nat by lia.
      apply last_last.
    + split; [reflexivity | rewrite lastN_length; lia].
  - intros Hz. unfold MessageBox.addMessage, MessageBox.trimOld, sliceFrom. simpl.
    rewrite Hz. fold line.
    destruct (Z.gtb_spec (Z.of_nat (length (messages b ++ [line]))) 0); [|reflexivity].
    change (- 0) with 0. change (0 <? 0) with false. cbv iota.
    rewrite Z.min_l by lia. reflexivity.
Qed.
End Display.

(* ================================================================== *)
(** * Further properties: the users of the directory *)
(* ================================================================== *)

(** ** Maps *)

Section MoreMapFacts.
Variable V : Type.
Implicit Types (m : JsMap.t V) (k : jsstring) (v : V).

Lemma get_none_keys m k : JsMap.get k m = None <-> ~ In k (JsMap.keys m).
Proof.
  induction m as [|[k' v'] m IH]; simpl; [intuition|].
  destruct (jseqb k' k) eqn:E.
  - apply jseqb_eq in E. subst. split; [discriminate | intros Hn; elim Hn; now left].
  - apply jseqb_neq in E. rewrite IH. intuition.
Qed.

Lemma keys_set m k v :
  JsMap.keys (JsMap.set k v m)
  = if JsMap.has k m then JsMap.keys m else JsMap.keys m ++ [k].
Proof.
  unfold JsMap.has. induction m as [|[k' v'] m IH]; simpl; [reflexivity|].
  destruct (jseqb k' k) eqn:E; simpl; [reflexivity|].
  rewrite IH. now destruct (JsMap.get k m).
Qed.

Lemma size_set m k v :
  JsMap.size (JsMap.set k v m) = JsMap.size m + (if JsMap.has k m then 0 else 1).
Proof.
  unfold JsMap.size. rewrite <- !(length_map fst).
  change (map fst (JsMap.set k v m)) with (JsMap.keys (JsMap.set k v m)).
  change (map fst m) with (JsMap.keys m). rewrite keys_set.
  destruct (JsMap.has k m); [lia|]. rewrite length_app. simpl. lia.
Qed.

Lemma distinctKeys_set m k v : distinctKeys m -> distinctKeys (JsMap.set k v m).
Proof.
  unfold distinctKeys. rewrite keys_set. unfold JsMap.has.
  destruct (JsMap.get k m) eqn:E; [auto|]. intros Hnd.
  apply get_none_keys in E.
  apply NoDup_app; [assumption | repeat constructor; intros [] |].
  intros x Hx [<-|[]]. contradiction.
Qed.

Lemma keys_delete m k x : In x (JsMap.keys (JsMap.delete k m)) -> In x (JsMap.keys m).
Proof.
  induction m as [|[k' v'] m IH]; simpl; [auto|].
  destruct (jseqb k' k); simpl; intuition.
Qed.

Lemma distinctKeys_delete m k : distinctKeys m -> distinctKeys (JsMap.delete k m).
Proof.
  unfold distinctKeys. induction m as [|[k' v'] m IH]; simpl; [auto|].
  intros Hnd. inversion Hnd as [|? ? Hk Hm]; subst.
  destruct (jseqb k' k); simpl; [assumption|].
  constructor; [|auto]. intros Hin. apply Hk. eapply keys_delete, Hin.
Qed.

Lemma get_delete_same m k : distinctKeys m -> JsMap.get k (JsMap.delete k m) = None.
Proof.
  unfold distinctKeys. induction m as [|[k' v'] m IH]; simpl; [reflexivity|].
  intros Hnd. inversion Hnd as [|? ? Hk Hm]; subst.
  destruct (jseqb k' k) eqn:E; simpl.
  - apply jseqb_eq in E. subst. now apply get_none_keys.
  - rewrite E. auto.
Qed.

Lemma get_delete_other m k k' :
  k' <> k -> JsMap.get k' (JsMap.delete k m) = JsMap.get k' m.
Proof.
  intros D. induction m as [|[k0 v0] m IH]; simpl; [reflexivity|].
  destruct (jseqb k0 k) eqn:E; simpl.
  - apply jseqb_eq in E. subst k0.
    apply not_eq_sym in D. apply jseqb_neq in D. now rewrite D.
  - destruct (jseqb k0 k'); auto.
Qed.

Lemma size_delete m k :
  JsMap.size (JsMap.delete k m) = JsMap.size m - (if JsMap.has k m then 1 else 0).
Proof.
  unfold JsMap.size, JsMap.has.
  induction m as [|[k' v'] m IH]; cbn [JsMap.delete JsMap.get length].
  - reflexivity.
  - destruct (jseqb k' k); cbn [length]; [lia|].
    destruct (JsMap.get k m); lia.
Qed.

Lemma delete_set_fresh m k v :
  JsMap.get k m = None -> JsMap.delete k (JsMap.set k v m) = m.
Proof.
  induction m as [|[k' v'] m IH]; simpl.
  - now rewrite jseqb_refl.
  - destruct (jseqb k' k) eqn:E; [discriminate|]. simpl. rewrite E.
    intros Hn. now rewrite IH.
Qed.
End MoreMapFacts.

(** ** What the listeners do *)

Lemma callback_run h ev w : callback h ev w = (Normal tt, addUi [(h, ev)] w).
Proof. reflexivity. Qed.

Lemma stateListener_run l ev w :
  nth_error (sessions w) (owner l) <> None ->
  exists extra, UserSession.stateListener l ev w = (Normal tt, addUi extra w).
Proof.
  intros Hl. unfold UserSession.stateListener, bind at 1, getSession.
  destruct (nth_error (sessions w) (owner l)) as [s|] eqn:Hs; [|congruence].
  assert (Hup : exists extra,
             UserSession.updateUserList (owner l) w = (Normal tt, addUi extra w)).
  { unfold UserSession.updateUserList, bind, getSession, getChatState. rewrite Hs.
    eexists. apply callback_run. }
  assert (Hnone : exists extra, ret tt w = (Normal tt, addUi extra w)).
  { exists []. now rewrite addUi_nil. }
  destruct (event l), ev; try assumption; unfold when;
    match goal with
    | |- context [if ?b then _ else _] => destruct b
    | _ => idtac
    end; try assumption; eexists; apply callback_run.
Qed.

Lemma forEach_listeners_run ev (ls : list Listener) : forall w,
  Forall (fun l => nth_error (sessions w) (owner l) <> None) ls ->
  exists extra,
    forEach ls (fun l => UserSession.stateListener l ev) w = (Normal tt, addUi extra w).
Proof.
  induction ls as [|l ls IH]; intros w Hls.
  - exists []. simpl. now rewrite addUi_nil.
  - inversion Hls as [|? ? Hl Hrest]; subst. simpl. unfold bind.
    destruct (stateListener_run l ev w Hl) as [x ->].
    destruct (IH (addUi x w) Hrest) as [y ->].
    exists (x ++ y). now rewrite addUi_addUi.
Qed.

Lemma emit_run ev w :
  listenersOwned w ->
  exists extra,
    ChatState.emit UserSession.stateListener ev w = (Normal tt, addUi extra w).
Proof.
  intros Hw. unfold ChatState.emit, bind, getChatState.
  apply forEach_listeners_run.
  apply Forall_forall. intros l Hl. apply filter_In in Hl as [Hl _].
  now apply (proj1 (Forall_forall _ _) Hw).
Qed.

Lemma listenersOwned_withUsers us w : listenersOwned w -> listenersOwned (withUsers us w).
Proof. exact (fun H => H). Qed.

(** ** Registration *)

(** X13.  [addUser] registers the user under the session id, with the
    clock reading as the time of joining, and returns the record: after
    it [getUser] finds the record under that id and finds under every
    other id what it found before, and the number of users has grown by
    one unless the id was registered already, in which case the old
    record is replaced.  Histories, listeners, sessions and overlay are
    as before. *)
Theorem addUser_registers (sessionId nick fingerprint room : jsstring) (w : World) :
  listenersOwned w ->
  let user := {| UserInfo.sessionId := sessionId; UserInfo.nick := nick;
                 UserInfo.fingerprint := fingerprint; UserInfo.room := room;
                 UserInfo.joinedAt := clock (env w) (clockTick (env w)) |} in
  let w' := exec (UserSession.chatState_addUser sessionId nick fingerprint room) w in
  result (UserSession.chatState_addUser sessionId nick fingerprint room) w = Normal user
  /\ ChatState.getUser sessionId (chatState w') = Some user
  /\ (forall other, other <> sessionId ->
        ChatState.getUser other (chatState w') = ChatState.getUser other (chatState w))
  /\ ChatState.getUserCount (chatState w')
     = ChatState.getUserCount (chatState w)
       + (if JsMap.has sessionId (users (chatState w)) then 0 else 1)
  /\ (distinctKeys (users (chatState w)) -> distinctKeys (users (chatState w')))
  /\ roomMessages (chatState w') = roomMessages (chatState w)
  /\ listeners (chatState w') = listeners (chatState w)
  /\ sessions w' = sessions w
  /\ overlay w' = overlay w.
Proof.
  intros Hw user w'.
  set (w1 := {| chatState := with_users (JsMap.set sessionId user (users (chatState w)))
                                        (chatState w);
                sessions := sessions w; ui := ui w; overlay := overlay w;
                env := snd (Date_now (env w)) |}).
  assert (Hw1 : listenersOwned w1) by exact Hw.
  destruct (emit_run (EvUserJoin user) Hw1) as [extra Hemit].
  assert (Hrun : UserSession.chatState_addUser sessionId nick fingerprint room w
                 = (Normal user, addUi extra w1)).
  { transitivity
      (match ChatState.emit UserSession.stateListener (EvUserJoin user) w1 with
       | (Normal _, w2) => (Normal user, w2)
       | (Throw err, w2) => (Throw err, w2)
       end); [reflexivity|].
    now rewrite Hemit. }
  unfold w', exec, result, ChatState.getUser, ChatState.getUserCount. rewrite Hrun.
  cbn [fst snd addUi chatState w1 with_users users roomMessages listeners sessions
       overlay].
  split; [reflexivity|]. split; [apply JsMapFacts.get_set_same|].
  split; [intros other D; now apply JsMapFacts.get_set_other|].
  split; [apply size_set|]. split; [apply distinctKeys_set|].
  repeat split.
Qed.

(** X14.  [removeUser] returns the record registered under the session
    id, or nothing when there is none, in which case nothing at all
    happens.  After it no record is registered under that id, the other
    records are as before, and the number of users has gone down by one
    if there was a record. *)
Theorem removeUser_unregisters (sessionId : jsstring) (w : World) :
  listenersOwned w ->
  distinctKeys (users (chatState w)) ->
  let w' := exec (UserSession.chatState_removeUser sessionId) w in
  result (UserSession.chatState_removeUser sessionId) w
  = Normal (ChatState.getUser sessionId (chatState w))
  /\ (ChatState.getUser sessionId (chatState w) = None -> w' = w)
  /\ ChatState.getUser sessionId (chatState w') = None
  /\ (forall other, other <> sessionId ->
        ChatState.getUser other (chatState w') = ChatState.getUser other (chatState w))
  /\ ChatState.getUserCount (chatState w')
     = ChatState.getUserCount (chatState w)
       - (if JsMap.has sessionId (users (chatState w)) then 1 else 0)
  /\ distinctKeys (users (chatState w'))
  /\ roomMessages (chatState w') = roomMessages (chatState w)
  /\ listeners (chatState w') = listeners (chatState w)
  /\ sessions w' = sessions w
  /\ overlay w' = overlay w.
Proof.
  intros Hw Hkeys w'. unfold ChatState.getUser.
  destruct (JsMap.get sessionId (users (chatState w))) as [user|] eqn:Hu.
  - set (w1 := withUsers (JsMap.delete sessionId (users (chatState w))) w).
    assert (Hw1 : listenersOwned w1) by exact Hw.
    destruct (emit_run (EvUserLeave user) Hw1) as [extra Hemit].
    assert (Hrun : UserSession.chatState_removeUser sessionId w
                   = (Normal (Some user), addUi extra w1)).
    { transitivity
        (match JsMap.get sessionId (users (chatState w)) with
         | Some user =>
             match ChatState.emit UserSession.stateListener (EvUserLeave user)
                     (withUsers (JsMap.delete sessionId (users (chatState w))) w) with
             | (Normal _, w2) => (Normal (Some user), w2)
             | (Throw err, w2) => (Throw err, w2)
             end
         | None => (Normal None, w)
         end).
      { unfold UserSession.chatState_removeUser, ChatState.removeUser.
        unfold bind at 1, getChatState.
        destruct (JsMap.get sessionId (users (chatState w))); reflexivity. }
      rewrite Hu. fold w1. now rewrite Hemit. }
    unfold w', exec, result, ChatState.getUserCount. rewrite Hrun.
    cbn [fst snd addUi chatState w1 withUsers withChatState with_users users
         roomMessages listeners sessions overlay].
    unfold JsMap.has. rewrite Hu.
    split; [reflexivity|]. split; [discriminate|].
    split; [now apply get_delete_same|].
    split; [intros other D; now apply get_delete_other|].
    split; [rewrite size_delete; unfold JsMap.has; now rewrite Hu|].
    split; [now apply distinctKeys_delete|]. repeat split.
  - assert (Hrun : UserSession.chatState_removeUser sessionId w = (Normal None, w)).
    { unfold UserSession.chatState_removeUser, ChatState.removeUser.
      unfold bind, getChatState. now rewrite Hu. }
    unfold w', exec, result. rewrite Hrun. cbn [fst snd].
    unfold ChatState.getUserCount, JsMap.has. rewrite Hu.
    split; [reflexivity|]. split; [reflexivity|]. split; [reflexivity|].
    split; [reflexivity|]. split; [lia|]. split; [assumption|]. repeat split.
Qed.

(** The record [user] with another nick, or in another room. *)
Lemma setNick_run sessionId newNick w user :
  listenersOwned w ->
  JsMap.get sessionId (users (chatState w)) = Some user ->
  let user' := {| UserInfo.sessionId := UserInfo.sessionId user;
                  UserInfo.nick := newNick;
                  UserInfo.fingerprint := UserInfo.fingerprint user;
                  UserInfo.room := UserInfo.room user;
                  UserInfo.joinedAt := UserInfo.joinedAt user |} in
  exists extra,
    UserSession.chatState_setNick sessionId newNick w
    = (Normal true,
       addUi extra (withUsers (JsMap.set sessionId user' (users (chatState w))) w)).
Proof.
  intros Hw Hu user'.
  set (w1 := withUsers (JsMap.set sessionId user' (users (chatState w))) w).
  assert (Hw1 : listenersOwned w1) by exact Hw.
  destruct (emit_run (EvUserNick user' (UserInfo.nick user)) Hw1) as [extra Hemit].
  exists extra.
  transitivity
    (match JsMap.get sessionId (users (chatState w)) with
     | Some user =>
         match ChatState.emit UserSession.stateListener
                 (EvUserNick {| UserInfo.sessionId := UserInfo.sessionId user;
                                UserInfo.nick := newNick;
                                UserInfo.fingerprint := UserInfo.fingerprint user;
                                UserInfo.room := UserInfo.room user;
                                UserInfo.joinedAt := UserInfo.joinedAt user |}
                             (UserInfo.nick user))
                 (withUsers
                    (JsMap.set sessionId
                       {| UserInfo.sessionId := UserInfo.sessionId user;
                          UserInfo.nick := newNick;
                          UserInfo.fingerprint := UserInfo.fingerprint user;
                          UserInfo.room := UserInfo.room user;
                          UserInfo.joinedAt := UserInfo.joinedAt user |}
                       (users (chatState w))) w) with
         | (Normal _, w2) => (Normal true, w2)
         | (Throw err, w2) => (Throw err, w2)
         end
     | None => (Normal false, w)
     end).
  { unfold UserSession.chatState_setNick, ChatState.setNick.
    unfold bind at 1, getChatState.
    destruct (JsMap.get sessionId (users (chatState w))); reflexivity. }
  rewrite Hu. fold user'. fold w1. now rewrite Hemit.
Qed.

Lemma setRoom_run sessionId newRoom w user :
  listenersOwned w ->
  JsMap.get sessionId (users (chatState w)) = Some user ->
  let user' := {| UserInfo.sessionId := UserInfo.sessionId user;
                  UserInfo.nick := UserInfo.nick user;
                  UserInfo.fingerprint := UserInfo.fingerprint user;
                  UserInfo.room := newRoom;
                  UserInfo.joinedAt := UserInfo.joinedAt user |} in
  exists extra,
    UserSession.chatState_setRoom sessionId newRoom w
    = (Normal true,
       addUi extra (withUsers (JsMap.set sessionId user' (users (chatState w))) w)).
Proof.
  intros Hw Hu user'.
  set (w1 := withUsers (JsMap.set sessionId user' (users (chatState w))) w).
  assert (Hw1 : listenersOwned w1) by exact Hw.
  destruct (emit_run (EvUserRoom user' (UserInfo.room user)) Hw1) as [extra Hemit].
  exists extra.
  transitivity
    (match JsMap.get sessionId (users (chatState w)) with
     | Some user =>
         match ChatState.emit UserSession.stateListener
                 (EvUserRoom {| UserInfo.sessionId := UserInfo.sessionId user;
                                UserInfo.nick := UserInfo.nick user;
                                UserInfo.fingerprint := UserInfo.fingerprint user;
                                UserInfo.room := newRoom;
                                UserInfo.joinedAt := UserInfo.joinedAt user |}
                             (UserInfo.room user))
                 (withUsers
                    (JsMap.set sessionId
                       {| UserInfo.sessionId := UserInfo.sessionId user;
                          UserInfo.nick := UserInfo.nick user;
                          UserInfo.fingerprint := UserInfo.fingerprint user;
                          UserInfo.room := newRoom;
                          UserInfo.joinedAt := UserInfo.joinedAt user |}
                       (users (chatState w))) w) with
         | (Normal _, w2) => (Normal true, w2)
         | (Throw err, w2) => (Throw err, w2)
         end
     | None => (Normal false, w)
     end).
  { unfold UserSession.chatState_setRoom, ChatState.setRoom.
    unfold bind at 1, getChatState.
    destruct (JsMap.get sessionId (users (chatState w))); reflexivity. }
  rewrite Hu. fold user'. fold w1. now rewrite Hemit.
Qed.

Lemma setNick_unknown sessionId newNick w :
  JsMap.get sessionId (users (chatState w)) = None ->
  UserSession.chatState_setNick sessionId newNick w = (Normal false, w).
Proof.
  intros Hu. unfold UserSession.chatState_setNick, ChatState.setNick, bind, getChatState.
  now rewrite Hu.
Qed.

Lemma setRoom_unknown sessionId newRoom w :
  JsMap.get sessionId (users (chatState w)) = None ->
  UserSession.chatState_setRoom sessionId newRoom w = (Normal false, w).
Proof.
  intros Hu. unfold UserSession.chatState_setRoom, ChatState.setRoom, bind, getChatState.
  now rewrite Hu.
Qed.

(** X15.  [setNick] and [setRoom] answer false for a session id that is
    not registered, and then nothing at all happens.  For a registered id
    they answer true, and afterwards the record under that id has the new
    nick, or the new room, and is otherwise as it was; the records under
    the other ids and the number of users are as before. *)
Theorem setNick_setRoom_update (sessionId value : jsstring) (w : World) :
  listenersOwned w ->
  (ChatState.getUser sessionId (chatState w) = None ->
   UserSession.chatState_setNick sessionId value w = (Normal false, w)
   /\ UserSession.chatState_setRoom sessionId value w = (Normal false, w))
  /\ (forall user, ChatState.getUser sessionId (chatState w) = Some user ->
      let n := exec (UserSession.chatState_setNick sessionId value) w in
      let r := exec (UserSession.chatState_setRoom sessionId value) w in
      result (UserSession.chatState_setNick sessionId value) w = Normal true
      /\ result (UserSession.chatState_setRoom sessionId value) w = Normal true
      /\ ChatState.getUser sessionId (chatState n)
         = Some {| UserInfo.sessionId := UserInfo.sessionId user;
                   UserInfo.nick := value;
                   UserInfo.fingerprint := UserInfo.fingerprint user;
                   UserInfo.room := UserInfo.room user;
                   UserInfo.joinedAt := UserInfo.joinedAt user |}
      /\ ChatState.getUser sessionId (chatState r)
         = Some {| UserInfo.sessionId := UserInfo.sessionId user;
                   UserInfo.nick := UserInfo.nick user;
                   UserInfo.fingerprint := UserInfo.fingerprint user;
                   UserInfo.room := value;
                   UserInfo.joinedAt := UserInfo.joinedAt user |}
      /\ (forall other, other <> sessionId ->
            ChatState.getUser other (chatState n) = ChatState.getUser other (chatState w)
            /\ ChatState.getUser other (chatState r)
               = ChatState.getUser other (chatState w))
      /\ ChatState.getUserCount (chatState n) = ChatState.getUserCount (chatState w)
      /\ ChatState.getUserCount (chatState r) = ChatState.getUserCount (chatState w)
      /\ sessions n = sessions w /\ sessions r = sessions w).
Proof.
  intros Hw. unfold ChatState.getUser. split.
  - intros Hu. split; [now apply setNick_unknown | now apply setRoom_unknown].
  - intros user Hu.
    destruct (setNick_run sessionId value Hw Hu) as [xn Hn].
    destruct (setRoom_run sessionId value Hw Hu) as [xr Hr].
    unfold exec, result, ChatState.getUserCount. rewrite Hn, Hr.
    cbn [fst snd addUi chatState withUsers withChatState with_users users sessions].
    rewrite !size_set. unfold JsMap.has. rewrite Hu.
    split; [reflexivity|]. split; [reflexivity|].
    split; [apply JsMapFacts.get_set_same|]. split; [apply JsMapFacts.get_set_same|].
    split; [intros other D; split; now apply JsMapFacts.get_set_other|].
    repeat split; lia.
Qed.

(* ================================================================== *)
(** * Further properties: the subscriptions of the router *)
(* ================================================================== *)

Lemma updateAt_same {A} (l : list A) : forall h x,
  nth_error l h = Some x -> updateAt h x l = l.
Proof.
  induction l as [|y l IH]; intros [|h] x; simpl; try discriminate.
  - now intros [= ->].
  - intros E. now rewrite IH.
Qed.

Lemma updateAt_updateAt {A} (l : list A) : forall h x y,
  updateAt h y (updateAt h x l) = updateAt h y l.
Proof.
  induction l as [|z l IH]; intros [|h] x y; simpl; try reflexivity.
  now rewrite IH.
Qed.

Lemma with_pubsub_same (s : UserSession) :
  with_pubsub {| subscriptions := subscriptions (pubsub s) |} s = s.
Proof. destruct s as [? ? ? ? [subs] ? ? ? ?]. reflexivity. Qed.

Lemma routed_nothing h s w :
  nth_error (sessions w) h = Some s ->
  routed h s (subscriptions (pubsub s)) [] w = w.
Proof.
  intros Hs. unfold routed. rewrite with_pubsub_same, updateAt_same by assumption.
  rewrite app_nil_r. now destruct w.
Qed.

Lemma nth_error_routed h s subs calls w :
  nth_error (sessions w) h = Some s ->
  nth_error (sessions (routed h s subs calls w)) h
  = Some (with_pubsub {| subscriptions := subs |} s).
Proof. intros Hs. unfold routed. simpl. now apply nth_error_updateAt_same with (y := s). Qed.

Lemma routed_routed h s subs calls subs' calls' w :
  routed h (with_pubsub {| subscriptions := subs |} s) subs' calls'
         (routed h s subs calls w)
  = routed h s subs' (calls ++ calls') w.
Proof.
  unfold routed. simpl. now rewrite updateAt_updateAt, app_assoc.
Qed.

Lemma router_joinRoom_run h roomName handler w s :
  nth_error (sessions w) h = Some s ->
  ChatPubSub.joinRoom h roomName handler w
  = (Normal tt,
     if JsMap.has roomName (subscriptions (pubsub s)) then w
     else routed h s (JsMap.set roomName handler (subscriptions (pubsub s)))
                 [subscribe (ChatPubSub.getTopic roomName)] w).
Proof.
  intros Hs. unfold ChatPubSub.joinRoom, ChatPubSub.getSubscriptions,
    ChatPubSub.setSubscriptions, modifySession, bind, getSession, ret.
  rewrite Hs. destruct (JsMap.has roomName (subscriptions (pubsub s))); [reflexivity|].
  rewrite Hs. reflexivity.
Qed.

Lemma router_leaveRoom_run h roomName w s :
  nth_error (sessions w) h = Some s ->
  ChatPubSub.leaveRoom h roomName w
  = (Normal tt,
     routed h s (JsMap.delete roomName (subscriptions (pubsub s)))
            [unsubscribe (ChatPubSub.getTopic roomName)] w).
Proof.
  intros Hs. unfold ChatPubSub.leaveRoom, ChatPubSub.getSubscriptions,
    ChatPubSub.setSubscriptions, modifySession, bind, getSession, ret.
  rewrite Hs. rewrite Hs. reflexivity.
Qed.

Lemma forEach_overlayCall {A} (f : A -> OverlayCall) (l : list A) : forall w,
  forEach l (fun x => overlayCall (f x)) w
  = (Normal tt,
     {| chatState := chatState w; sessions := sessions w; ui := ui w;
        overlay := overlay w ++ map f l; env := env w |}).
Proof.
  induction l as [|x l IH]; intros w; simpl.
  - unfold ret. rewrite app_nil_r. now destruct w.
  - unfold bind, overlayCall at 1. rewrite IH. simpl.
    now rewrite <- app_assoc.
Qed.

Lemma router_destroy_run h w s :
  nth_error (sessions w) h = Some s ->
  ChatPubSub.destroy h w
  = (Normal tt,
     routed h s JsMap.empty
            (removeEventListener h
             :: map (fun roomName => unsubscribe (ChatPubSub.getTopic roomName))
                    (JsMap.keys (subscriptions (pubsub s)))) w).
Proof.
  intros Hs. unfold ChatPubSub.destroy. unfold bind at 1, overlayCall at 1.
  unfold bind at 1, ChatPubSub.getSubscriptions, bind at 1, getSession.
  cbn [sessions]. rewrite Hs. unfold ret at 1.
  unfold bind at 1. rewrite forEach_overlayCall.
  unfold ChatPubSub.setSubscriptions, modifySession, bind, getSession, setSession.
  cbn [sessions chatState ui overlay env]. rewrite Hs.
  unfold routed. now rewrite <- app_assoc.
Qed.

(** X16.  Joining a room subscribes once.  The first [joinRoom] for a
    room records the handler under the room and subscribes the overlay to
    the room's topic; the room is then among the subscribed rooms.  A
    [joinRoom] for a room that is subscribed already does nothing at all:
    no second subscription, and the handler stays the first one. *)
Theorem router_joinRoom_once (h : nat) (roomName : jsstring)
    (handler handler' : MessageHandler) (w : World) (s : UserSession) :
  nth_error (sessions w) h = Some s ->
  let w1 := exec (ChatPubSub.joinRoom h roomName handler) w in
  result (ChatPubSub.joinRoom h roomName handler) w = Normal tt
  /\ overlay w1
     = overlay w ++ (if JsMap.has roomName (subscriptions (pubsub s)) then []
                     else [subscribe (ChatPubSub.getTopic roomName)])
  /\ In roomName (subscribedRooms h w1)
  /\ (forall r, In r (subscribedRooms h w) -> In r (subscribedRooms h w1))
  /\ (JsMap.has roomName (subscriptions (pubsub s)) = true -> w1 = w)
  /\ ChatPubSub.joinRoom h roomName handler' w1 = (Normal tt, w1)
  /\ chatState w1 = chatState w /\ ui w1 = ui w.
Proof.
  intros Hs w1. unfold w1, exec, result, subscribedRooms.
  rewrite (@router_joinRoom_run h roomName handler w s Hs). cbn [fst snd].
  rewrite Hs.
  destruct (JsMap.has roomName (subscriptions (pubsub s))) eqn:Ehas.
  - rewrite Hs, app_nil_r. rewrite (@router_joinRoom_run h roomName handler' w s Hs), Ehas.
    repeat split; auto.
    unfold JsMap.has in Ehas.
    destruct (JsMap.get roomName (subscriptions (pubsub s))) eqn:Eg; [|discriminate].
    destruct (In_dec (list_eq_dec N.eq_dec) roomName
                (JsMap.keys (subscriptions (pubsub s)))) as [Hin|Hn]; [assumption|].
    apply get_none_keys in Hn. congruence.
  - rewrite (@nth_error_routed h s _ _ w Hs). cbn [pubsub with_pubsub subscriptions].
    rewrite keys_set, Ehas.
    rewrite (@router_joinRoom_run h roomName handler' _ _ (@nth_error_routed h s _ _ w Hs)).
    cbn [pubsub with_pubsub subscriptions]. unfold JsMap.has.
    rewrite JsMapFacts.get_set_same.
    split; [reflexivity|]. split; [reflexivity|].
    split; [apply in_or_app; right; now left|].
    split; [intros r Hr; apply in_or_app; now left|].
    split; [discriminate|]. repeat split.
Qed.

(** X17.  Leaving a room unsubscribes.  [leaveRoom] always tells the
    overlay to unsubscribe from the room's topic, also when the room was
    not subscribed; afterwards the room is not among the subscribed rooms,
    and the other rooms are those that were subscribed before.  Leaving a
    room right after the first [joinRoom] for it gives back the sessions
    as they were. *)
Theorem router_leaveRoom_unsubscribes (h : nat) (roomName : jsstring)
    (handler : MessageHandler) (w : World) (s : UserSession) :
  nth_error (sessions w) h = Some s ->
  distinctKeys (subscriptions (pubsub s)) ->
  let w1 := exec (ChatPubSub.leaveRoom h roomName) w in
  result (ChatPubSub.leaveRoom h roomName) w = Normal tt
  /\ overlay w1 = overlay w ++ [unsubscribe (ChatPubSub.getTopic roomName)]
  /\ ~ In roomName (subscribedRooms h w1)
  /\ (forall r, r <> roomName ->
        (In r (subscribedRooms h w1) <-> In r (subscribedRooms h w)))
  /\ chatState w1 = chatState w /\ ui w1 = ui w
  /\ (JsMap.has roomName (subscriptions (pubsub s)) = false ->
      let w2 := exec (ChatPubSub.leaveRoom h roomName)
                     (exec (ChatPubSub.joinRoom h roomName handler) w) in
      sessions w2 = sessions w
      /\ overlay w2 = overlay w ++ [subscribe (ChatPubSub.getTopic roomName);
                                    unsubscribe (ChatPubSub.getTopic roomName)]).
Proof.
  intros Hs Hkeys w1. unfold w1, exec, result, subscribedRooms.
  rewrite (@router_leaveRoom_run h roomName w s Hs). cbn [fst snd].
  rewrite (@nth_error_routed h s _ _ w Hs), Hs. cbn [pubsub with_pubsub subscriptions].
  split; [reflexivity|]. split; [reflexivity|]. split; [|split; [|split; [|split]]].
  - apply get_none_keys. now apply get_delete_same.
  - intros r D. split; intros Hr.
    + destruct (In_dec (list_eq_dec N.eq_dec) r (JsMap.keys (subscriptions (pubsub s))))
        as [Hin|Hn]; [assumption|].
      apply get_none_keys in Hn. apply get_none_keys in Hr; [contradiction|].
      now rewrite get_delete_other.
    + destruct (In_dec (list_eq_dec N.eq_dec) r
                  (JsMap.keys (JsMap.delete roomName (subscriptions (pubsub s)))))
        as [Hin|Hn]; [assumption|].
      apply get_none_keys in Hn. rewrite get_delete_other in Hn by assumption.
      apply get_none_keys in Hn. contradiction.
  - reflexivity.
  - reflexivity.
  - intros Ehas. rewrite (@router_joinRoom_run h roomName handler w s Hs), Ehas. cbn [snd].
    rewrite (@router_leaveRoom_run h roomName _ _ (@nth_error_routed h s _ _ w Hs)). cbn [snd].
    cbn [pubsub with_pubsub subscriptions]. rewrite routed_routed.
    rewrite delete_set_fresh.
    + unfold routed. cbn [sessions overlay].
      rewrite with_pubsub_same, updateAt_same by assumption. split; reflexivity.
    + unfold JsMap.has in Ehas.
      now destruct (JsMap.get roomName (subscriptions (pubsub s))).
Qed.

(** X18.  Destroying a router detaches it: the overlay is told to remove
    the router's listener and then to unsubscribe from the topic of every
    subscribed room, in the order of subscription, and no room is
    subscribed afterwards. *)
Theorem router_destroy_unsubscribes_all (h : nat) (w : World) (s : UserSession) :
  nth_error (sessions w) h = Some s ->
  let w1 := exec (ChatPubSub.destroy h) w in
  result (ChatPubSub.destroy h) w = Normal tt
  /\ overlay w1
     = overlay w ++ removeEventListener h
                    :: map (fun roomName => unsubscribe (ChatPubSub.getTopic roomName))
                           (subscribedRooms h w)
  /\ subscribedRooms h w1 = []
  /\ result (ChatPubSub.getSubscribedRooms h) w1 = Normal []
  /\ chatState w1 = chatState w /\ ui w1 = ui w.
Proof.
  intros Hs w1. unfold w1, exec, result, subscribedRooms, ChatPubSub.getSubscribedRooms,
    ChatPubSub.getSubscriptions, bind, getSession, ret.
  rewrite (@router_destroy_run h w s Hs). cbn [fst snd].
  rewrite (@nth_error_routed h s _ _ w Hs), Hs. repeat split.
Qed.

(* ================================================================== *)
(** * Further properties: messages through the session *)
(* ================================================================== *)

Lemma forEach_app {A} (f : A -> M unit) (a b : list A) : forall w,
  forEach (a ++ b) f w
  = match forEach a f w with
    | (Normal _, w1) => forEach b f w1
    | (Throw err, w1) => (Throw err, w1)
    end.
Proof.
  induction a as [|x a IH]; intros w; simpl; [reflexivity|].
  unfold bind. destruct (f x w) as [[[]|err] w1]; [apply IH | reflexivity].
Qed.

(** What the listener for messages of a session does. *)
Lemma messageListener_run (l : Listener) (m : ChatMessage.t) (w : World) (s : UserSession) :
  nth_error (sessions w) (owner l) = Some s ->
  UserSession.stateListener l (EvMessage m) w
  = (Normal tt,
     if EventName_eqb (event l) ev_message
        && (jseqb (ChatMessage.room m) (_room s)
            && negb (jseqb (ChatMessage.fingerprint m) (fingerprint s)))
     then addUi [(owner l, onMessage m)] w else w).
Proof.
  intros Hs. unfold UserSession.stateListener, bind, getSession. rewrite Hs.
  destruct (event l); simpl; try reflexivity.
  destruct (jseqb (ChatMessage.room m) (_room s)
            && negb (jseqb (ChatMessage.fingerprint m) (fingerprint s))); reflexivity.
Qed.

Lemma listensTo_addUi m extra w h : listensTo m (addUi extra w) h <-> listensTo m w h.
Proof. reflexivity. Qed.

Lemma forEach_message_run (m : ChatMessage.t) (ls : list Listener) : forall w,
  Forall (fun l => nth_error (sessions w) (owner l) <> None) ls ->
  exists extra,
    forEach ls (fun l => UserSession.stateListener l (EvMessage m)) w
    = (Normal tt, addUi extra w)
    /\ Forall (fun x => snd x = onMessage m /\ listensTo m w (fst x)) extra
    /\ forall l, In l ls -> event l = ev_message -> listensTo m w (owner l) ->
                 In (owner l, onMessage m) extra.
Proof.
  induction ls as [|l ls IH]; intros w Hls.
  - exists []. simpl. rewrite addUi_nil. repeat split; [constructor | intros l []].
  - inversion Hls as [|? ? Hl Hrest]; subst.
    destruct (nth_error (sessions w) (owner l)) as [s|] eqn:Hs; [|congruence].
    simpl. unfold bind. rewrite (messageListener_run l m w Hs).
    set (shown := EventName_eqb (event l) ev_message
                  && (jseqb (ChatMessage.room m) (_room s)
                      && negb (jseqb (ChatMessage.fingerprint m) (fingerprint s)))).
    assert (Hshown : shown = true ->
                     listensTo m w (owner l)).
    { unfold shown. intros E. apply andb_true_iff in E as [_ E].
      apply andb_true_iff in E as [E1 E2]. apply jseqb_eq in E1.
      apply negb_true_iff, jseqb_neq in E2. exists s. auto. }
    assert (Hnot : shown = false -> event l = ev_message ->
                   ~ listensTo m w (owner l)).
    { unfold shown. intros E Hev (s' & Hs' & Hr & Hf). rewrite Hev in E. simpl in E.
      rewrite Hs in Hs'. injection Hs' as <-.
      apply jseqb_eq in Hr. apply jseqb_neq in Hf. now rewrite Hr, Hf in E. }
    destruct shown.
    + destruct (IH (addUi [(owner l, onMessage m)] w) Hrest) as (extra & -> & Hall & Hin).
      exists ((owner l, onMessage m) :: extra). rewrite addUi_addUi.
      split; [reflexivity|]. split.
      * constructor; [split; [reflexivity | now apply Hshown] | exact Hall].
      * intros l' [<-|Hl'] Hev Hto; [now left|]. right. now apply Hin.
    + destruct (IH w Hrest) as (extra & -> & Hall & Hin).
      exists extra. split; [reflexivity|]. split; [assumption|].
      intros l' [<-|Hl'] Hev Hto; [now elim (Hnot eq_refl Hev) | now apply Hin].
Qed.

Lemma addMessage_run (m : ChatMessage.t) (w : World) :
  listenersOwned w ->
  exists extra,
    UserSession.chatState_addMessage m w
    = (Normal tt, addUi extra (withChatState (pushed m (chatState w)) w))
    /\ Forall (fun x => snd x = onMessage m /\ listensTo m w (fst x)) extra
    /\ forall h, In {| event := ev_message; owner := h |} (listeners (chatState w)) ->
                 listensTo m w h -> In (h, onMessage m) extra.
Proof.
  intros Hw.
  set (w1 := withChatState (pushed m (chatState w)) w).
  destruct (@forEach_message_run m
              (filter (fun l => EventName_eqb (event l) ev_message)
                      (listeners (chatState w1))) w1) as (extra & Hrun & Hall & Hin).
  { apply Forall_forall. intros l Hl. apply filter_In in Hl as [Hl _].
    now apply (proj1 (Forall_forall _ _) Hw). }
  exists extra. split; [|split].
  - transitivity (ChatState.emit UserSession.stateListener (EvMessage m) w1);
      [reflexivity|]. exact Hrun.
  - exact Hall.
  - intros h Hl Hto.
    apply (Hin {| event := ev_message; owner := h |}); auto.
    apply filter_In. split; [exact Hl | reflexivity].
Qed.

(** X19.  A message added to the directory is kept in the history of its
    room and shown to the sessions in that room, except its author: the
    callbacks that [addMessage] brings about all show this message, each
    to a session that is in the room of the message and has another
    fingerprint than the message, and every such session whose listener
    for messages is attached is shown it.  Sessions and overlay are as
    before. *)
Theorem addMessage_reaches_the_room (m : ChatMessage.t) (w : World) :
  listenersOwned w ->
  let w' := exec (UserSession.chatState_addMessage m) w in
  result (UserSession.chatState_addMessage m) w = Normal tt
  /\ chatState w' = pushed m (chatState w)
  /\ sessions w' = sessions w
  /\ overlay w' = overlay w
  /\ exists shown,
       ui w' = ui w ++ shown
       /\ (forall h ev, In (h, ev) shown -> ev = onMessage m /\ listensTo m w h)
       /\ (forall h, In {| event := ev_message; owner := h |} (listeners (chatState w)) ->
                     listensTo m w h -> In (h, onMessage m) shown).
Proof.
  intros Hw w'. destruct (addMessage_run m Hw) as (extra & Hrun & Hall & Hin).
  unfold w', exec, result. rewrite Hrun. cbn [fst snd].
  repeat split. exists extra. split; [reflexivity|]. split; [|exact Hin].
  intros h ev Hx. exact (proj1 (Forall_forall _ _) Hall (h, ev) Hx).
Qed.

(** X20.  A message that arrives from the overlay for a session:
    one that carries the session's own fingerprint is ignored, and
    nothing at all happens; any other is added to the history of its
    room and then handed to the session's [onMessage] callback, which is
    the last callback invoked.  A session whose listener for messages is
    attached and which is in the room of the message has by then been
    shown the message by that listener already, so that its callback is
    invoked twice for the one message. *)
Theorem handlePubsubMessage_stores_and_shows (h : nat) (m : ChatMessage.t)
    (w : World) (s : UserSession) :
  nth_error (sessions w) h = Some s ->
  listenersOwned w ->
  (ChatMessage.fingerprint m = fingerprint s ->
   UserSession.handlePubsubMessage h m w = (Normal tt, w))
  /\ (ChatMessage.fingerprint m <> fingerprint s ->
      let w' := exec (UserSession.handlePubsubMessage h m) w in
      result (UserSession.handlePubsubMessage h m) w = Normal tt
      /\ chatState w' = pushed m (chatState w)
      /\ sessions w' = sessions w
      /\ overlay w' = overlay w
      /\ (exists shown, ui w' = ui w ++ shown ++ [(h, onMessage m)])
      /\ (In {| event := ev_message; owner := h |} (listeners (chatState w)) ->
          ChatMessage.room m = _room s ->
          exists a b, ui w' = ui w ++ a ++ (h, onMessage m) :: b ++ [(h, onMessage m)])).
Proof.
  intros Hs Hw. split.
  - intros Hf. unfold UserSession.handlePubsubMessage, bind, getSession. rewrite Hs.
    apply jseqb_eq in Hf. now rewrite Hf.
  - intros Hf. destruct (addMessage_run m Hw) as (extra & Hrun & _ & Hin).
    assert (Hall : UserSession.handlePubsubMessage h m w
                   = (Normal tt,
                      addUi (extra ++ [(h, onMessage m)])
                            (withChatState (pushed m (chatState w)) w))).
    { unfold UserSession.handlePubsubMessage, bind at 1, getSession. rewrite Hs.
      apply jseqb_neq in Hf. rewrite Hf. unfold bind. rewrite Hrun.
      rewrite callback_run, addUi_addUi. reflexivity. }
    cbv zeta. unfold exec, result. rewrite Hall. cbn [fst snd].
    repeat split.
    + exists extra. reflexivity.
    + intros Hl Hr.
      assert (Hto : listensTo m w h) by (exists s; auto).
      destruct (in_split _ _ (Hin h Hl Hto)) as (a & b & ->).
      exists a, b. simpl. now rewrite <- app_assoc.
Qed.

(* ================================================================== *)
(** * Further properties: sending a message *)
(* ================================================================== *)

Lemma router_sendMessage_run h roomName message w :
  ChatPubSub.sendMessage h roomName message w
  = (if publishAccepted (env w) then Normal tt
     else match publishOutcome (env w) (publishTick (env w)) with
          | Some err => Throw err
          | None => Normal tt
          end,
     published (ChatPubSub.getTopic roomName) (encodeMessage message) w).
Proof.
  unfold ChatPubSub.sendMessage, encodeMessage, try_catch, ChatPubSub.overlayPublish,
    bind, overlayCall, askEnv, publishAccepted, noPeersSubscribed, published. simpl.
  destruct (publishOutcome (env w) (publishTick (env w))) as [err|]; simpl; [|reflexivity].
  unfold ret, throw. now destruct (includes _ _).
Qed.

Lemma record_env (rl : RateLimiter) (e : Env) :
  let e' := snd (RateLimiter.record rl e) in
  publishOutcome e' = publishOutcome e /\ publishTick e' = publishTick e
  /\ uuids e' = uuids e /\ uuidTick e' = uuidTick e /\ clock e' = clock e
  /\ clockTick e'
     = ((if fst (fst (RateLimiter.record rl e)) then 2 else 1) + clockTick e)%nat.
Proof.
  unfold RateLimiter.record, RateLimiter.canProceed. simpl.
  destruct (Z.of_nat (length (filter (fun t => t >? clock e (clockTick e) - windowMs rl)
                                      (timestamps rl))) <? maxRequests rl);
    simpl; repeat split.
Qed.

Lemma asked_parts h s w :
  chatState (asked h s w) = chatState w
  /\ ui (asked h s w) = ui w
  /\ overlay (asked h s w) = overlay w
  /\ env (asked h s w) = snd (RateLimiter.record (rateLimiter s) (env w))
  /\ sessions (asked h s w)
     = updateAt h (with_rateLimiter (snd (fst (RateLimiter.record (rateLimiter s) (env w)))) s)
                (sessions w).
Proof.
  unfold asked. destruct (RateLimiter.record (rateLimiter s) (env w)) as [[ok rl] e].
  repeat split.
Qed.

Lemma sendMessage_unfolded h content w s :
  nth_error (sessions w) h = Some s ->
  _isConnected s = true ->
  UserSession.sendMessage h content w
  = (if negb (fst (fst (RateLimiter.record (rateLimiter s) (env w))))
     then UserSession.showSystemMessage h rateLimitNotice
     else if negb (isMessageSizeValid content (maxMessageSize (config s)))
     then UserSession.showSystemMessage h (tooLongNotice s)
     else
       bind (askEnv (createTextMessage (_room s) (_nick s) (fingerprint s) content))
         (fun message =>
            try_catch
              (bind (ChatPubSub.sendMessage h (_room s) message)
                 (fun _ => bind (callback h (onMessage message))
                    (fun _ => UserSession.chatState_addMessage message)))
              (fun _ => UserSession.showSystemMessage h sendFailedNotice)))
    (asked h s w).
Proof.
  intros Hs Hc. unfold UserSession.sendMessage.
  unfold bind at 1. unfold getSession at 1. rewrite Hs, Hc. cbn [negb].
  unfold bind at 1. rewrite (@run_rateLimiter_record h w s Hs). reflexivity.
Qed.

Lemma nth_error_updateAt_some {A} (l : list A) : forall h k x,
  nth_error l k <> None -> nth_error (updateAt h x l) k <> None.
Proof.
  induction l as [|y l IH]; intros [|h] [|k] x; simpl; auto; try discriminate.
Qed.

Lemma listenersOwned_sessions w w' :
  chatState w' = chatState w ->
  (forall k, nth_error (sessions w) k <> None -> nth_error (sessions w') k <> None) ->
  listenersOwned w -> listenersOwned w'.
Proof.
  unfold listenersOwned. intros -> Hk Hw.
  eapply Forall_impl; [|exact Hw]. intros l. apply Hk.
Qed.

(** The world in which the message is composed, published and echoed. *)
Lemma sendMessage_accepted h content w s :
  nth_error (sessions w) h = Some s ->
  _isConnected s = true ->
  fst (fst (RateLimiter.record (rateLimiter s) (env w))) = true ->
  isMessageSizeValid content (maxMessageSize (config s)) = true ->
  listenersOwned w ->
  let message := composed h s content w in
  let wb := withEnv (snd (createTextMessage (_room s) (_nick s) (fingerprint s) content
                            (env (asked h s w)))) (asked h s w) in
  let wp := published (ChatPubSub.getTopic (_room s)) (encodeMessage message) wb in
  if publishAccepted (env w)
  then exists shown,
         UserSession.sendMessage h content w
         = (Normal tt,
            addUi ((h, onMessage message) :: shown)
                  (withChatState (pushed message (chatState w)) wp))
         /\ Forall (fun x => snd x = onMessage message /\ listensTo message wp (fst x))
                   shown
  else UserSession.sendMessage h content w
       = (Normal tt, addUi [(h, onSystemMessage sendFailedNotice)] wp).
Proof.
  intros Hs Hc Hok Hsize Hw message wb wp.
  destruct (asked_parts h s w) as (Hd & _ & _ & He & Hss).
  assert (Hpub : publishAccepted (env wb) = publishAccepted (env w)
                 /\ (publishOutcome (env wb) (publishTick (env wb))
                     = publishOutcome (env w) (publishTick (env w)))).
  { destruct (record_env (rateLimiter s) (env w)) as (H1 & H2 & _).
    unfold publishAccepted, wb. simpl. rewrite He, H1, H2. split; reflexivity. }
  destruct Hpub as [Hacc Hout].
  assert (Hwp : listenersOwned (addUi [(h, onMessage message)] wp)).
  { apply (@listenersOwned_sessions w); [exact Hd | | exact Hw].
    intros k Hk. unfold wp, wb. simpl. rewrite Hss. now apply nth_error_updateAt_some. }
  destruct (addMessage_run message Hwp) as (shown & Hadd & Hall & _).
  assert (Hgen : UserSession.sendMessage h content w
                 = if publishAccepted (env w)
                   then (Normal tt,
                         addUi shown
                           (withChatState
                              (pushed message
                                 (chatState (addUi [(h, onMessage message)] wp)))
                              (addUi [(h, onMessage message)] wp)))
                   else (Normal tt, addUi [(h, onSystemMessage sendFailedNotice)] wp)).
  { rewrite (@sendMessage_unfolded h content w s Hs Hc), Hok, Hsize. cbn [negb].
    transitivity
      (try_catch
         (bind (ChatPubSub.sendMessage h (_room s) message)
            (fun _ => bind (callback h (onMessage message))
               (fun _ => UserSession.chatState_addMessage message)))
         (fun _ => UserSession.showSystemMessage h sendFailedNotice) wb);
      [reflexivity|].
    unfold try_catch, bind at 1. rewrite router_sendMessage_run. fold wp. rewrite Hacc.
    destruct (publishAccepted (env w)) eqn:Ea.
    - unfold bind at 1. rewrite callback_run, Hadd. reflexivity.
    - rewrite Hout. unfold publishAccepted in Ea.
      destruct (publishOutcome (env w) (publishTick (env w))) as [err|]; [|discriminate].
      reflexivity. }
  rewrite Hgen. destruct (publishAccepted (env w)); [|reflexivity].
  exists shown. split; [|exact Hall].
  f_equal. unfold addUi, withChatState, wp, wb, published, withEnv.
  cbn [chatState sessions ui overlay env]. rewrite Hd, <- app_assoc. reflexivity.
Qed.

Lemma composed_fields h s content w :
  let message := composed h s content w in
  ChatMessage.type message = MessageType.text
  /\ ChatMessage.room message = _room s
  /\ ChatMessage.nick message = _nick s
  /\ ChatMessage.fingerprint message = fingerprint s
  /\ ChatMessage.content message = content
  /\ ChatMessage.oldNick message = None
  /\ ChatMessage.id message = uuids (env w) (uuidTick (env w))
  /\ (fst (fst (RateLimiter.record (rateLimiter s) (env w))) = true ->
      ChatMessage.timestamp message = clock (env w) (2 + clockTick (env w))).
Proof.
  destruct (asked_parts h s w) as (_ & _ & _ & He & _).
  destruct (record_env (rateLimiter s) (env w)) as (_ & _ & Hu & Hut & Hc & Hct).
  intros message. repeat (split; [reflexivity|]). split.
  - change (ChatMessage.id message)
      with (uuids (env (asked h s w)) (uuidTick (env (asked h s w)))).
    now rewrite He, Hu, Hut.
  - intros Hok.
    change (ChatMessage.timestamp message)
      with (clock (env (asked h s w)) (clockTick (env (asked h s w)))).
    rewrite He, Hc, Hct, Hok. reflexivity.
Qed.

(** X21.  A text message that a connected session sends, that its rate
    limiter lets through, that is within the size limit and that the
    overlay accepts (or fails to publish only for want of other peers) is
    published once to the topic of the session's room, shown to the
    sender once, and added to the history of the room; the listeners
    then show it to other sessions in the room and never to the sender
    again.  The message carries the session's room, nick and fingerprint,
    a fresh identifier and the reading of the clock. *)
Theorem sendMessage_delivers (h : nat) (content : jsstring) (w : World)
    (s : UserSession) :
  nth_error (sessions w) h = Some s ->
  _isConnected s = true ->
  fst (fst (RateLimiter.record (rateLimiter s) (env w))) = true ->
  isMessageSizeValid content (maxMessageSize (config s)) = true ->
  listenersOwned w ->
  publishAccepted (env w) = true ->
  let message := composed h s content w in
  let w' := exec (UserSession.sendMessage h content) w in
  result (UserSession.sendMessage h content) w = Normal tt
  /\ (ChatMessage.type message = MessageType.text
      /\ ChatMessage.room message = _room s
      /\ ChatMessage.nick message = _nick s
      /\ ChatMessage.fingerprint message = fingerprint s
      /\ ChatMessage.content message = content
      /\ ChatMessage.oldNick message = None
      /\ ChatMessage.id message = uuids (env w) (uuidTick (env w))
      /\ ChatMessage.timestamp message = clock (env w) (2 + clockTick (env w)))
  /\ overlay w'
     = overlay w ++ [publish (ChatPubSub.getTopic (_room s)) (encodeMessage message)]
  /\ chatState w' = pushed message (chatState w)
  /\ exists shown,
       ui w' = ui w ++ (h, onMessage message) :: shown
       /\ forall h' ev, In (h', ev) shown ->
            ev = onMessage message /\ h' <> h /\ listensTo message w h'.
Proof.
  intros Hs Hc Hok Hsize Hw Hacc message w'.
  pose proof (@sendMessage_accepted h content w s Hs Hc Hok Hsize Hw) as Hrun.
  cbv zeta in Hrun. rewrite Hacc in Hrun. destruct Hrun as (shown & Hrun & Hall).
  fold message in Hrun, Hall.
  destruct (asked_parts h s w) as (Hd & Hui & Hov & He & Hss).
  destruct (composed_fields h s content w) as (F1 & F2 & F3 & F4 & F5 & F6 & F7 & F8).
  fold message in F1, F2, F3, F4, F5, F6, F7, F8.
  unfold w', exec, result. rewrite Hrun. cbn [fst snd].
  split; [reflexivity|]. split; [repeat split; auto|].
  unfold addUi, withChatState, published, withEnv.
  cbn [chatState sessions ui overlay env]. rewrite Hov, Hui.
  split; [reflexivity|]. split; [reflexivity|].
  exists shown. split; [reflexivity|].
  intros h' ev Hx.
  destruct (proj1 (Forall_forall _ _) Hall (h', ev) Hx) as [Hev (s' & Hs' & Hr & Hf)].
  cbn [fst snd] in *. unfold published, withEnv in Hs'. cbn [sessions] in Hs'.
  rewrite Hss in Hs'. split; [assumption|].
  destruct (Nat.eq_dec h' h) as [->|D].
  - rewrite (nth_error_updateAt_same _ _ _ Hs) in Hs'. injection Hs' as <-.
    elim Hf. rewrite F4. reflexivity.
  - rewrite nth_error_updateAt_other in Hs' by assumption.
    split; [assumption|]. exists s'. auto.
Qed.

(** X22.  What [sendMessage] does with a message that it cannot send,
    for a connected session whose rate limiter lets the request through.
    A message over the size limit is answered by the notice "Message too
    long" and goes no further; one whose publish the overlay refuses
    (for another reason than the want of peers) is answered by "Failed to
    send message", is not shown as sent and is not added to the history.
    In both cases the call returns normally, and the request has been
    counted by the rate limiter all the same. *)
Theorem sendMessage_not_sent (h : nat) (content : jsstring) (w : World)
    (s : UserSession) :
  nth_error (sessions w) h = Some s ->
  _isConnected s = true ->
  fst (fst (RateLimiter.record (rateLimiter s) (env w))) = true ->
  let w' := exec (UserSession.sendMessage h content) w in
  (isMessageSizeValid content (maxMessageSize (config s)) = false ->
   UserSession.sendMessage h content w
   = (Normal tt, addUi [(h, onSystemMessage (tooLongNotice s))] (asked h s w))
   /\ chatState w' = chatState w /\ overlay w' = overlay w)
  /\ (isMessageSizeValid content (maxMessageSize (config s)) = true ->
      listenersOwned w ->
      publishAccepted (env w) = false ->
      result (UserSession.sendMessage h content) w = Normal tt
      /\ ui w' = ui w ++ [(h, onSystemMessage sendFailedNotice)]
      /\ chatState w' = chatState w
      /\ overlay w'
         = overlay w ++ [publish (ChatPubSub.getTopic (_room s))
                                 (encodeMessage (composed h s content w))])
  /\ (isMessageSizeValid content (maxMessageSize (config s)) = false
      \/ (listenersOwned w /\ publishAccepted (env w) = false) ->
      exists s', nth_error (sessions w') h = Some s'
                 /\ In (clock (env w) (S (clockTick (env w))))
                       (timestamps (rateLimiter s'))).
Proof.
  intros Hs Hc Hok w'.
  destruct (asked_parts h s w) as (Hd & Hui & Hov & He & Hss).
  assert (Hlong : isMessageSizeValid content (maxMessageSize (config s)) = false ->
            UserSession.sendMessage h content w
            = (Normal tt, addUi [(h, onSystemMessage (tooLongNotice s))] (asked h s w))).
  { intros Hsize. rewrite (@sendMessage_unfolded h content w s Hs Hc), Hok, Hsize.
    reflexivity. }
  assert (Hfail : isMessageSizeValid content (maxMessageSize (config s)) = true ->
            listenersOwned w -> publishAccepted (env w) = false ->
            UserSession.sendMessage h content w
            = (Normal tt,
               addUi [(h, onSystemMessage sendFailedNotice)]
                 (published (ChatPubSub.getTopic (_room s))
                    (encodeMessage (composed h s content w))
                    (withEnv (snd (createTextMessage (_room s) (_nick s) (fingerprint s)
                                     content (env (asked h s w)))) (asked h s w))))).
  { intros Hsize Hw Hacc.
    pose proof (@sendMessage_accepted h content w s Hs Hc Hok Hsize Hw) as Hrun.
    cbv zeta in Hrun. now rewrite Hacc in Hrun. }
  assert (Hcounted : In (clock (env w) (S (clockTick (env w))))
            (timestamps (snd (fst (RateLimiter.record (rateLimiter s) (env w)))))).
  { clear - Hok. unfold RateLimiter.record, RateLimiter.canProceed in *. simpl in *.
    destruct (Z.of_nat _ <? maxRequests (rateLimiter s)); [|discriminate]. simpl.
    apply in_or_app. right. now left. }
  split; [|split].
  - intros Hsize. split; [now apply Hlong|].
    unfold w', exec. rewrite (Hlong Hsize). cbn [snd addUi chatState overlay]. auto.
  - intros Hsize Hw Hacc. unfold w', exec, result. rewrite (Hfail Hsize Hw Hacc).
    cbn [fst snd addUi published withEnv chatState ui overlay]. rewrite Hd, Hui, Hov.
    repeat split.
  - intros [Hsize|[Hw Hacc]].
    + unfold w', exec. rewrite (Hlong Hsize). cbn [snd addUi sessions]. rewrite Hss.
      eexists. split; [apply (nth_error_updateAt_same _ _ _ Hs) | exact Hcounted].
    + destruct (isMessageSizeValid content (maxMessageSize (config s))) eqn:Hsize.
      * unfold w', exec. rewrite (Hfail eq_refl Hw Hacc).
        cbn [snd addUi published withEnv sessions]. rewrite Hss.
        eexists. split; [apply (nth_error_updateAt_same _ _ _ Hs) | exact Hcounted].
      * unfold w', exec. rewrite (Hlong eq_refl). cbn [snd addUi sessions]. rewrite Hss.
        eexists. split; [apply (nth_error_updateAt_same _ _ _ Hs) | exact Hcounted].
Qed.

(* ================================================================== *)
(** * Further properties: commands and input *)
(* ================================================================== *)

Lemma sendMessage_returns h content w :
  nth_error (sessions w) h <> None ->
  listenersOwned w ->
  result (UserSession.sendMessage h content) w = Normal tt.
Proof.
  intros Hh Hw. destruct (nth_error (sessions w) h) as [s|] eqn:Hs; [|congruence].
  destruct (_isConnected s) eqn:Hc.
  - destruct (fst (fst (RateLimiter.record (rateLimiter s) (env w)))) eqn:Hok.
    + destruct (isMessageSizeValid content (maxMessageSize (config s))) eqn:Hsize.
      * pose proof (@sendMessage_accepted h content w s Hs Hc Hok Hsize Hw) as Hrun.
        cbv zeta in Hrun. unfold result.
        destruct (publishAccepted (env w)).
        -- destruct Hrun as (shown & -> & _). reflexivity.
        -- now rewrite Hrun.
      * unfold result.
        rewrite (@sendMessage_unfolded h content w s Hs Hc), Hok, Hsize. reflexivity.
    + unfold result. rewrite (@sendMessage_unfolded h content w s Hs Hc), Hok. reflexivity.
  - unfold result, UserSession.sendMessage, bind, getSession. rewrite Hs, Hc. reflexivity.
Qed.

Section Input.
Context `{JsPlatform}.

(** X23.  The command processor never throws.  A line that does not
    start with a slash is no command: the answer is false and nothing at
    all happens.  Any other line is a command and the answer is true,
    whatever the command does, since what the command throws is caught
    and reported to the user; a name that no command bears is answered
    by the notice "Unknown command" and nothing else.  Every command is
    found under its name and under each of its aliases. *)
Theorem executeCommand_never_throws (session : nat) (input : jsstring) (w : World) :
  result (Commands.executeCommand session input) w = Normal (startsWith (js "/") input)
  /\ (startsWith (js "/") input = false ->
      Commands.executeCommand session input w = (Normal false, w))
  /\ (startsWith (js "/") input = true ->
      JsMap.get (commandNameOf input) Commands.commandMap = None ->
      Commands.executeCommand session input w
      = (Normal true, addUi [(session, onSystemMessage (unknownCommandNotice input))] w))
  /\ (forall cmd key, In cmd Commands.commands -> In key (name cmd :: aliases cmd) ->
        option_map name (JsMap.get key Commands.commandMap) = Some (name cmd)).
Proof.
  split; [|split; [|split]].
  - unfold result, Commands.executeCommand.
    destruct (startsWith (js "/") input); [|reflexivity]. cbn [negb].
    destruct (JsMap.get _ Commands.commandMap) as [command|]; [|reflexivity].
    unfold bind, try_catch.
    destruct (execute command _ w) as [[[]|err] w1]; reflexivity.
  - intros E. unfold Commands.executeCommand. now rewrite E.
  - intros E Hnone. unfold Commands.executeCommand. rewrite E. cbn [negb].
    fold (commandNameOf input). rewrite Hnone. reflexivity.
  - intros cmd key Hcmd Hkey.
    unfold Commands.commands, Commands.commandsWith in Hcmd.
    repeat (destruct Hcmd as [<-|Hcmd];
            [cbn [name aliases Commands.nickCommand Commands.joinCommand
                  Commands.usersCommand Commands.roomsCommand Commands.helpCommand
                  Commands.helpCommandWith Commands.quitCommand Commands.meCommand
                  Commands.clearCommand] in Hkey;
             repeat (destruct Hkey as [<-|Hkey]; [reflexivity|]); destruct Hkey|]).
    destruct Hcmd.
Qed.

Lemma executeCommand_run (session : nat) (input : jsstring) (w : World) :
  result (Commands.executeCommand session input) w = Normal (startsWith (js "/") input)
  /\ (startsWith (js "/") input = false ->
      Commands.executeCommand session input w = (Normal false, w)).
Proof.
  split.
  - unfold result, Commands.executeCommand.
    destruct (startsWith (js "/") input); [|reflexivity]. cbn [negb].
    destruct (JsMap.get _ Commands.commandMap) as [command|]; [|reflexivity].
    unfold bind, try_catch.
    destruct (execute command _ w) as [[[]|err] w1]; reflexivity.
  - intros E. unfold Commands.executeCommand. now rewrite E.
Qed.

(** X24.  Input never throws either.  For a session of the world whose
    listeners are owned, [handleInput] returns normally whatever the line:
    a line of nothing but white space does nothing at all, a line that
    starts with a slash (once trimmed) is left to the command processor,
    and any other line is sent as a message, trimmed. *)
Theorem handleInput_never_throws (h : nat) (input : jsstring) (w : World) :
  nth_error (sessions w) h <> None ->
  listenersOwned w ->
  result (handleInput h input) w = Normal tt
  /\ (trim input = [] -> handleInput h input w = (Normal tt, w))
  /\ (startsWith (js "/") (trim input) = true ->
      exec (handleInput h input) w = exec (Commands.executeCommand h (trim input)) w)
  /\ (trim input <> [] -> startsWith (js "/") (trim input) = false ->
      handleInput h input w = UserSession.sendMessage h (trim input) w).
Proof.
  intros Hh Hw.
  destruct (executeCommand_run h (trim input) w) as [Hcmd Hnot].
  assert (Hrun : handleInput h input w
                 = if negb (truthy (trim input)) then (Normal tt, w)
                   else if startsWith (js "/") (trim input)
                        then (Normal tt, exec (Commands.executeCommand h (trim input)) w)
                        else UserSession.sendMessage h (trim input) w).
  { unfold handleInput. destruct (negb (truthy (trim input))); [reflexivity|].
    unfold bind, exec. unfold result in Hcmd.
    destruct (startsWith (js "/") (trim input)) eqn:Es.
    - destruct (Commands.executeCommand h (trim input) w) as [[b|err] w1];
        cbn [fst] in Hcmd; [|discriminate].
      injection Hcmd as ->. reflexivity.
    - now rewrite (Hnot eq_refl). }
  split; [|split; [|split]].
  - unfold result. rewrite Hrun.
    destruct (negb (truthy (trim input))); [reflexivity|].
    destruct (startsWith (js "/") (trim input)); [reflexivity|].
    now apply sendMessage_returns.
  - intros Et. rewrite Hrun, Et. reflexivity.
  - intros Es. unfold exec at 1. rewrite Hrun, Es.
    destruct (trim input); [discriminate | reflexivity].
  - intros Et Es. rewrite Hrun, Es.
    destruct (trim input); [congruence | reflexivity].
Qed.
End Input.

(* ================================================================== *)
(** * Further properties: leaving, and changing nick or room *)
(* ================================================================== *)

Section JoinCommand.
Context `{JsPlatform}.

(** X25.  A sanitised room name has at most 32 units, as a sanitised nick
    has.  So for a session whose [maxRoomNameLength] is 32 or more the
    test that guards the notice "Room name too long" is false for every
    argument, and [/join] does what it would do without the test. *)
Theorem room_name_too_long_unreachable (ctx : CommandContext) (w : World)
    (s : UserSession) :
  lowersBasicLatin ->
  nth_error (sessions w) (session ctx) = Some s ->
  32 <= maxRoomNameLength (config s) ->
  (forall x, jslength (Commands.sanitizeRoomName x) <= 32)
  /\ execute Commands.joinCommand ctx w = joinCommand_without_length_check ctx w.
Proof.
  intros Hlow Hs Hmax.
  assert (Hlen : forall x, jslength (Commands.sanitizeRoomName x) <= 32).
  { intros x. unfold jslength, Commands.sanitizeRoomName.
    fold (Commands.sanitizeNick x).
    rewrite (Hlow _ (nameUnits_sanitizeNick x)), length_map.
    pose proof (length_sanitizeNick x). lia. }
  split; [assumption|].
  unfold joinCommand_without_length_check. simpl.
  destruct (Z.of_nat (length (args ctx)) <? 1); [reflexivity|].
  destruct (negb (truthy (Commands.sanitizeRoomName (hd [] (args ctx))))); [reflexivity|].
  unfold bind at 1. unfold Commands.maxRoomNameLengthOf, bind, getSession, ret.
  rewrite Hs. specialize (Hlen (hd [] (args ctx))).
  destruct (Z.gtb_spec (jslength (Commands.sanitizeRoomName (hd [] (args ctx))))
                       (maxRoomNameLength (config s))); [lia | reflexivity].
Qed.
End JoinCommand.

(** ** Leaving *)

Lemma delete_absent {V} (m : JsMap.t V) k : JsMap.get k m = None -> JsMap.delete k m = m.
Proof.
  induction m as [|[k' v'] m IH]; simpl; [reflexivity|].
  destruct (jseqb k' k); [discriminate|]. intros E. now rewrite IH.
Qed.

Lemma withUsers_same w : withUsers (users (chatState w)) w = w.
Proof. destruct w as [[us rm mx ls] ss u o e]. reflexivity. Qed.

Lemma removeUser_run sessionId w :
  listenersOwned w ->
  exists extra,
    UserSession.chatState_removeUser sessionId w
    = (Normal (JsMap.get sessionId (users (chatState w))),
       addUi extra (withUsers (JsMap.delete sessionId (users (chatState w))) w)).
Proof.
  intros Hw. destruct (JsMap.get sessionId (users (chatState w))) as [user|] eqn:Hu.
  - set (w1 := withUsers (JsMap.delete sessionId (users (chatState w))) w).
    assert (Hw1 : listenersOwned w1) by exact Hw.
    destruct (emit_run (EvUserLeave user) Hw1) as [extra Hemit].
    exists extra.
    transitivity
      (match JsMap.get sessionId (users (chatState w)) with
       | Some user =>
           match ChatState.emit UserSession.stateListener (EvUserLeave user)
                   (withUsers (JsMap.delete sessionId (users (chatState w))) w) with
           | (Normal _, w2) => (Normal (Some user), w2)
           | (Throw err, w2) => (Throw err, w2)
           end
       | None => (Normal None, w)
       end).
    { unfold UserSession.chatState_removeUser, ChatState.removeUser.
      unfold bind at 1, getChatState.
      destruct (JsMap.get sessionId (users (chatState w))); reflexivity. }
    rewrite Hu. fold w1. now rewrite Hemit.
  - exists []. rewrite addUi_nil, (delete_absent _ _ Hu), withUsers_same.
    unfold UserSession.chatState_removeUser, ChatState.removeUser, bind, getChatState.
    now rewrite Hu.
Qed.

Lemma router_sendMessage_caught h roomName message w :
  try_catch (ChatPubSub.sendMessage h roomName message) (fun _ => ret tt) w
  = (Normal tt, published (ChatPubSub.getTopic roomName) (encodeMessage message) w).
Proof.
  unfold try_catch. rewrite router_sendMessage_run.
  destruct (publishAccepted (env w)); [reflexivity|].
  destruct (publishOutcome (env w) (publishTick (env w))); reflexivity.
Qed.

(** The world that [disconnect] leaves for a connected session. *)
Lemma disconnect_run h w s :
  nth_error (sessions w) h = Some s ->
  _isConnected s = true ->
  listenersOwned w ->
  exists shown e,
    UserSession.disconnect h w
    = (Normal tt,
       {| chatState := with_users (JsMap.delete (id s) (users (chatState w))) (chatState w);
          sessions := updateAt h (disconnected s) (sessions w);
          ui := ui w ++ shown ++ [(h, onDisconnect)];
          overlay := overlay w ++ leavingCalls h s w;
          env := e |}).
Proof.
  intros Hs Hc Hw.
  set (leave := leaveMessageOf s w).
  set (w1 := withEnv (snd (createLeaveMessage (_room s) (_nick s) (fingerprint s) (env w))) w).
  set (w2 := published (ChatPubSub.getTopic (_room s)) (encodeMessage leave) w1).
  assert (Hs2 : nth_error (sessions w2) h = Some s) by exact Hs.
  set (w3 := routed h s (JsMap.delete (_room s) (subscriptions (pubsub s)))
                    [unsubscribe (ChatPubSub.getTopic (_room s))] w2).
  assert (Hs3 : nth_error (sessions w3) h
                = Some (with_pubsub
                          {| subscriptions := JsMap.delete (_room s) (subscriptions (pubsub s)) |}
                          s))
    by exact (@nth_error_routed h s _ _ w2 Hs2).
  set (s3 := with_pubsub
               {| subscriptions := JsMap.delete (_room s) (subscriptions (pubsub s)) |} s)
    in Hs3.
  set (w4 := routed h s3 JsMap.empty
               (removeEventListener h
                :: map (fun roomName => unsubscribe (ChatPubSub.getTopic roomName))
                       (JsMap.keys (subscriptions (pubsub s3)))) w3).
  assert (Hs4 : nth_error (sessions w4) h
                = Some (with_pubsub {| subscriptions := JsMap.empty |} s3))
    by exact (@nth_error_routed h s3 _ _ w3 Hs3).
  assert (Hw4 : listenersOwned w4).
  { apply (@listenersOwned_sessions w); [reflexivity | | exact Hw].
    intros k Hk. unfold w4, w3, routed. cbn [sessions].
    now apply nth_error_updateAt_some, nth_error_updateAt_some. }
  destruct (@removeUser_run (id s) w4 Hw4) as [shown Hrem].
  exists shown, (env w4).
  assert (Hrun : UserSession.disconnect h w
                 = bind (UserSession.chatState_removeUser (id s))
                     (fun _ => bind (modifySession h (with_isConnected false))
                        (fun _ => callback h onDisconnect)) w4).
  { unfold UserSession.disconnect. unfold bind at 1, getSession at 1. rewrite Hs, Hc.
    cbn [negb].
    transitivity
      (bind (try_catch (ChatPubSub.sendMessage h (_room s) leave) (fun _ => ret tt))
         (fun _ => bind (ChatPubSub.leaveRoom h (_room s))
            (fun _ => bind (ChatPubSub.destroy h)
               (fun _ => bind (UserSession.chatState_removeUser (id s))
                  (fun _ => bind (modifySession h (with_isConnected false))
                     (fun _ => callback h onDisconnect))))) w1); [reflexivity|].
    unfold bind at 1. rewrite router_sendMessage_caught. fold w2.
    unfold bind at 1. rewrite (@router_leaveRoom_run h (_room s) w2 s Hs2). fold w3.
    unfold bind at 1. rewrite (@router_destroy_run h w3 s3 Hs3). fold w4.
    reflexivity. }
  rewrite Hrun. unfold bind at 1. rewrite Hrem.
  unfold bind at 1, modifySession, bind at 1, getSession.
  cbn [sessions addUi withUsers withChatState]. rewrite Hs4.
  unfold setSession, callback. cbn [chatState sessions ui overlay env addUi withUsers
    withChatState]. f_equal. unfold w4, w3, w2, w1, routed, published, withEnv.
  cbn [chatState sessions ui overlay env]. f_equal.
  - now rewrite !updateAt_updateAt.
  - now rewrite <- app_assoc.
  - unfold leavingCalls. fold leave. cbn [pubsub with_pubsub subscriptions s3].
    rewrite <- !app_assoc. reflexivity.
Qed.

(** X26.  [disconnect] does nothing at all for a session that is not
    connected.  For a connected one it returns normally, also when the
    leave message cannot be published; afterwards the session is not
    connected and its router has no subscription, the session's user is
    no more in the directory while the other users are as before, the
    overlay has been asked to publish the leave message, to unsubscribe
    and to remove the router's listener, and the last callback invoked
    is [onDisconnect].  Histories and listeners of the directory are as
    before.  Either way a second [disconnect] does nothing at all. *)
Theorem disconnect_leaves (h : nat) (w : World) (s : UserSession) :
  nth_error (sessions w) h = Some s ->
  listenersOwned w ->
  distinctKeys (users (chatState w)) ->
  let w' := exec (UserSession.disconnect h) w in
  result (UserSession.disconnect h) w = Normal tt
  /\ (_isConnected s = false -> w' = w)
  /\ (_isConnected s = true ->
      nth_error (sessions w') h = Some (disconnected s)
      /\ subscribedRooms h w' = []
      /\ ChatState.getUser (id s) (chatState w') = None
      /\ (forall other, other <> id s ->
            ChatState.getUser other (chatState w') = ChatState.getUser other (chatState w))
      /\ overlay w' = overlay w ++ leavingCalls h s w
      /\ (exists shown, ui w' = ui w ++ shown ++ [(h, onDisconnect)])
      /\ roomMessages (chatState w') = roomMessages (chatState w)
      /\ listeners (chatState w') = listeners (chatState w))
  /\ UserSession.disconnect h w' = (Normal tt, w').
Proof.
  intros Hs Hw Hkeys w'.
  assert (Hidle : forall w0 s0, nth_error (sessions w0) h = Some s0 ->
                    _isConnected s0 = false ->
                    UserSession.disconnect h w0 = (Normal tt, w0)).
  { intros w0 s0 Hs0 Hc0. unfold UserSession.disconnect, bind, getSession.
    now rewrite Hs0, Hc0. }
  destruct (_isConnected s) eqn:Hc.
  - destruct (@disconnect_run h w s Hs Hc Hw) as (shown & e & Hrun).
    assert (Hs' : nth_error (sessions w') h = Some (disconnected s)).
    { unfold w', exec. rewrite Hrun. cbn [snd sessions].
      apply (nth_error_updateAt_same _ _ _ Hs). }
    unfold result. split; [now rewrite Hrun|]. split; [discriminate|]. split.
    + intros _. split; [exact Hs'|].
      unfold subscribedRooms. rewrite Hs'.
      unfold w', exec. rewrite Hrun.
      cbn [snd chatState overlay ui with_users users roomMessages listeners].
      unfold ChatState.getUser. cbn [users].
      split; [reflexivity|]. split; [now apply get_delete_same|].
      split; [intros other D; now apply get_delete_other|].
      split; [reflexivity|]. split; [now exists shown|]. split; reflexivity.
    + apply (Hidle w' (disconnected s) Hs'). reflexivity.
  - assert (Hrun := Hidle w s Hs Hc).
    assert (Ew : w' = w) by (unfold w', exec; now rewrite Hrun).
    unfold result. rewrite Ew. split; [now rewrite Hrun|]. split; [reflexivity|].
    split; [discriminate | exact Hrun].
Qed.

(** ** Changing nick *)

Lemma setNick_total sessionId newNick w :
  listenersOwned w ->
  exists extra b,
    UserSession.chatState_setNick sessionId newNick w
    = (Normal b, addUi extra (withUsers (renamed sessionId newNick (users (chatState w))) w)).
Proof.
  intros Hw. unfold renamed.
  destruct (JsMap.get sessionId (users (chatState w))) as [user|] eqn:Hu.
  - destruct (@setNick_run sessionId newNick w user Hw Hu) as [extra Hrun].
    exists extra, true. exact Hrun.
  - exists [], false. rewrite addUi_nil, withUsers_same. now apply setNick_unknown.
Qed.

Section ChangeNick.
Context `{JsPlatform}.

(** X27.  [changeNick] returns normally.  Asked for the nick that the
    session has already, or for one that somebody else holds in the room,
    it answers with a notice and changes nothing.  Otherwise the session
    takes the new nick, the directory records it for the session's user
    and leaves the other users as they are, the overlay is asked to
    publish the announcement, which is added to the history of the room
    if the publish is accepted, and the last callback invoked tells the
    user the new nick. *)
Theorem changeNick_outcomes (h : nat) (newNick : jsstring) (w : World)
    (s : UserSession) :
  nth_error (sessions w) h = Some s ->
  listenersOwned w ->
  let w' := exec (UserSession.changeNick h newNick) w in
  let message := nickMessageOf s newNick w in
  result (UserSession.changeNick h newNick) w = Normal tt
  /\ (newNick = _nick s ->
      UserSession.changeNick h newNick w
      = (Normal tt, addUi [(h, onSystemMessage sameNickNotice)] w))
  /\ (newNick <> _nick s ->
      ChatState.isNickTaken newNick (_room s) (Some (id s)) (chatState w) = true ->
      UserSession.changeNick h newNick w
      = (Normal tt, addUi [(h, onSystemMessage (nickTakenNotice newNick))] w))
  /\ (newNick <> _nick s ->
      ChatState.isNickTaken newNick (_room s) (Some (id s)) (chatState w) = false ->
      nth_error (sessions w') h = Some (with_nick newNick s)
      /\ users (chatState w') = renamed (id s) newNick (users (chatState w))
      /\ roomMessages (chatState w')
         = roomMessages (if publishAccepted (env w) then pushed message (chatState w)
                         else chatState w)
      /\ overlay w'
         = overlay w ++ [publish (ChatPubSub.getTopic (_room s)) (encodeMessage message)]
      /\ exists shown,
           ui w' = ui w ++ shown ++ [(h, onSystemMessage (nickChangedNotice newNick))]).
Proof.
  intros Hs Hw w' message.
  assert (Hsame : newNick = _nick s ->
            UserSession.changeNick h newNick w
            = (Normal tt, addUi [(h, onSystemMessage sameNickNotice)] w)).
  { intros ->. unfold UserSession.changeNick, bind, getSession. rewrite Hs.
    now rewrite jseqb_refl. }
  assert (Htaken : newNick <> _nick s ->
            ChatState.isNickTaken newNick (_room s) (Some (id s)) (chatState w) = true ->
            UserSession.changeNick h newNick w
            = (Normal tt, addUi [(h, onSystemMessage (nickTakenNotice newNick))] w)).
  { intros D Ht. unfold UserSession.changeNick, bind, getSession, getChatState.
    rewrite Hs. apply jseqb_neq in D. rewrite D, Ht. reflexivity. }
  set (w1 := {| chatState := chatState w;
                sessions := updateAt h (with_nick newNick s) (sessions w);
                ui := ui w; overlay := overlay w; env := env w |}).
  assert (Hw1 : listenersOwned w1).
  { apply (@listenersOwned_sessions w); [reflexivity | | exact Hw].
    intros k Hk. now apply nth_error_updateAt_some. }
  destruct (@setNick_total (id s) newNick w1 Hw1) as (x1 & b & Hset).
  set (w2 := addUi x1 (withUsers (renamed (id s) newNick (users (chatState w1))) w1))
    in Hset.
  set (w3 := withEnv (snd (createNickChangeMessage (_room s) (_nick s) newNick
                             (fingerprint s) (env w2))) w2).
  set (w4 := published (ChatPubSub.getTopic (_room s)) (encodeMessage message) w3).
  assert (Hw4 : listenersOwned w4) by exact Hw1.
  destruct (@addMessage_run message w4 Hw4) as (x2 & Hadd & _ & _).
  assert (Hok : newNick <> _nick s ->
            ChatState.isNickTaken newNick (_room s) (Some (id s)) (chatState w) = false ->
            UserSession.changeNick h newNick w
            = (Normal tt,
               addUi [(h, onSystemMessage (nickChangedNotice newNick))]
                 (if publishAccepted (env w)
                  then addUi x2 (withChatState (pushed message (chatState w4)) w4)
                  else w4))).
  { intros D Ht. unfold UserSession.changeNick. unfold bind at 1, getSession at 1.
    rewrite Hs. apply jseqb_neq in D. rewrite D.
    unfold bind at 1, getChatState at 1. rewrite Ht.
    transitivity
      (bind (UserSession.chatState_setNick (id s) newNick)
         (fun _ =>
            bind (askEnv (createNickChangeMessage (_room s) (_nick s) newNick
                            (fingerprint s)))
              (fun message =>
                 bind (try_catch
                         (bind (ChatPubSub.sendMessage h (_room s) message)
                            (fun _ => UserSession.chatState_addMessage message))
                         (fun _ => ret tt))
                   (fun _ =>
                      UserSession.showSystemMessage h (nickChangedNotice newNick)))) w1).
    { unfold bind at 1, modifySession, bind at 1, getSession at 1. rewrite Hs.
      reflexivity. }
    unfold bind at 1. rewrite Hset.
    transitivity
      (bind (try_catch
               (bind (ChatPubSub.sendMessage h (_room s) message)
                  (fun _ => UserSession.chatState_addMessage message))
               (fun _ => ret tt))
         (fun _ => UserSession.showSystemMessage h (nickChangedNotice newNick)) w3);
      [reflexivity|].
    unfold bind at 1, try_catch, bind at 1. rewrite router_sendMessage_run. fold w4.
    change (publishAccepted (env w3)) with (publishAccepted (env w)).
    change (publishOutcome (env w3) (publishTick (env w3)))
      with (publishOutcome (env w) (publishTick (env w))).
    destruct (publishAccepted (env w)) eqn:Ea.
    - rewrite Hadd. reflexivity.
    - unfold publishAccepted in Ea.
      destruct (publishOutcome (env w) (publishTick (env w))); [|discriminate].
      reflexivity. }
  split; [|split; [assumption | split; [assumption|]]].
  - unfold result. destruct (jseqb newNick (_nick s)) eqn:E.
    + apply jseqb_eq in E. now rewrite (Hsame E).
    + apply jseqb_neq in E.
      destruct (ChatState.isNickTaken newNick (_room s) (Some (id s)) (chatState w)) eqn:Et.
      * now rewrite (Htaken E eq_refl).
      * now rewrite (Hok E eq_refl).
  - intros D Ht. unfold w', exec. rewrite (Hok D Ht). cbn [snd].
    destruct (publishAccepted (env w));
      cbn [addUi withChatState chatState sessions ui overlay users roomMessages
           w4 published w3 withEnv w2 withUsers with_users w1 pushed with_roomMessages].
    + split; [apply (nth_error_updateAt_same _ _ _ Hs)|].
      split; [reflexivity|]. split; [reflexivity|]. split; [reflexivity|].
      exists (x1 ++ x2). now rewrite <- !app_assoc.
    + split; [apply (nth_error_updateAt_same _ _ _ Hs)|].
      split; [reflexivity|]. split; [reflexivity|]. split; [reflexivity|].
      exists x1. now rewrite <- !app_assoc.
Qed.
End ChangeNick.

(** ** Changing room *)

Lemma usersKept_refl w : usersKept w w.
Proof. reflexivity. Qed.

Lemma usersKept_trans a b c : usersKept a b -> usersKept b c -> usersKept a c.
Proof. unfold usersKept. congruence. Qed.

Lemma usersKept_uiOnly {A} (m : M A) : uiOnly m -> preserves usersKept m.
Proof. intros Hm w. destruct (Hm w) as [extra ->]. reflexivity. Qed.

Lemma usersKept_askEnv {A} (f : Env -> A * Env) : preserves usersKept (askEnv f).
Proof. intros w. unfold exec, askEnv. now destruct (f (env w)). Qed.

Lemma usersKept_overlayCall c : preserves usersKept (overlayCall c).
Proof. intros w. reflexivity. Qed.

Lemma usersKept_addMessage m : preserves usersKept (UserSession.chatState_addMessage m).
Proof. intros w. destruct (exec_addMessage m w) as [extra ->]. reflexivity. Qed.

Lemma usersKept_router_sendMessage h r m :
  preserves usersKept (ChatPubSub.sendMessage h r m).
Proof. intros w. unfold exec. now rewrite router_sendMessage_run. Qed.

Lemma usersKept_router_joinRoom h r handler :
  preserves usersKept (ChatPubSub.joinRoom h r handler).
Proof.
  intros w. unfold exec, ChatPubSub.joinRoom, ChatPubSub.getSubscriptions,
    ChatPubSub.setSubscriptions, modifySession, bind, getSession, ret.
  destruct (nth_error (sessions w) h) as [s|] eqn:Hs; [|reflexivity].
  destruct (JsMap.has r (subscriptions (pubsub s))); [reflexivity|].
  rewrite Hs. reflexivity.
Qed.

Lemma setRoom_total sessionId newRoom w :
  listenersOwned w ->
  exists extra b,
    UserSession.chatState_setRoom sessionId newRoom w
    = (Normal b, addUi extra (withUsers (moved sessionId newRoom (users (chatState w))) w)).
Proof.
  intros Hw. unfold moved.
  destruct (JsMap.get sessionId (users (chatState w))) as [user|] eqn:Hu.
  - destruct (@setRoom_run sessionId newRoom w user Hw Hu) as [extra Hrun].
    exists extra, true. exact Hrun.
  - exists [], false. rewrite addUi_nil, withUsers_same. now apply setRoom_unknown.
Qed.

(** What follows the change of room in [joinRoom] keeps the users. *)
Lemma users_joinRoom_rest h s newRoom w :
  users (chatState (exec (joinRoom_rest h s newRoom) w))
  = users (chatState (exec (UserSession.chatState_setRoom (id s) newRoom) w)).
Proof.
  unfold joinRoom_rest, exec. unfold bind at 1.
  destruct (UserSession.chatState_setRoom (id s) newRoom w) as [[b|err] w2];
    [|reflexivity].
  cbn [snd].
  match goal with
  | |- users (chatState (snd (?m w2))) = _ =>
      change (usersKept w2 (exec m w2)); generalize w2;
      change (preserves usersKept m)
  end.
  unfold UserSession.showSystemMessage.
  frame usersKept_refl usersKept_trans
    ltac:(first [ apply usersKept_router_joinRoom
                | apply usersKept_router_sendMessage
                | apply usersKept_addMessage
                | apply usersKept_askEnv
                | apply usersKept_uiOnly, uiOnly_callback
                | apply usersKept_uiOnly, uiOnly_updateUserList ]).
Qed.

(** X28.  [joinRoom] for a connected session.  Asked for the room that
    the session is in, it answers with a notice and changes nothing.
    Asked for another room, it moves the session: afterwards the session
    is in the new room, with its nick and still connected, and the
    directory has the session's user in the new room and the other users
    as they were. *)
Theorem joinRoom_moves (h : nat) (newRoom : jsstring) (w : World) (s : UserSession) :
  nth_error (sessions w) h = Some s ->
  _isConnected s = true ->
  listenersOwned w ->
  let w' := exec (UserSession.joinRoom h newRoom) w in
  (newRoom = _room s ->
   UserSession.joinRoom h newRoom w
   = (Normal tt, addUi [(h, onSystemMessage (alreadyInRoomNotice newRoom))] w))
  /\ (newRoom <> _room s ->
      (exists s', nth_error (sessions w') h = Some s'
                  /\ _room s' = newRoom /\ _nick s' = _nick s
                  /\ _isConnected s' = true)
      /\ users (chatState w') = moved (id s) newRoom (users (chatState w))).
Proof.
  intros Hs Hc Hw w'. split.
  - intros ->. unfold UserSession.joinRoom, bind, getSession. rewrite Hs, Hc.
    now rewrite jseqb_refl.
  - intros D. apply jseqb_neq in D.
    (* the world once the old room has been left *)
    set (leave := leaveMessageOf s w).
    set (wl := if truthy (_room s)
               then routed h s (JsMap.delete (_room s) (subscriptions (pubsub s)))
                      [unsubscribe (ChatPubSub.getTopic (_room s))]
                      (published (ChatPubSub.getTopic (_room s)) (encodeMessage leave)
                         (withEnv (snd (createLeaveMessage (_room s) (_nick s)
                                          (fingerprint s) (env w))) w))
               else w).
    set (sl := if truthy (_room s)
               then with_pubsub
                      {| subscriptions := JsMap.delete (_room s) (subscriptions (pubsub s)) |} s
               else s).
    assert (Hsl : nth_error (sessions wl) h = Some sl).
    { unfold wl, sl. destruct (truthy (_room s)); [|exact Hs].
      apply nth_error_routed. exact Hs. }
    assert (Hleft : when (_isConnected s && truthy (_room s))
                      (bind (askEnv (createLeaveMessage (_room s) (_nick s) (fingerprint s)))
                         (fun leaveMessage =>
                            bind (try_catch
                                    (ChatPubSub.sendMessage h (_room s) leaveMessage)
                                    (fun _ => ret tt))
                              (fun _ => ChatPubSub.leaveRoom h (_room s)))) w
                    = (Normal tt, wl)).
    { rewrite Hc. unfold wl. cbn [andb]. destruct (truthy (_room s)); [|reflexivity].
      cbn [when].
      transitivity
        (bind (try_catch (ChatPubSub.sendMessage h (_room s) leave) (fun _ => ret tt))
           (fun _ => ChatPubSub.leaveRoom h (_room s))
           (withEnv (snd (createLeaveMessage (_room s) (_nick s) (fingerprint s) (env w)))
                    w)); [reflexivity|].
      unfold bind. rewrite router_sendMessage_caught.
      now rewrite (@router_leaveRoom_run h (_room s)
                     (published (ChatPubSub.getTopic (_room s)) (encodeMessage leave)
                        (withEnv (snd (createLeaveMessage (_room s) (_nick s)
                                         (fingerprint s) (env w))) w)) s Hs). }
    set (w1 := {| chatState := chatState wl;
                  sessions := updateAt h (with_room newRoom sl) (sessions wl);
                  ui := ui wl; overlay := overlay wl; env := env wl |}).
    assert (Hs1 : nth_error (sessions w1) h = Some (with_room newRoom sl))
      by apply (nth_error_updateAt_same _ _ _ Hsl).
    assert (Hrun : UserSession.joinRoom h newRoom w = joinRoom_rest h s newRoom w1).
    { unfold UserSession.joinRoom.
      unfold bind at 1. unfold getSession at 1. rewrite Hs, D. cbn [andb].
      unfold bind at 1. rewrite Hleft.
      unfold bind at 1, modifySession, bind at 1, getSession. rewrite Hsl.
      reflexivity. }
    assert (Hw1 : listenersOwned w1).
    { apply (@listenersOwned_sessions w).
      - unfold w1, wl. cbn [chatState]. now destruct (truthy (_room s)).
      - intros k Hk. unfold w1. cbn [sessions]. apply nth_error_updateAt_some.
        unfold wl. destruct (truthy (_room s)); [|assumption].
        unfold routed. cbn [sessions]. now apply nth_error_updateAt_some.
      - exact Hw. }
    unfold w', exec. rewrite Hrun. split.
    + destruct (@fieldsKept_joinRoom_rest h s newRoom w1 (with_room newRoom sl) Hs1)
        as (s' & Hs' & Hn & Hr & Hi).
      exists s'. split; [exact Hs'|]. cbn [with_room _room _nick _isConnected] in *.
      unfold sl in Hn, Hi. destruct (truthy (_room s)); simpl in *; repeat split; congruence.
    + destruct (@setRoom_total (id s) newRoom w1 Hw1) as (x & b & Hset).
      change (snd (joinRoom_rest h s newRoom w1))
        with (exec (joinRoom_rest h s newRoom) w1).
      rewrite users_joinRoom_rest. unfold exec. rewrite Hset.
      cbn [snd addUi withUsers withChatState chatState with_users users w1].
      unfold wl. now destruct (truthy (_room s)).
Qed.

(* ================================================================== *)
(** * Further properties: fingerprints in the directory, made messages *)
(* ================================================================== *)

(** X29.  [getUserByFingerprint] returns the registered user with the
    fingerprint that was registered first: a user that it returns is
    registered, has the fingerprint, and no user registered before has
    it; and it returns nothing exactly when no registered user has the
    fingerprint. *)
Theorem getUserByFingerprint_first (fingerprint : jsstring) (d : ChatState) :
  (forall user, ChatState.getUserByFingerprint fingerprint d = Some user ->
     UserInfo.fingerprint user = fingerprint
     /\ exists before after,
          JsMap.values (users d) = before ++ user :: after
          /\ forall u, In u before -> UserInfo.fingerprint u <> fingerprint)
  /\ (ChatState.getUserByFingerprint fingerprint d = None
      <-> forall u, In u (JsMap.values (users d)) -> UserInfo.fingerprint u <> fingerprint).
Proof.
  unfold ChatState.getUserByFingerprint.
  induction (JsMap.values (users d)) as [|u us [IH1 IH2]]; simpl.
  - split; [discriminate|]. split; [intros _ u [] | reflexivity].
  - destruct (jseqb (UserInfo.fingerprint u) fingerprint) eqn:E.
    + apply jseqb_eq in E. split.
      * intros user [= <-]. split; [assumption|].
        exists [], us. split; [reflexivity | intros v []].
      * split; [discriminate|]. intros Hall. elim (Hall u); auto.
    + apply jseqb_neq in E. split.
      * intros user Hf. destruct (IH1 user Hf) as (Hfp & before & after & -> & Hb).
        split; [assumption|]. exists (u :: before), after.
        split; [reflexivity|]. intros v [<-|Hv]; auto.
      * rewrite IH2. split.
        -- intros Hall v [<-|Hv]; auto.
        -- intros Hall v Hv. apply Hall. now right.
Qed.

Lemma created_wellFormed ty room nick fingerprint content oldNick e :
  validString room -> validString nick -> validString fingerprint ->
  validString content ->
  match oldNick with Some o => validString o | None => True end ->
  validString (uuids e (uuidTick e)) ->
  Z.abs (clock e (clockTick e)) < 2 ^ 53 ->
  wellFormedMessage (fst (createMessage ty room nick fingerprint content oldNick e)).
Proof.
  intros Hr Hn Hf Hc Ho Hid Hts. unfold wellFormedMessage, createMessage. simpl.
  repeat split; assumption.
Qed.

(** X30.  The messages that the five makers build survive transmission.
    Given strings of UTF-16 code units, an identifier of such units from
    [uuidv4] and a clock reading below 2^53 in absolute value, decoding
    the encoding of a made message gives the message back, whichever
    maker made it; and a made message names an old nick exactly when it
    is a nick change. *)
Theorem made_messages_roundtrip (room nick other fingerprint content : jsstring)
    (e : Env) :
  validString room -> validString nick -> validString other ->
  validString fingerprint -> validString content ->
  validString (uuids e (uuidTick e)) ->
  Z.abs (clock e (clockTick e)) < 2 ^ 53 ->
  forall m,
    In m [fst (createTextMessage room nick fingerprint content e);
          fst (createActionMessage room nick fingerprint content e);
          fst (createJoinMessage room nick fingerprint e);
          fst (createLeaveMessage room nick fingerprint e);
          fst (createNickChangeMessage room other nick fingerprint e)] ->
    (exists v, decodeMessage (encodeMessage m) = inr v /\ asChatMessage v = Some m)
    /\ (ChatMessage.oldNick m <> None <-> ChatMessage.type m = MessageType.nick)
    /\ ChatMessage.room m = room /\ ChatMessage.nick m = nick
    /\ ChatMessage.fingerprint m = fingerprint
    /\ ChatMessage.id m = uuids e (uuidTick e)
    /\ ChatMessage.timestamp m = clock e (clockTick e).
Proof.
  intros Hr Hn Ho Hf Hc Hid Hts m Hm.
  assert (Hwf : wellFormedMessage m).
  { simpl in Hm.
    destruct Hm as [<-|[<-|[<-|[<-|[<-|[]]]]]];
      apply created_wellFormed; auto; unfold validString in *;
      repeat first [ assumption | apply Forall_app; split
                   | apply Forall_cons; [reflexivity|] | apply Forall_nil ]. }
  split.
  - exists (parsedMessage m). split.
    + now apply decodeMessage_encodeMessage.
    + apply asChatMessage_parsedMessage.
  - simpl in Hm.
    destruct Hm as [<-|[<-|[<-|[<-|[<-|[]]]]]]; simpl;
      repeat split; try discriminate; try reflexivity; intros; congruence.
Qed.

(* ================================================================== *)
(** * The further properties at work on the runs of the model *)
(* ================================================================== *)

Lemma uppersBasicLatin_basicLatin : uppersBasicLatin (H := basicLatin).
Proof. intros s _. reflexivity. Qed.

Lemma listenersOwned_twoStarted : listenersOwned twoStarted.
Proof.
  unfold listenersOwned. vm_compute.
  repeat constructor; intros E; vm_compute in E; discriminate E.
Qed.

Lemma listenersOwned_oneStarted : listenersOwned oneStarted.
Proof.
  unfold listenersOwned. vm_compute.
  repeat constructor; intros E; vm_compute in E; discriminate E.
Qed.

Lemma distinctKeys_twoStarted : distinctKeys (users (chatState twoStarted)).
Proof.
  unfold distinctKeys. vm_compute.
  repeat constructor; simpl; intuition discriminate.
Qed.

(** X2 at work: a new limiter with limit 3 after five requests. *)
Lemma rate_limiter_bounded_witness :
  Z.of_nat (length (timestamps (snd (fst (records 5 (RateLimiter.new 3) demoEnv)))))
  <= maxRequests (snd (fst (records 5 (RateLimiter.new 3) demoEnv))).
Proof.
  destruct (@rate_limiter_bounded 5 (RateLimiter.new 3) demoEnv) as [Hb _].
  - simpl. lia.
  - exact Hb.
Defined.


(** X6 at work. *)
Lemma sanitized_names_are_valid_witness :
  Commands.isValidNick (Commands.sanitizeNick (js "al ice!")) 32
  = truthy (Commands.sanitizeNick (js "al ice!")).
Proof.
  destruct (@sanitized_names_are_valid basicLatin (js "al ice!") 32
              lowersBasicLatin_basicLatin) as [Hnick _].
  apply Hnick. lia.
Defined.

(** X7 at work: the fingerprint of the first user's key. *)
Lemma generated_fingerprint_is_valid_witness :
  isValidFingerprint (generateFingerprint (H := basicLatin) (publicKeyBytes alice)) = true.
Proof.
  destruct (@generated_fingerprint_is_valid basicLatin (publicKeyBytes alice))
    as [Hvalid _].
  - exact uppersBasicLatin_basicLatin.
  - vm_compute. lia.
  - vm_compute. repeat constructor.
  - exact Hvalid.
Defined.

(** X13 at work: a third user joins the two. *)
Lemma addUser_registers_witness :
  ChatState.getUserCount
    (chatState (exec (UserSession.chatState_addUser (js "session-9") (js "zed")
                        (js "FFFF0000") (js "lobby")) twoStarted))
  = ChatState.getUserCount (chatState twoStarted)
    + (if JsMap.has (js "session-9") (users (chatState twoStarted)) then 0 else 1).
Proof.
  destruct (@addUser_registers (js "session-9") (js "zed") (js "FFFF0000") (js "lobby")
              twoStarted listenersOwned_twoStarted) as (_ & _ & _ & Hcount & _).
  exact Hcount.
Defined.

(** X14 at work: the first user is removed. *)
Lemma removeUser_unregisters_witness :
  ChatState.getUser (js "session-0")
    (chatState (exec (UserSession.chatState_removeUser (js "session-0")) twoStarted))
  = None.
Proof.
  destruct (@removeUser_unregisters (js "session-0") twoStarted
              listenersOwned_twoStarted distinctKeys_twoStarted) as (_ & _ & Hgone & _).
  exact Hgone.
Defined.

(** X15 at work: no user is registered under this id. *)
Lemma setNick_setRoom_update_witness :
  UserSession.chatState_setNick (js "session-9") (js "zed") twoStarted
  = (Normal false, twoStarted).
Proof.
  destruct (@setNick_setRoom_update (js "session-9") (js "zed") twoStarted
              listenersOwned_twoStarted) as [Hunknown _].
  apply Hunknown. vm_compute. reflexivity.
Defined.

(** X16 at work: the first session joins another room. *)
Lemma router_joinRoom_once_witness :
  result (ChatPubSub.joinRoom 0 (js "quiet") (SessionHandler 0)) twoStarted = Normal tt.
Proof.
  edestruct (@router_joinRoom_once 0 (js "quiet") (SessionHandler 0) (SessionHandler 0)
               twoStarted) as [Hnormal _].
  - vm_compute. reflexivity.
  - exact Hnormal.
Defined.

(** X17 at work: the first session leaves the default room. *)
Lemma router_leaveRoom_unsubscribes_witness :
  ~ In (js "lobby")
       (subscribedRooms 0 (exec (ChatPubSub.leaveRoom 0 (js "lobby")) twoStarted)).
Proof.
  edestruct (@router_leaveRoom_unsubscribes 0 (js "lobby") (SessionHandler 0)
               twoStarted) as (_ & _ & Hleft & _).
  - vm_compute. reflexivity.
  - unfold distinctKeys. vm_compute. repeat constructor; simpl; intuition discriminate.
  - exact Hleft.
Defined.

(** X18 at work. *)
Lemma router_destroy_unsubscribes_all_witness :
  subscribedRooms 0 (exec (ChatPubSub.destroy 0) twoStarted) = [].
Proof.
  edestruct (@router_destroy_unsubscribes_all 0 twoStarted) as (_ & _ & Hnone & _).
  - vm_compute. reflexivity.
  - exact Hnone.
Defined.

(** X19 at work: a message of somebody else for the default room. *)
Lemma addMessage_reaches_the_room_witness :
  chatState (exec (UserSession.chatState_addMessage carolsMessage) twoStarted)
  = pushed carolsMessage (chatState twoStarted).
Proof.
  destruct (@addMessage_reaches_the_room carolsMessage twoStarted
              listenersOwned_twoStarted) as (_ & Hpushed & _).
  exact Hpushed.
Defined.

(** X20 at work: the message arrives for the first session. *)
Lemma handlePubsubMessage_stores_and_shows_witness :
  exists a b,
    ui (exec (UserSession.handlePubsubMessage 0 carolsMessage) twoStarted)
    = ui twoStarted ++ a ++ (0%nat, onMessage carolsMessage)
                         :: b ++ [(0%nat, onMessage carolsMessage)].
Proof.
  edestruct (@handlePubsubMessage_stores_and_shows 0 carolsMessage twoStarted)
    as [_ Hother].
  - vm_compute. reflexivity.
  - exact listenersOwned_twoStarted.
  - apply Hother.
    + vm_compute. discriminate.
    + vm_compute. auto.
    + vm_compute. reflexivity.
Defined.

(** X21 at work: the one session sends a message. *)
Lemma sendMessage_delivers_witness :
  result (UserSession.sendMessage 0 (js "hello")) oneStarted = Normal tt.
Proof.
  edestruct (@sendMessage_delivers 0 (js "hello") oneStarted) as [Hnormal _].
  - vm_compute. reflexivity.
  - reflexivity.
  - vm_compute. reflexivity.
  - vm_compute. reflexivity.
  - exact listenersOwned_oneStarted.
  - vm_compute. reflexivity.
  - exact Hnormal.
Defined.

(** X22 at work: a message of five thousand letters, over the limit of
    4096 bytes. *)
Lemma sendMessage_not_sent_witness :
  chatState (exec (UserSession.sendMessage 0 (repeat 97%N 5000)) oneStarted)
  = chatState oneStarted.
Proof.
  edestruct (@sendMessage_not_sent 0 (repeat 97%N 5000) oneStarted)
    as [Hlong _].
  - vm_compute. reflexivity.
  - reflexivity.
  - vm_compute. reflexivity.
  - apply Hlong. vm_compute. reflexivity.
Defined.

(** X24 at work. *)
Lemma handleInput_never_throws_witness :
  result (handleInput (H := basicLatin) 0 (js "  /nick Zed  ")) twoStarted = Normal tt.
Proof.
  destruct (@handleInput_never_throws basicLatin 0 (js "  /nick Zed  ") twoStarted)
    as [Hnormal _].
  - vm_compute. discriminate.
  - exact listenersOwned_twoStarted.
  - exact Hnormal.
Defined.

(** X25 at work: a room name of forty letters. *)
Lemma room_name_too_long_unreachable_witness :
  execute (Commands.joinCommand (H := basicLatin))
    {| session := 0; args := [repeat 97%N 40]; rawInput := js "/join" |} twoStarted
  = joinCommand_without_length_check (H := basicLatin)
      {| session := 0; args := [repeat 97%N 40]; rawInput := js "/join" |} twoStarted.
Proof.
  edestruct (@room_name_too_long_unreachable basicLatin
               {| session := 0; args := [repeat 97%N 40]; rawInput := js "/join" |}
               twoStarted) as [_ Hsame].
  - exact lowersBasicLatin_basicLatin.
  - vm_compute. reflexivity.
  - vm_compute. discriminate.
  - exact Hsame.
Defined.

(** X26 at work: the first session disconnects. *)
Lemma disconnect_leaves_witness :
  UserSession.disconnect 0 (exec (UserSession.disconnect 0) twoStarted)
  = (Normal tt, exec (UserSession.disconnect 0) twoStarted).
Proof.
  edestruct (@disconnect_leaves 0 twoStarted) as (_ & _ & _ & Hagain).
  - vm_compute. reflexivity.
  - exact listenersOwned_twoStarted.
  - exact distinctKeys_twoStarted.
  - exact Hagain.
Defined.

(** X27 at work: the first session asks for the nick zed. *)
Lemma changeNick_outcomes_witness :
  result (UserSession.changeNick (H := basicLatin) 0 (js "zed")) twoStarted = Normal tt.
Proof.
  edestruct (@changeNick_outcomes basicLatin 0 (js "zed") twoStarted) as [Hnormal _].
  - vm_compute. reflexivity.
  - exact listenersOwned_twoStarted.
  - exact Hnormal.
Defined.

(** X28 at work: the first session asks for the room it is in. *)
Lemma joinRoom_moves_witness :
  UserSession.joinRoom 0 (js "lobby") twoStarted
  = (Normal tt,
     addUi [(0%nat, onSystemMessage (alreadyInRoomNotice (js "lobby")))] twoStarted).
Proof.
  edestruct (@joinRoom_moves 0 (js "lobby") twoStarted) as [Hsame _].
  - vm_compute. reflexivity.
  - reflexivity.
  - exact listenersOwned_twoStarted.
  - apply Hsame. vm_compute. reflexivity.
Defined.

(** X30 at work: a join message made for ann in the lobby. *)
Lemma made_messages_roundtrip_witness :
  let m := fst (createJoinMessage (js "lobby") (js "ann") (js "ab12cd34") demoEnv) in
  (exists v, decodeMessage (encodeMessage m) = inr v /\ asChatMessage v = Some m)
  /\ (ChatMessage.oldNick m <> None <-> ChatMessage.type m = MessageType.nick)
  /\ ChatMessage.room m = js "lobby" /\ ChatMessage.nick m = js "ann"
  /\ ChatMessage.fingerprint m = js "ab12cd34"
  /\ ChatMessage.id m = uuids demoEnv (uuidTick demoEnv)
  /\ ChatMessage.timestamp m = clock demoEnv (clockTick demoEnv).
Proof.
  cbv zeta.
  apply (@made_messages_roundtrip (js "lobby") (js "ann") (js "bob")
           (js "ab12cd34") (js "hi") demoEnv).
  - apply validString_literal. reflexivity.
  - apply validString_literal. reflexivity.
  - apply validString_literal. reflexivity.
  - apply validString_literal. reflexivity.
  - apply validString_literal. reflexivity.
  - apply Forall_forall. intros c Hc. apply N.ltb_lt.
    revert c Hc. apply forallb_forall. vm_compute. reflexivity.
  - vm_compute. reflexivity.
  - right. right. left. reflexivity.
Defined.
